(** * ideviceinstaller: the streaming ZIP reader of [src/ideviceinstaller.c]

    A shallow embedding of the forward-only ZIP reader (the [r_zip_*],
    [r_extract_*], [r_get_content] and [r_get_app_directory] functions) and
    the properties of it that the specification states.

    Conventions of the embedding:
    - a byte is a [Z] in [0, 256); the archive is the list of its bytes;
    - a [FILE*] is the archive together with the current read position;
      reading a list cannot fail, so [ferror] is never set;
    - [malloc]/[realloc] succeed;
    - every C loop that is not bounded syntactically takes a [fuel] argument
      and answers [OutOfFuel] when it has not finished within it;
    - an access outside of a C array is an explicit [Undefined] outcome;
    - file offsets and sizes are integers of [Z]: the 64-bit offsets of the
      source do not wrap on a file that exists; [size_t] is 64 bits wide and
      its one subtraction that can wrap is written out;
    - zlib's [inflate] and libimobiledevice's [afc_file_write] are external
      libraries: the reader is parameterised by them. *)

From Stdlib Require Import Ascii String ZArith List Lia Bool.
Import ListNotations.
Local Open Scope Z_scope.

(** ** Bytes and little-endian words *)

Definition len {A : Type} (l : list A) : Z := Z.of_nat (length l).

(** The value of a little-endian byte sequence (the host is little-endian:
    the source reads header fields with [memcpy] and [fread] into integers). *)
Fixpoint le_decode (bs : list Z) : Z :=
  match bs with
  | [] => 0
  | b :: rest => b + 256 * le_decode rest
  end.

Definition slice (off n : Z) (l : list Z) : list Z :=
  firstn (Z.to_nat n) (skipn (Z.to_nat off) l).

(** [memcpy(&signature, buffer + i, sizeof(uint32_t))] *)
Definition word32_at (buffer : list Z) (i : Z) : Z := le_decode (slice i 4 buffer).

Definition UINT32_MOD : Z := 2 ^ 32.
Definition SIZE_T_MOD : Z := 2 ^ 64.

(** ** Outcomes of the embedded functions *)

Inductive fault : Type :=
| BufferOverrun   (* a write outside of a C array *)
| BufferOverread. (* a read outside of the bytes of a C array that hold data *)

Inductive outcome (A : Type) : Type :=
| Ret (a : A)
| Undefined (f : fault)
| OutOfFuel.

Arguments Ret {A} a.
Arguments Undefined {A} f.
Arguments OutOfFuel {A}.

Definition bind {A B : Type} (m : outcome A) (k : A -> outcome B) : outcome B :=
  match m with
  | Ret a => k a
  | Undefined f => Undefined f
  | OutOfFuel => OutOfFuel
  end.

Notation "x <- m ;; k" := (bind m (fun x => k))
  (at level 61, m at next level, right associativity).
Notation "' pat <- m ;; k" := (bind m (fun x => match x with pat => k end))
  (at level 61, pat pattern, m at next level, right associativity).

(** ** stdio on a seekable byte source *)

Module Stdio.

Record FILE : Type := { content : list Z; fpos : Z }.

Definition ftell (f : FILE) : Z := fpos f.

(** [_fseeki64(fp, off, SEEK_SET)]: a negative offset is refused and leaves
    the position where it was; seeking behind the end is allowed. *)
Definition fseek_set (f : FILE) (off : Z) : FILE :=
  if off <? 0 then f else {| content := content f; fpos := off |}.

(** [_fseeki64(fp, off, SEEK_CUR)] *)
Definition fseek_cur (f : FILE) (off : Z) : FILE := fseek_set f (fpos f + off).

(** The bytes from the current position to the end of the file. *)
Definition remaining (f : FILE) : list Z :=
  if len (content f) <=? fpos f then [] else skipn (Z.to_nat (fpos f)) (content f).

(** [fread(buf, 1, n, fp)]: the bytes read (at most [n], fewer at the end of
    the file) and the file advanced by that many bytes. *)
Definition fread (n : Z) (f : FILE) : list Z * FILE :=
  let got := firstn (Z.to_nat (Z.min n (len (remaining f)))) (remaining f) in
  (got, {| content := content f; fpos := fpos f + len got |}).

End Stdio.
Import Stdio.

(** ** C strings held in byte arrays *)

(** The characters of the C string that starts at the head of [buf]. *)
Fixpoint cstr (buf : list Z) : list Z :=
  match buf with
  | [] => []
  | c :: rest => if c =? 0 then [] else c :: cstr rest
  end.

Definition strlen (buf : list Z) : Z := len (cstr buf).

(** [strncmp(s1, s2, n)]; a list that ends is read as ending in NUL. *)
Fixpoint strncmp (s1 s2 : list Z) (n : nat) : Z :=
  match n with
  | O => 0
  | S n' =>
      let c1 := hd 0 s1 in
      let c2 := hd 0 s2 in
      if negb (c1 =? c2) then c1 - c2
      else if c1 =? 0 then 0
      else strncmp (tl s1) (tl s2) n'
  end.

(** [strncpy(dst, src, n)] into a fresh destination: the characters of [src]
    up to its NUL, then NUL padding, [n] bytes in all. *)
Definition strncpy (src : list Z) (n : Z) : list Z :=
  let s := firstn (Z.to_nat n) (cstr src) in
  s ++ repeat 0 (Z.to_nat n - length s).

(** [memcpy(buf, src, |src|)] at the head of the array [buf]. *)
Definition store_bytes (buf src : list Z) : list Z :=
  src ++ skipn (length src) buf.

(** [buf[i] = c] for [i] inside of the array. *)
Definition store_byte (buf : list Z) (i : Z) (c : Z) : list Z :=
  firstn (Z.to_nat i) buf ++ c :: skipn (S (Z.to_nat i)) buf.

(** ** ZIP format constants *)

Definition LOCAL_HEADER_SIGNATURE : Z := 0x04034b50.
Definition CENTRAL_HEADER_SIGNATURE : Z := 0x02014b50.
Definition END_OF_CENTRAL_DIRECTORY_SIGNATURE : Z := 0x06054b50.
Definition CENTRAL_HEADER_DIGITAL_SIGNATURE : Z := 0x05054b50.
Definition ARCHIVE_EXTRA_DATA_SIGNATURE : Z := 0x07064b50.
Definition ZIP64_CENTRAL_FILE_HEADER_SIGNATURE : Z := 0x06064b50.
Definition BUFFER_SIZE : Z := 4096.

Definition COMPRESSION_STORE : Z := 0.
Definition COMPRESSION_DEFLATE : Z := 8.
Definition FLAG_DATA_DESCRIPTOR : Z := 0x08.

(** The cap of [r_get_content] (the literal 10485760 of the source). *)
Definition MAX_CONTENT_SIZE : Z := 10485760.

(** [sizeof(LocalFileHeader)] with [#pragma pack(1)] and [sizeof(zp->filename)]. *)
Definition SIZEOF_LFH : Z := 30.
Definition SIZEOF_FILENAME : Z := 256.

(** The packed [LocalFileHeader], read from its 30 bytes. *)
Record LocalFileHeader : Type := {
  lfh_signature : Z;
  lfh_version : Z;
  lfh_flags : Z;
  lfh_compression : Z;
  lfh_mod_time : Z;
  lfh_mod_date : Z;
  lfh_crc32 : Z;
  lfh_compressed_size : Z;
  lfh_uncompressed_size : Z;
  lfh_name_length : Z;
  lfh_extra_length : Z
}.

Definition decode_lfh (raw : list Z) : LocalFileHeader :=
  {| lfh_signature := le_decode (slice 0 4 raw);
     lfh_version := le_decode (slice 4 2 raw);
     lfh_flags := le_decode (slice 6 2 raw);
     lfh_compression := le_decode (slice 8 2 raw);
     lfh_mod_time := le_decode (slice 10 2 raw);
     lfh_mod_date := le_decode (slice 12 2 raw);
     lfh_crc32 := le_decode (slice 14 4 raw);
     lfh_compressed_size := le_decode (slice 18 4 raw);
     lfh_uncompressed_size := le_decode (slice 22 4 raw);
     lfh_name_length := le_decode (slice 26 2 raw);
     lfh_extra_length := le_decode (slice 28 2 raw) |}.

(** ** The parser state *)

Record ZipParser : Type := {
  fp : FILE;
  filename : list Z;      (* char filename[256] *)
  comp_size : Z;
  uncomp_size : Z;
  compression : Z;
  name_length : Z;
  extra_length : Z;
  flags : Z;
  data_start : Z;
  header_start : Z;
  consumed : bool
}.

Definition with_fp (zp : ZipParser) (f : FILE) : ZipParser :=
  {| fp := f; filename := filename zp; comp_size := comp_size zp;
     uncomp_size := uncomp_size zp; compression := compression zp;
     name_length := name_length zp; extra_length := extra_length zp;
     flags := flags zp; data_start := data_start zp;
     header_start := header_start zp; consumed := consumed zp |}.

Definition with_header_start (zp : ZipParser) (h : Z) : ZipParser :=
  {| fp := fp zp; filename := filename zp; comp_size := comp_size zp;
     uncomp_size := uncomp_size zp; compression := compression zp;
     name_length := name_length zp; extra_length := extra_length zp;
     flags := flags zp; data_start := data_start zp;
     header_start := h; consumed := consumed zp |}.

Definition with_consumed (zp : ZipParser) (c : bool) : ZipParser :=
  {| fp := fp zp; filename := filename zp; comp_size := comp_size zp;
     uncomp_size := uncomp_size zp; compression := compression zp;
     name_length := name_length zp; extra_length := extra_length zp;
     flags := flags zp; data_start := data_start zp;
     header_start := header_start zp; consumed := c |}.

(** [r_zip_open] on a file that exists: [calloc] zeroes the state. *)
Definition r_zip_open (archive : list Z) : ZipParser :=
  {| fp := {| content := archive; fpos := 0 |};
     filename := repeat 0 (Z.to_nat SIZEOF_FILENAME);
     comp_size := 0; uncomp_size := 0; compression := 0;
     name_length := 0; extra_length := 0; flags := 0;
     data_start := -1; header_start := -1; consumed := false |}.

Definition r_reset_entry (zp : ZipParser) : ZipParser :=
  {| fp := fp zp;
     filename := repeat 0 (Z.to_nat SIZEOF_FILENAME);
     comp_size := 0; uncomp_size := 0; compression := 0;
     name_length := 0; extra_length := 0; flags := 0;
     data_start := 0; header_start := 0; consumed := false |}.

(** ** The signature scan *)

Definition is_terminal_signature (signature : Z) : bool :=
  (signature =? CENTRAL_HEADER_SIGNATURE) ||
  (signature =? END_OF_CENTRAL_DIRECTORY_SIGNATURE) ||
  (signature =? CENTRAL_HEADER_DIGITAL_SIGNATURE) ||
  (signature =? ARCHIVE_EXTRA_DATA_SIGNATURE) ||
  (signature =? ZIP64_CENTRAL_FILE_HEADER_SIGNATURE).

Inductive chunk_result : Type :=
| ChunkFound (i : Z)   (* the local header signature is at offset [i] *)
| ChunkTerminal        (* a terminal signature was met *)
| ChunkExhausted       (* the [for] loop ran to its bound *)
| ChunkOverread (i : Z). (* the word at offset [i] is not within the bytes read *)

(** The [for (size_t i = 0; i < read_size - 3; ++i)] loop over one chunk.
    [read_size - 3] is computed on [size_t]: it wraps for [read_size < 3].
    [buffer] holds the [read_size] bytes that [fread] stored; a word that
    does not lie within them is not data of this chunk.  [n] bounds the
    recursion: no run makes more than [read_size] iterations before it
    leaves the bytes read (lemma [scan_chunk_bound_irrelevant]). *)
Fixpoint scan_chunk (n : nat) (buffer : list Z) (read_size i : Z) : chunk_result :=
  match n with
  | O => ChunkOverread i
  | S n' =>
      if i <? (read_size - 3) mod SIZE_T_MOD then
        if i + 4 <=? read_size then
          let signature := word32_at buffer i in
          if signature =? LOCAL_HEADER_SIGNATURE then ChunkFound i
          else if is_terminal_signature signature then ChunkTerminal
          else scan_chunk n' buffer read_size (i + 1)
        else ChunkOverread i
      else ChunkExhausted
  end.

(** Returns 1 with [header_start] set, or 0. *)
Fixpoint r_zip_skip_until_next_entry (fuel : nat) (zp : ZipParser)
  : outcome (Z * ZipParser) :=
  match fuel with
  | O => OutOfFuel
  | S fuel' =>
      let start := ftell (fp zp) in
      let '(buffer, f1) := fread BUFFER_SIZE (fp zp) in
      let read_size := len buffer in
      if read_size =? 0 then Ret (0, with_fp zp f1)
      else
        match scan_chunk (S (length buffer)) buffer read_size 0 with
        | ChunkFound i => Ret (1, with_header_start (with_fp zp f1) (start + i))
        | ChunkTerminal => Ret (0, with_fp zp f1)
        | ChunkOverread _ => Undefined BufferOverread
        | ChunkExhausted =>
            r_zip_skip_until_next_entry fuel'
              (with_fp zp (fseek_set f1 (start + read_size - 3)))
        end
  end.

(** ** External collaborators: zlib and the AFC file writer *)

Module Zlib.

Definition Z_OK : Z := 0.
Definition Z_STREAM_END : Z := 1.
Definition Z_STREAM_ERROR : Z := -2.
Definition Z_DATA_ERROR : Z := -3.
Definition Z_BUF_ERROR : Z := -5.

(** A raw-deflate decoder ([inflateInit2] with negative window bits).  One
    step is given the decoder state, the [avail_in] bytes at [next_in] and
    [avail_out]; it answers the new state, how many input bytes it consumed,
    the bytes it produced and zlib's return code. *)
Record Inflater : Type := {
  inflate_state : Type;
  inflate_init : inflate_state;
  inflate_step : inflate_state -> list Z -> Z -> inflate_state * Z * list Z * Z
}.

(** The fields of [z_stream] that the reader uses.  [total_in] is zlib's own
    count of the input bytes consumed since [inflateInit2]; the source does
    not read it (it keeps a 64-bit count of its own), the properties do. *)
Record z_stream (zl : Inflater) : Type := {
  next_in : list Z;
  avail_out : Z;
  total_in : Z;
  internal : inflate_state zl
}.

Arguments next_in {zl} _.
Arguments avail_out {zl} _.
Arguments total_in {zl} _.
Arguments internal {zl} _.

Definition avail_in {zl : Inflater} (strm : z_stream zl) : Z := len (next_in strm).

Definition inflateInit2 (zl : Inflater) : z_stream zl :=
  {| next_in := []; avail_out := 0; total_in := 0; internal := inflate_init zl |}.

(** [strm.avail_in = fread(in, ...); strm.next_in = in;] *)
Definition set_input {zl : Inflater} (strm : z_stream zl) (input : list Z) : z_stream zl :=
  {| next_in := input; avail_out := avail_out strm;
     total_in := total_in strm; internal := internal strm |}.

(** [strm.avail_out = sizeof(out); strm.next_out = out;] *)
Definition set_output {zl : Inflater} (strm : z_stream zl) (room : Z) : z_stream zl :=
  {| next_in := next_in strm; avail_out := room;
     total_in := total_in strm; internal := internal strm |}.

(** [inflate(&strm, Z_NO_FLUSH)]: the stream after the call, the bytes
    written at [next_out] and the return code.  The decoder cannot consume
    more than [avail_in] bytes nor produce more than [avail_out]. *)
Definition inflate {zl : Inflater} (strm : z_stream zl) : z_stream zl * list Z * Z :=
  let '(st, n, out, ret) :=
    inflate_step zl (internal strm) (next_in strm) (avail_out strm) in
  let rest := skipn (Z.to_nat n) (next_in strm) in
  let produced := firstn (Z.to_nat (avail_out strm)) out in
  ({| next_in := rest;
      avail_out := avail_out strm - len produced;
      total_in := total_in strm + (len (next_in strm) - len rest);
      internal := st |},
   produced, ret).

End Zlib.
Import Zlib.

Module Afc.

Definition AFC_E_SUCCESS : Z := 0.

(** The open remote file [af] of the AFC client: [afc_file_write] is given
    the chunk and answers the new state of the device, the error code and
    [bytes_written]. *)
Record Device : Type := {
  device_state : Type;
  afc_file_write : device_state -> list Z -> device_state * Z * Z
}.

End Afc.
Import Afc.

(** A growable memory buffer: the size of its allocation and the bytes
    stored in it so far. *)
Record membuf : Type := { alloc : Z; bytes : list Z }.

Section Reader.

Variable zlib : Inflater.
Variable afc : Device.

(** *** [r_close_entry] *)

(** The inner [do { ... } while (strm.avail_out == 0)] of [r_close_entry]:
    the inflated bytes are dropped. *)
Fixpoint close_inflate_chunk (fuel : nat) (strm : z_stream zlib)
  : outcome (z_stream zlib * Z) :=
  match fuel with
  | O => OutOfFuel
  | S fuel' =>
      let '(strm1, _, ret) := inflate (set_output strm BUFFER_SIZE) in
      if ret =? Z_STREAM_ERROR then Ret (strm1, ret)
      else if avail_out strm1 =? 0 then close_inflate_chunk fuel' strm1
      else Ret (strm1, ret)
  end.

(** The outer [do { ... } while (ret != Z_STREAM_END)] of [r_close_entry]:
    the file after the last read, [total_in_size] and the final stream. *)
Fixpoint close_inflate (fuel : nat) (f : FILE) (strm : z_stream zlib)
  (total_in_size : Z) : outcome (FILE * Z * z_stream zlib) :=
  match fuel with
  | O => OutOfFuel
  | S fuel' =>
      let '(input, f1) := fread BUFFER_SIZE f in
      let read_int_size := len input in
      '(strm1, ret) <- close_inflate_chunk fuel' (set_input strm input) ;;
      let total_in_size1 := total_in_size + (read_int_size - avail_in strm1) in
      if ret =? Z_STREAM_END then Ret (f1, total_in_size1, strm1)
      else close_inflate fuel' f1 strm1 total_in_size1
  end.

Definition r_close_entry (fuel : nat) (zp : ZipParser) : outcome ZipParser :=
  if compression zp =? COMPRESSION_DEFLATE then
    let f0 := fseek_set (fp zp) (data_start zp) in
    '(f1, total_in_size, _) <- close_inflate fuel f0 (inflateInit2 zlib) 0 ;;
    Ret (r_reset_entry (with_fp zp (fseek_set f1 (data_start zp + total_in_size))))
  else if compression zp =? COMPRESSION_STORE then
    Ret (r_reset_entry (with_fp zp (fseek_set (fp zp) (data_start zp + comp_size zp))))
  else
    Ret (r_reset_entry zp).

(** *** [r_zip_get_next_entry] *)

(** The part of [r_zip_get_next_entry] that follows a successful scan: seek
    to [header_start], read and check the local file header, read the name,
    skip the extra field, record the entry. *)
Definition read_local_header (zp : ZipParser) : outcome (Z * ZipParser) :=
  let f0 := fseek_set (fp zp) (header_start zp) in
  let '(raw, f1) := fread SIZEOF_LFH f0 in
  if negb (len raw =? SIZEOF_LFH) then Ret (0, with_fp zp f1)
  else
    let lfh := decode_lfh raw in
    if negb (lfh_signature lfh =? LOCAL_HEADER_SIGNATURE) then Ret (0, with_fp zp f1)
    else
      let '(name, f2) := fread (lfh_name_length lfh) f1 in
      (* zp->filename[lfh.name_length] = '\0' with filename[256] *)
      if SIZEOF_FILENAME <=? lfh_name_length lfh then Undefined BufferOverrun
      else
        let filename1 :=
          store_byte (store_bytes (filename zp) name) (lfh_name_length lfh) 0 in
        let f3 := fseek_cur f2 (lfh_extra_length lfh) in
        let deferred :=
          negb (Z.land (lfh_flags lfh) FLAG_DATA_DESCRIPTOR =? 0)
          && (lfh_compressed_size lfh =? 0) in
        let zp1 :=
          {| fp := f3; filename := filename1;
             comp_size := if deferred then 0 else lfh_compressed_size lfh;
             uncomp_size := if deferred then uncomp_size zp
                            else lfh_uncompressed_size lfh;
             compression := lfh_compression lfh;
             name_length := lfh_name_length lfh;
             extra_length := lfh_extra_length lfh;
             flags := lfh_flags lfh;
             data_start := ftell f3;
             header_start := header_start zp;
             consumed := consumed zp |} in
        if (compression zp1 =? COMPRESSION_STORE) && (flags zp1 =? FLAG_DATA_DESCRIPTOR)
        then Ret (0, zp1)
        else Ret (1, zp1).

Definition r_zip_get_next_entry (fuel : nat) (zp : ZipParser) : outcome (Z * ZipParser) :=
  zp0 <- (if negb (consumed zp) && negb (header_start zp =? -1)
          then r_close_entry fuel zp else Ret zp) ;;
  '(found, zp1) <- r_zip_skip_until_next_entry fuel zp0 ;;
  if found =? 0 then Ret (0, zp1)
  else read_local_header zp1.

(** *** [r_extract_current] *)

(** The [while (total_written < zp->comp_size)] loop of the store branch:
    1 when the loop ran to its end, 0 for one of its [return 0]. *)
Fixpoint store_copy (fuel : nat) (f : FILE) (dev : device_state afc)
  (size total_written : Z) : outcome (Z * FILE * device_state afc) :=
  if total_written <? size then
    match fuel with
    | O => OutOfFuel
    | S fuel' =>
        let to_read :=
          if size - total_written <? 4096
          then (size - total_written) mod UINT32_MOD else 4096 in
        let '(buffer, f1) := fread to_read f in
        let bytes_read := len buffer in
        if negb (bytes_read =? to_read) then Ret (0, f1, dev)
        else
          let '(dev1, err, bytes_written) := afc_file_write afc dev buffer in
          if negb (err =? AFC_E_SUCCESS) then Ret (0, f1, dev1)
          else if negb (bytes_written =? bytes_read) then Ret (0, f1, dev1)
          else store_copy fuel' f1 dev1 size (total_written + bytes_written)
    end
  else Ret (1, f, dev).

(** The inner loop of the deflate branch: [inl] for its [return 0] after a
    failed or short write, [inr] when the loop is left normally. *)
Fixpoint extract_inflate_chunk (fuel : nat) (strm : z_stream zlib)
  (dev : device_state afc)
  : outcome (device_state afc + z_stream zlib * Z * device_state afc) :=
  match fuel with
  | O => OutOfFuel
  | S fuel' =>
      let '(strm1, out_buf, ret) := inflate (set_output strm 4096) in
      if ret =? Z_STREAM_ERROR then Ret (inr (strm1, ret, dev))
      else
        let have := (4096 - avail_out strm1) mod UINT32_MOD in
        let '(dev1, err, written) := afc_file_write afc dev out_buf in
        if negb (err =? AFC_E_SUCCESS) then Ret (inl dev1)
        else if negb (written =? have) then Ret (inl dev1)
        else if avail_out strm1 =? 0 then extract_inflate_chunk fuel' strm1 dev1
        else Ret (inr (strm1, ret, dev1))
  end.

Fixpoint extract_inflate (fuel : nat) (f : FILE) (strm : z_stream zlib)
  (dev : device_state afc) (total_in_size : Z)
  : outcome (FILE * device_state afc + FILE * Z * z_stream zlib * device_state afc) :=
  match fuel with
  | O => OutOfFuel
  | S fuel' =>
      let '(input, f1) := fread 4096 f in
      let read_int_size := len input in
      r <- extract_inflate_chunk fuel' (set_input strm input) dev ;;
      match r with
      | inl dev1 => Ret (inl (f1, dev1))
      | inr (strm1, ret, dev1) =>
          let total_in_size1 := total_in_size + (read_int_size - avail_in strm1) in
          if ret =? Z_STREAM_END then Ret (inr (f1, total_in_size1, strm1, dev1))
          else extract_inflate fuel' f1 strm1 dev1 total_in_size1
      end
  end.

(** The result, the parser, the device and, for a deflate entry decoded to
    its end, the final [z_stream]. *)
Definition r_extract_current (fuel : nat) (zp : ZipParser) (dev : device_state afc)
  : outcome (Z * ZipParser * device_state afc * option (z_stream zlib)) :=
  let f0 := fseek_set (fp zp) (data_start zp) in
  if compression zp =? COMPRESSION_STORE then
    '(done, f1, dev1) <- store_copy fuel f0 dev (comp_size zp) 0 ;;
    if done =? 0 then Ret (0, with_fp zp f1, dev1, None)
    else Ret (1, with_consumed (with_fp zp f1) true, dev1, None)
  else if compression zp =? COMPRESSION_DEFLATE then
    r <- extract_inflate fuel f0 (inflateInit2 zlib) dev 0 ;;
    match r with
    | inl (f1, dev1) => Ret (0, with_fp zp f1, dev1, None)
    | inr (f1, total_in_size, strm, dev1) =>
        let f2 := fseek_set f1 (data_start zp + total_in_size) in
        Ret (1, with_consumed (with_fp zp f2) true, dev1, Some strm)
    end
  else Ret (0, with_fp zp f0, dev, None).

(** *** [r_extract_to_buffer] *)

(** The inner loop of the deflate branch: [None] for the [return 0] on
    [Z_STREAM_ERROR] (the buffer is freed), otherwise the stream, the return
    code, the buffer and [total_size]. *)
Fixpoint buffer_inflate_chunk (fuel : nat) (strm : z_stream zlib)
  (buffer : membuf) (total_size : Z)
  : outcome (option (z_stream zlib * Z * membuf * Z)) :=
  match fuel with
  | O => OutOfFuel
  | S fuel' =>
      let '(strm1, out_buf, ret) := inflate (set_output strm 4096) in
      if ret =? Z_STREAM_ERROR then Ret None
      else
        let have := 4096 - avail_out strm1 in
        let alloc_size :=
          if total_size + have >? alloc buffer then alloc buffer * 2 else alloc buffer in
        let buffer1 := {| alloc := alloc_size; bytes := bytes buffer ++ out_buf |} in
        let total_size1 := total_size + have in
        if avail_out strm1 =? 0
        then buffer_inflate_chunk fuel' strm1 buffer1 total_size1
        else Ret (Some (strm1, ret, buffer1, total_size1))
  end.

Fixpoint buffer_inflate (fuel : nat) (f : FILE) (strm : z_stream zlib)
  (buffer : membuf) (total_size : Z)
  : outcome (FILE * option (z_stream zlib * membuf * Z)) :=
  match fuel with
  | O => OutOfFuel
  | S fuel' =>
      let '(input, f1) := fread 4096 f in
      r <- buffer_inflate_chunk fuel' (set_input strm input) buffer total_size ;;
      match r with
      | None => Ret (f1, None)
      | Some (strm1, ret, buffer1, total_size1) =>
          if ret =? Z_STREAM_END then Ret (f1, Some (strm1, buffer1, total_size1))
          else buffer_inflate fuel' f1 strm1 buffer1 total_size1
      end
  end.

(** The result, [*buffer], [*len], the parser and, for a deflate entry
    decoded to its end, the final [z_stream]. *)
Definition r_extract_to_buffer (fuel : nat) (zp : ZipParser)
  : outcome (Z * option membuf * Z * ZipParser * option (z_stream zlib)) :=
  let f0 := fseek_set (fp zp) (data_start zp) in
  if compression zp =? COMPRESSION_STORE then
    let '(data, f1) := fread (comp_size zp) f0 in
    Ret (1, Some {| alloc := comp_size zp; bytes := data |}, comp_size zp,
         with_consumed (with_fp zp f1) true, None)
  else if compression zp =? COMPRESSION_DEFLATE then
    '(f1, r) <- buffer_inflate fuel f0 (inflateInit2 zlib)
                  {| alloc := 4096; bytes := [] |} 0 ;;
    match r with
    | None => Ret (0, None, 0, with_fp zp f1, None)
    | Some (strm, buffer, total_size) =>
        Ret (1, Some {| alloc := total_size; bytes := bytes buffer |}, total_size,
             with_consumed (with_fp zp f1) true, Some strm)
    end
  else Ret (0, None, 0, with_fp zp f0, None).

(** *** [r_get_content] *)

(** The [while (r_zip_get_next_entry(zp))] loop and what follows it: the
    return value, [*buffer], [*len] and the parser. *)
Fixpoint get_content_loop (fuel : nat) (zp : ZipParser) (file_name : list Z)
  : outcome (Z * option membuf * Z * ZipParser) :=
  match fuel with
  | O => OutOfFuel
  | S fuel' =>
      '(more, zp1) <- r_zip_get_next_entry fuel' zp ;;
      if more =? 0 then Ret (0, None, 0, r_reset_entry zp1)
      else if strncmp (filename zp1) file_name (Z.to_nat (strlen file_name)) =? 0 then
        if negb (uncomp_size zp1 =? 0) then
          if uncomp_size zp1 >? MAX_CONTENT_SIZE
          then Ret (-1, None, 0, r_reset_entry zp1)
          else
            '(_, buffer, size, zp2, _) <- r_extract_to_buffer fuel' zp1 ;;
            Ret (0, buffer, size mod UINT32_MOD, r_reset_entry zp2)
        else
          '(_, buffer, size, zp2, _) <- r_extract_to_buffer fuel' zp1 ;;
          if size >? MAX_CONTENT_SIZE
          then Ret (-1, buffer, 0, r_reset_entry zp2)
          else Ret (0, buffer, size mod UINT32_MOD, r_reset_entry zp2)
      else get_content_loop fuel' zp1 file_name
  end.

Definition r_get_content (fuel : nat) (zp : ZipParser) (file_name : list Z)
  : outcome (Z * option membuf * Z * ZipParser) :=
  get_content_loop fuel (r_reset_entry zp) file_name.

(** *** [r_get_app_directory] *)

(** [do { if ( *p == '/') break; } while (p++ != NULL);] from index [p]:
    the pointer is never null, so the loop ends at a slash only.  [None]
    when it walks out of [filename[256]] without meeting one. *)
Fixpoint find_slash (n : nat) (name : list Z) (p : nat) : option nat :=
  match n with
  | O => None
  | S n' =>
      match nth_error name p with
      | None => None
      | Some c => if c =? 47 then Some p else find_slash n' name (S p)
      end
  end.

Definition PAYLOAD_PREFIX : list Z := [80; 97; 121; 108; 111; 97; 100; 47].
Definition DOT_APP : list Z := [46; 97; 112; 112].

(** The return value, [*path] (a NUL-terminated array) and the parser. *)
Fixpoint r_get_app_directory (fuel : nat) (zp : ZipParser) (path : option (list Z))
  : outcome (Z * option (list Z) * ZipParser) :=
  match fuel with
  | O => OutOfFuel
  | S fuel' =>
      '(more, zp1) <- r_zip_get_next_entry fuel' zp ;;
      if more =? 0 then
        Ret (match path with None => -1 | Some _ => 0 end, path, zp1)
      else
        let name := filename zp1 in
        let len0 := strlen name in
        if (strncmp name PAYLOAD_PREFIX 8 =? 0) && (len0 >? 8) then
          if nth 8 name 0 =? 46 then r_get_app_directory fuel' zp1 path
          else
            match find_slash (length name) name 8 with
            | None => Undefined BufferOverread
            | Some p =>
                let len1 := Z.of_nat p + 1 in
                if (len1 <? 12) || negb (strncmp (skipn (p - 4) name) DOT_APP 4 =? 0)
                then r_get_app_directory fuel' zp1 path
                else Ret (0, Some (strncpy name len1 ++ [0]), zp1)
            end
        else r_get_app_directory fuel' zp1 path
  end.

End Reader.

(** ** Concrete collaborators and archives for the examples *)

(** A raw-deflate decoder for streams made of stored blocks (block type 00)
    only: one header byte with BFINAL in bit 0 and BTYPE in bits 1-2, LEN
    and its one's complement NLEN on two bytes each, then LEN literal bytes.
    It stands for zlib in the examples, whose deflate streams are one
    stored block each: zlib consumes the 5 + LEN bytes of such a stream,
    produces its LEN literal bytes and answers [Z_STREAM_END]. *)
Module StoredDeflate.

Inductive state : Type :=
| Head
| Length (final : bool) (got : list Z)
| Copy (final : bool) (remaining : Z)
| Done
| Bad.

Definition after_block (final : bool) : state := if final then Done else Head.

(** Decode from [input] while there is input and room for output: the new
    state, the input left and the bytes produced. *)
Fixpoint run (st : state) (input : list Z) (room : Z) : state * list Z * list Z :=
  match input with
  | [] => (st, [], [])
  | b :: rest =>
      match st with
      | Head =>
          if Z.land (Z.shiftr b 1) 3 =? 0
          then run (Length (Z.odd b) []) rest room
          else (Bad, input, [])
      | Length final got =>
          let got1 := got ++ [b] in
          if len got1 =? 4 then
            let n := le_decode (firstn 2 got1) in
            if Z.lxor n (le_decode (skipn 2 got1)) =? 0xFFFF then
              run (if n =? 0 then after_block final else Copy final n) rest room
            else (Bad, rest, [])
          else run (Length final got1) rest room
      | Copy final remaining =>
          if room <=? 0 then (st, input, [])
          else
            let st1 := if remaining =? 1 then after_block final
                       else Copy final (remaining - 1) in
            let '(st2, unread, out) := run st1 rest (room - 1) in
            (st2, unread, b :: out)
      | Done => (Done, input, [])
      | Bad => (Bad, input, [])
      end
  end.

Definition step (st : state) (input : list Z) (room : Z) : state * Z * list Z * Z :=
  let '(st1, unread, out) := run st input room in
  let used := len input - len unread in
  let ret :=
    match st1 with
    | Done => Z_STREAM_END
    | Bad => Z_DATA_ERROR
    | _ => if (used =? 0) && (len out =? 0) then Z_BUF_ERROR else Z_OK
    end in
  (st1, used, out, ret).

Definition inflater : Inflater :=
  {| inflate_state := state; inflate_init := Head; inflate_step := step |}.

End StoredDeflate.

(** A device that accepts every chunk whole and appends it to the file. *)
Definition accepting_device : Device :=
  {| device_state := list Z;
     afc_file_write := fun written chunk =>
       (written ++ chunk, AFC_E_SUCCESS, len chunk mod UINT32_MOD) |}.

(** The bytes of a string literal. *)
Definition chars (s : string) : list Z :=
  map (fun c => Z.of_N (N_of_ascii c)) (list_ascii_of_string s).

Fixpoint le_encode (n : nat) (v : Z) : list Z :=
  match n with
  | O => []
  | S n' => v mod 256 :: le_encode n' (v / 256)
  end.

(** A local file header with the given fields, then the name and the extra
    field.  [name_len] is the value of the name-length field. *)
Definition local_file_header (flags method csize usize name_len : Z)
  (name extra : list Z) : list Z :=
  le_encode 4 LOCAL_HEADER_SIGNATURE ++ le_encode 2 20 ++ le_encode 2 flags
  ++ le_encode 2 method ++ le_encode 2 0 ++ le_encode 2 0 ++ le_encode 4 0
  ++ le_encode 4 csize ++ le_encode 4 usize ++ le_encode 2 name_len
  ++ le_encode 2 (len extra) ++ name ++ extra.

(** A stored entry with accurate sizes. *)
Definition stored_entry (name payload : list Z) : list Z :=
  local_file_header 0 COMPRESSION_STORE (len payload) (len payload) (len name) name []
  ++ payload.

(** The start of a central directory: ends the local entries. *)
Definition central_directory : list Z :=
  le_encode 4 CENTRAL_HEADER_SIGNATURE ++ repeat 0 42.

(** One final stored deflate block holding [payload]. *)
Definition stored_block (payload : list Z) : list Z :=
  [1] ++ le_encode 2 (len payload) ++ le_encode 2 (Z.lxor (len payload) 0xFFFF)
  ++ payload.


(** ** Notions used by the properties *)

Definition is_signature (w : Z) : bool :=
  (w =? LOCAL_HEADER_SIGNATURE) || is_terminal_signature w.

(** A local file header signature begins at offset [off] of the archive and
    no signature, local or terminal, begins at an offset in [pos, off). *)
Definition first_header_at (archive : list Z) (pos off : Z) : bool :=
  (off + 4 <=? len archive)
  && (word32_at archive off =? LOCAL_HEADER_SIGNATURE)
  && forallb (fun k => negb (is_signature (word32_at archive (pos + Z.of_nat k))))
       (seq 0 (Z.to_nat (off - pos))).

(** Where the payload of the current entry ends: for a deflate entry the
    payload start plus the input bytes that zlib counts as consumed when
    the stream is decoded to its end, otherwise the payload start plus the
    recorded compressed size. *)
Definition payload_end (zl : Inflater) (fuel : nat) (zp : ZipParser) : outcome Z :=
  if compression zp =? COMPRESSION_DEFLATE then
    '(_, _, strm) <- close_inflate zl fuel (fseek_set (fp zp) (data_start zp))
                       (inflateInit2 zl) 0 ;;
    Ret (data_start zp + total_in strm)
  else Ret (data_start zp + comp_size zp).

(** Archives of the examples. *)

(** Two stored entries, [a] holding "hi" and [b] holding "x". *)
Definition archive_a_b : list Z :=
  stored_entry (chars "a") (chars "hi") ++ stored_entry (chars "b") (chars "x")
  ++ central_directory.

(** A deflate entry [a] (one stored block holding "hi", 7 bytes of
    payload) followed by a stored entry [b]. *)
Definition archive_deflate_a_b : list Z :=
  local_file_header 0 COMPRESSION_DEFLATE 7 2 1 (chars "a") []
  ++ stored_block (chars "hi")
  ++ stored_entry (chars "b") (chars "x") ++ central_directory.

(** A stored entry [a] whose header declares 20000000 compressed bytes and
    an uncompressed size of zero. *)
Definition archive_huge_store : list Z :=
  local_file_header 0 COMPRESSION_STORE 20000000 0 1 (chars "a") []
  ++ chars "x" ++ central_directory.

(** A stored entry with the data-descriptor bit and the UTF-8 bit (0x0808)
    and deferred sizes, and the same with the data-descriptor bit alone. *)
Definition archive_store_descriptor_utf8 : list Z :=
  local_file_header 0x0808 COMPRESSION_STORE 0 0 1 (chars "a") []
  ++ chars "payload" ++ central_directory.

Definition archive_store_descriptor : list Z :=
  local_file_header 0x08 COMPRESSION_STORE 0 0 1 (chars "a") []
  ++ chars "payload" ++ central_directory.

(** A stored entry [a] holding "hi", then a deflate entry [b] with the
    data-descriptor bit and both header sizes zero. *)
Definition archive_store_then_deferred : list Z :=
  stored_entry (chars "a") (chars "hi")
  ++ local_file_header 0x08 COMPRESSION_DEFLATE 0 0 1 (chars "b") []
  ++ stored_block (chars "x") ++ central_directory.

(** Three stored entries [a], [b] and [c]; the payload of [b] is itself a
    small archive member, the 31 bytes of an empty stored entry [z]. *)
Definition archive_nested : list Z :=
  stored_entry (chars "a") (chars "hi")
  ++ stored_entry (chars "b") (stored_entry (chars "z") [])
  ++ stored_entry (chars "c") (chars "x") ++ central_directory.

(** A stored entry [a] whose header declares an uncompressed size of
    20000000 bytes. *)
Definition archive_declared_too_large : list Z :=
  local_file_header 0 COMPRESSION_STORE 1 20000000 1 (chars "a") []
  ++ chars "x" ++ central_directory.

(** An empty stored entry whose name is [n] letters long. *)
Definition archive_with_name_length (n : nat) : list Z :=
  local_file_header 0 COMPRESSION_STORE 0 0 (Z.of_nat n) (repeat 65 n) []
  ++ central_directory.

(** [n] bytes of padding, then a stored entry: with 4093, 4094 or 4095
    bytes of padding the signature of its header lies across the end of the
    first 4096-byte chunk. *)
Definition archive_straddling (n : nat) : list Z :=
  repeat 0 n ++ stored_entry (chars "a") (chars "hi") ++ central_directory.

Definition archive_app_bundles : list Z :=
  stored_entry (chars "Payload/.hidden/foo") []
  ++ stored_entry (chars "Payload/Foo.app/bin") [1]
  ++ stored_entry (chars "Payload/Bar.app/bin") [2]
  ++ central_directory.

(** A file directly under [Payload/]: no slash follows the prefix. *)
Definition archive_no_slash : list Z :=
  stored_entry (chars "Payload/Foo") [] ++ central_directory.

(** ** Further collaborators for the properties of the extraction *)

(** A device that refuses every write. *)
Definition refusing_device : Device :=
  {| device_state := list Z;
     afc_file_write := fun written chunk => (written, 1, 0) |}.

(** Every write to the device is answered with an error code. *)
Definition refuses_writes (afc : Device) : Prop :=
  forall (st : device_state afc) (chunk : list Z),
    snd (fst (afc_file_write afc st chunk)) <> AFC_E_SUCCESS.

(** A stored entry [a] that declares 10 bytes of payload in an archive that
    ends after 2 of them. *)
Definition archive_truncated : list Z :=
  local_file_header 0 COMPRESSION_STORE 10 10 1 (chars "a") [] ++ chars "hi".


(** What the deflate loop of [r_extract_to_buffer] keeps true of its
    buffer: the bytes stored are [total_size] many, they fit into the
    allocation, and the allocation is at least one output chunk large. *)
Definition buffer_fits (buffer : membuf) (total_size : Z) : Prop :=
  len (bytes buffer) = total_size
  /\ total_size <= alloc buffer
  /\ 4096 <= alloc buffer.


(** The 30 bytes of a local file header ([local_file_header] without the
    name and the extra field). *)
Definition header_bytes (flags method csize usize name_len extra_len : Z) : list Z :=
  le_encode 4 LOCAL_HEADER_SIGNATURE ++ le_encode 2 20 ++ le_encode 2 flags
  ++ le_encode 2 method ++ le_encode 2 0 ++ le_encode 2 0 ++ le_encode 4 0
  ++ le_encode 4 csize ++ le_encode 4 usize ++ le_encode 2 name_len
  ++ le_encode 2 extra_len.

(** No character of the string is NUL. *)
Definition no_nul (s : list Z) : bool := forallb (fun c => negb (c =? 0)) s.

(** ** Notions used by the properties of the lookups *)

(** Stored entries one after the other, each given by its name and its
    payload. *)
Definition stored_entries (entries : list (list Z * list Z)) : list Z :=
  flat_map (fun e => stored_entry (fst e) (snd e)) entries.

(** [name] begins with the characters of [prefix]. *)
Fixpoint starts_with (name prefix : list Z) {struct prefix} : bool :=
  match prefix with
  | [] => true
  | c :: prefix' =>
      match name with
      | [] => false
      | d :: name' => (d =? c) && starts_with name' prefix'
      end
  end.

(** The parser is about to scan from offset [pos]: it is freshly opened
    with the stream there, or it holds an unconsumed store entry whose
    payload ends there (the reset state is one such, with [pos] 0). *)
Definition scans_from (zp : ZipParser) (pos : Z) : Prop :=
  consumed zp = false
  /\ ((header_start zp = -1 /\ fpos (fp zp) = pos
       /\ filename zp = repeat 0 (Z.to_nat SIZEOF_FILENAME))
      \/ (0 <= header_start zp /\ compression zp = COMPRESSION_STORE
          /\ data_start zp + comp_size zp = pos)).

(** Names that [r_get_app_directory] passes over before it looks for the
    second slash: not under [Payload/], nothing behind the prefix, or
    hidden. *)
Definition passed_over (name : list Z) : bool :=
  negb (starts_with name PAYLOAD_PREFIX) || (len name <=? 8)
  || (nth 8 name 0 =? 46).

(** The return value and the output of a lookup, without the parser. *)
Definition lookup_result {A B : Type} (o : outcome (A * B * ZipParser))
  : outcome (A * B) :=
  match o with
  | Ret (a, b, _) => Ret (a, b)
  | Undefined u => Undefined u
  | OutOfFuel => OutOfFuel
  end.

(** ** [afc_upload_file] *)

(** What [afc_upload_file] needs of the AFC client beside [afc_file_write]:
    [afc_file_open(afc, dstfn, AFC_FOPEN_WRONLY, &af)] answers the new state
    of the device, the error code and the handle [af]; [afc_file_close]
    closes it.  One remote file is open at a time, so the writes of the
    device go to it. *)
Record FileService (afc : Device) : Type := {
  afc_file_open : device_state afc -> list Z -> device_state afc * Z * Z;
  afc_file_close : device_state afc -> device_state afc
}.
Arguments afc_file_open {afc}.
Arguments afc_file_close {afc}.

(** [sizeof(buf)] of [char buf[1048576]] *)
Definition UPLOAD_BUFFER_SIZE : Z := 1048576.

Section Upload.

Variable afc : Device.
Variable files : FileService afc.

(** [while (total < amount)]: every round passes [buf] and [amount] to
    [afc_file_write] and adds [written] to the [uint32_t total]; a write
    error leaves the loop.  The value of [total] at the end and the
    device. *)
Fixpoint upload_chunk (fuel : nat) (dev : device_state afc) (buf : list Z)
  (amount total : Z) : outcome (Z * device_state afc) :=
  if total <? amount then
    match fuel with
    | O => OutOfFuel
    | S fuel' =>
        let '(dev1, aerr, written) := afc_file_write afc dev buf in
        if negb (aerr =? AFC_E_SUCCESS) then Ret (total, dev1)
        else upload_chunk fuel' dev1 buf amount ((total + written) mod UINT32_MOD)
    end
  else Ret (total, dev).

(** [do { amount = fread(buf, 1, sizeof(buf), f); ... } while (amount > 0)]:
    -1 for the [return -1] inside of the loop, 0 when the loop is left at
    the end of the file. *)
Fixpoint upload_loop (fuel : nat) (f : FILE) (dev : device_state afc)
  : outcome (Z * FILE * device_state afc) :=
  match fuel with
  | O => OutOfFuel
  | S fuel' =>
      let '(buf, f1) := fread UPLOAD_BUFFER_SIZE f in
      let amount := len buf in
      if amount >? 0 then
        '(total, dev1) <- upload_chunk fuel' dev buf amount 0 ;;
        if negb (total =? amount) then Ret (-1, f1, dev1)
        else upload_loop fuel' f1 dev1
      else Ret (0, f1, dev)
  end.

(** [file] is the content of the local file, [None] when [fopen] fails.
    The return value and the device; the remote file is closed on both
    ways out of the loop. *)
Definition afc_upload_file (fuel : nat) (file : option (list Z))
  (dev : device_state afc) (dstfn : list Z) : outcome (Z * device_state afc) :=
  match file with
  | None => Ret (-1, dev)
  | Some data =>
      let '(dev1, err, af) := afc_file_open files dev dstfn in
      if negb (err =? AFC_E_SUCCESS) || (af =? 0) then Ret (-1, dev1)
      else
        '(r, _, dev2) <- upload_loop fuel {| content := data; fpos := 0 |} dev1 ;;
        Ret (r, afc_file_close files dev2)
  end.

End Upload.

(** Opening always succeeds with handle 1 and leaves the device as it is,
    and so does closing. *)
Definition always_open (afc : Device) : FileService afc :=
  {| afc_file_open := fun st _ => (st, AFC_E_SUCCESS, 1);
     afc_file_close := fun st => st |}.

(** A device that takes at most [k] bytes of each chunk: it appends them to
    the file and reports their number. *)
Definition short_writing_device (k : Z) : Device :=
  {| device_state := list Z;
     afc_file_write := fun written chunk =>
       (written ++ firstn (Z.to_nat k) chunk, AFC_E_SUCCESS,
        Z.min k (len chunk)) |}.

(** ** [parse_opts] *)

Inductive cmd_mode : Type :=
| CMD_NONE
| CMD_LIST_APPS
| CMD_INSTALL
| CMD_UNINSTALL
| CMD_UPGRADE
| CMD_LIST_ARCHIVES
| CMD_ARCHIVE
| CMD_RESTORE
| CMD_REMOVE_ARCHIVE.

Definition FORMAT_XML : Z := 1.
Definition FORMAT_JSON : Z := 2.

(** [enum numerical_opts] *)
Definition LIST_USER : Z := 1.
Definition LIST_SYSTEM : Z := 2.
Definition LIST_ALL : Z := 3.
Definition ARCHIVE_UNINSTALL : Z := 4.
Definition ARCHIVE_APP_ONLY : Z := 5.
Definition ARCHIVE_DOCS_ONLY : Z := 6.
Definition ARCHIVE_COPY_PATH : Z := 7.
Definition ARCHIVE_COPY_REMOVE : Z := 8.
Definition OUTPUT_XML : Z := 9.
Definition OUTPUT_JSON : Z := 10.

(** The global variables that [parse_opts] assigns; a [char *] is [None]
    when NULL, and so is a plist array, which otherwise holds its strings in
    order.  [debug_level] is the level kept by [idevice_set_debug_level]. *)
Record globals : Type := {
  udid : option string;
  cmdarg : option string;
  extsinf : option string;
  extmeta : option string;
  cmd : cmd_mode;
  use_network : Z;
  use_notifier : Z;
  bundle_ids : option (list string);
  return_attrs : option (list string);
  output_format : Z;
  opt_list_user : Z;
  opt_list_system : Z;
  copy_path : option string;
  remove_after_copy : Z;
  skip_uninstall : Z;
  app_only : Z;
  docs_only : Z;
  debug_level : Z
}.

(** The values of the initialisers. *)
Definition initial_globals : globals :=
  {| udid := None; cmdarg := None; extsinf := None; extmeta := None;
     cmd := CMD_NONE; use_network := 0; use_notifier := 0;
     bundle_ids := None; return_attrs := None; output_format := 0;
     opt_list_user := 0; opt_list_system := 0; copy_path := None;
     remove_after_copy := 0; skip_uninstall := 1; app_only := 0; docs_only := 0;
     debug_level := 0 |}.

Definition set_udid (g : globals) (v : option string) : globals :=
  {| udid := v; cmdarg := cmdarg g; extsinf := extsinf g; extmeta := extmeta
     g; cmd := cmd g; use_network := use_network g; use_notifier :=
     use_notifier g; bundle_ids := bundle_ids g; return_attrs :=
     return_attrs g; output_format := output_format g; opt_list_user :=
     opt_list_user g; opt_list_system := opt_list_system g; copy_path :=
     copy_path g; remove_after_copy := remove_after_copy g; skip_uninstall
     := skip_uninstall g; app_only := app_only g; docs_only := docs_only g;
     debug_level := debug_level g |}.

Definition set_cmdarg (g : globals) (v : option string) : globals :=
  {| udid := udid g; cmdarg := v; extsinf := extsinf g; extmeta := extmeta
     g; cmd := cmd g; use_network := use_network g; use_notifier :=
     use_notifier g; bundle_ids := bundle_ids g; return_attrs :=
     return_attrs g; output_format := output_format g; opt_list_user :=
     opt_list_user g; opt_list_system := opt_list_system g; copy_path :=
     copy_path g; remove_after_copy := remove_after_copy g; skip_uninstall
     := skip_uninstall g; app_only := app_only g; docs_only := docs_only g;
     debug_level := debug_level g |}.

Definition set_extsinf (g : globals) (v : option string) : globals :=
  {| udid := udid g; cmdarg := cmdarg g; extsinf := v; extmeta := extmeta g;
     cmd := cmd g; use_network := use_network g; use_notifier :=
     use_notifier g; bundle_ids := bundle_ids g; return_attrs :=
     return_attrs g; output_format := output_format g; opt_list_user :=
     opt_list_user g; opt_list_system := opt_list_system g; copy_path :=
     copy_path g; remove_after_copy := remove_after_copy g; skip_uninstall
     := skip_uninstall g; app_only := app_only g; docs_only := docs_only g;
     debug_level := debug_level g |}.

Definition set_extmeta (g : globals) (v : option string) : globals :=
  {| udid := udid g; cmdarg := cmdarg g; extsinf := extsinf g; extmeta := v;
     cmd := cmd g; use_network := use_network g; use_notifier :=
     use_notifier g; bundle_ids := bundle_ids g; return_attrs :=
     return_attrs g; output_format := output_format g; opt_list_user :=
     opt_list_user g; opt_list_system := opt_list_system g; copy_path :=
     copy_path g; remove_after_copy := remove_after_copy g; skip_uninstall
     := skip_uninstall g; app_only := app_only g; docs_only := docs_only g;
     debug_level := debug_level g |}.

Definition set_cmd (g : globals) (v : cmd_mode) : globals :=
  {| udid := udid g; cmdarg := cmdarg g; extsinf := extsinf g; extmeta :=
     extmeta g; cmd := v; use_network := use_network g; use_notifier :=
     use_notifier g; bundle_ids := bundle_ids g; return_attrs :=
     return_attrs g; output_format := output_format g; opt_list_user :=
     opt_list_user g; opt_list_system := opt_list_system g; copy_path :=
     copy_path g; remove_after_copy := remove_after_copy g; skip_uninstall
     := skip_uninstall g; app_only := app_only g; docs_only := docs_only g;
     debug_level := debug_level g |}.

Definition set_use_network (g : globals) (v : Z) : globals :=
  {| udid := udid g; cmdarg := cmdarg g; extsinf := extsinf g; extmeta :=
     extmeta g; cmd := cmd g; use_network := v; use_notifier := use_notifier
     g; bundle_ids := bundle_ids g; return_attrs := return_attrs g;
     output_format := output_format g; opt_list_user := opt_list_user g;
     opt_list_system := opt_list_system g; copy_path := copy_path g;
     remove_after_copy := remove_after_copy g; skip_uninstall :=
     skip_uninstall g; app_only := app_only g; docs_only := docs_only g;
     debug_level := debug_level g |}.

Definition set_use_notifier (g : globals) (v : Z) : globals :=
  {| udid := udid g; cmdarg := cmdarg g; extsinf := extsinf g; extmeta :=
     extmeta g; cmd := cmd g; use_network := use_network g; use_notifier :=
     v; bundle_ids := bundle_ids g; return_attrs := return_attrs g;
     output_format := output_format g; opt_list_user := opt_list_user g;
     opt_list_system := opt_list_system g; copy_path := copy_path g;
     remove_after_copy := remove_after_copy g; skip_uninstall :=
     skip_uninstall g; app_only := app_only g; docs_only := docs_only g;
     debug_level := debug_level g |}.

Definition set_bundle_ids (g : globals) (v : option (list string)) : globals :=
  {| udid := udid g; cmdarg := cmdarg g; extsinf := extsinf g; extmeta :=
     extmeta g; cmd := cmd g; use_network := use_network g; use_notifier :=
     use_notifier g; bundle_ids := v; return_attrs := return_attrs g;
     output_format := output_format g; opt_list_user := opt_list_user g;
     opt_list_system := opt_list_system g; copy_path := copy_path g;
     remove_after_copy := remove_after_copy g; skip_uninstall :=
     skip_uninstall g; app_only := app_only g; docs_only := docs_only g;
     debug_level := debug_level g |}.

Definition set_return_attrs (g : globals) (v : option (list string)) : globals :=
  {| udid := udid g; cmdarg := cmdarg g; extsinf := extsinf g; extmeta :=
     extmeta g; cmd := cmd g; use_network := use_network g; use_notifier :=
     use_notifier g; bundle_ids := bundle_ids g; return_attrs := v;
     output_format := output_format g; opt_list_user := opt_list_user g;
     opt_list_system := opt_list_system g; copy_path := copy_path g;
     remove_after_copy := remove_after_copy g; skip_uninstall :=
     skip_uninstall g; app_only := app_only g; docs_only := docs_only g;
     debug_level := debug_level g |}.

Definition set_output_format (g : globals) (v : Z) : globals :=
  {| udid := udid g; cmdarg := cmdarg g; extsinf := extsinf g; extmeta :=
     extmeta g; cmd := cmd g; use_network := use_network g; use_notifier :=
     use_notifier g; bundle_ids := bundle_ids g; return_attrs :=
     return_attrs g; output_format := v; opt_list_user := opt_list_user g;
     opt_list_system := opt_list_system g; copy_path := copy_path g;
     remove_after_copy := remove_after_copy g; skip_uninstall :=
     skip_uninstall g; app_only := app_only g; docs_only := docs_only g;
     debug_level := debug_level g |}.

Definition set_opt_list_user (g : globals) (v : Z) : globals :=
  {| udid := udid g; cmdarg := cmdarg g; extsinf := extsinf g; extmeta :=
     extmeta g; cmd := cmd g; use_network := use_network g; use_notifier :=
     use_notifier g; bundle_ids := bundle_ids g; return_attrs :=
     return_attrs g; output_format := output_format g; opt_list_user := v;
     opt_list_system := opt_list_system g; copy_path := copy_path g;
     remove_after_copy := remove_after_copy g; skip_uninstall :=
     skip_uninstall g; app_only := app_only g; docs_only := docs_only g;
     debug_level := debug_level g |}.

Definition set_opt_list_system (g : globals) (v : Z) : globals :=
  {| udid := udid g; cmdarg := cmdarg g; extsinf := extsinf g; extmeta :=
     extmeta g; cmd := cmd g; use_network := use_network g; use_notifier :=
     use_notifier g; bundle_ids := bundle_ids g; return_attrs :=
     return_attrs g; output_format := output_format g; opt_list_user :=
     opt_list_user g; opt_list_system := v; copy_path := copy_path g;
     remove_after_copy := remove_after_copy g; skip_uninstall :=
     skip_uninstall g; app_only := app_only g; docs_only := docs_only g;
     debug_level := debug_level g |}.

Definition set_copy_path (g : globals) (v : option string) : globals :=
  {| udid := udid g; cmdarg := cmdarg g; extsinf := extsinf g; extmeta :=
     extmeta g; cmd := cmd g; use_network := use_network g; use_notifier :=
     use_notifier g; bundle_ids := bundle_ids g; return_attrs :=
     return_attrs g; output_format := output_format g; opt_list_user :=
     opt_list_user g; opt_list_system := opt_list_system g; copy_path := v;
     remove_after_copy := remove_after_copy g; skip_uninstall :=
     skip_uninstall g; app_only := app_only g; docs_only := docs_only g;
     debug_level := debug_level g |}.

Definition set_remove_after_copy (g : globals) (v : Z) : globals :=
  {| udid := udid g; cmdarg := cmdarg g; extsinf := extsinf g; extmeta :=
     extmeta g; cmd := cmd g; use_network := use_network g; use_notifier :=
     use_notifier g; bundle_ids := bundle_ids g; return_attrs :=
     return_attrs g; output_format := output_format g; opt_list_user :=
     opt_list_user g; opt_list_system := opt_list_system g; copy_path :=
     copy_path g; remove_after_copy := v; skip_uninstall := skip_uninstall
     g; app_only := app_only g; docs_only := docs_only g; debug_level :=
     debug_level g |}.

Definition set_skip_uninstall (g : globals) (v : Z) : globals :=
  {| udid := udid g; cmdarg := cmdarg g; extsinf := extsinf g; extmeta :=
     extmeta g; cmd := cmd g; use_network := use_network g; use_notifier :=
     use_notifier g; bundle_ids := bundle_ids g; return_attrs :=
     return_attrs g; output_format := output_format g; opt_list_user :=
     opt_list_user g; opt_list_system := opt_list_system g; copy_path :=
     copy_path g; remove_after_copy := remove_after_copy g; skip_uninstall
     := v; app_only := app_only g; docs_only := docs_only g; debug_level :=
     debug_level g |}.

Definition set_app_only (g : globals) (v : Z) : globals :=
  {| udid := udid g; cmdarg := cmdarg g; extsinf := extsinf g; extmeta :=
     extmeta g; cmd := cmd g; use_network := use_network g; use_notifier :=
     use_notifier g; bundle_ids := bundle_ids g; return_attrs :=
     return_attrs g; output_format := output_format g; opt_list_user :=
     opt_list_user g; opt_list_system := opt_list_system g; copy_path :=
     copy_path g; remove_after_copy := remove_after_copy g; skip_uninstall
     := skip_uninstall g; app_only := v; docs_only := docs_only g;
     debug_level := debug_level g |}.

Definition set_docs_only (g : globals) (v : Z) : globals :=
  {| udid := udid g; cmdarg := cmdarg g; extsinf := extsinf g; extmeta :=
     extmeta g; cmd := cmd g; use_network := use_network g; use_notifier :=
     use_notifier g; bundle_ids := bundle_ids g; return_attrs :=
     return_attrs g; output_format := output_format g; opt_list_user :=
     opt_list_user g; opt_list_system := opt_list_system g; copy_path :=
     copy_path g; remove_after_copy := remove_after_copy g; skip_uninstall
     := skip_uninstall g; app_only := app_only g; docs_only := v;
     debug_level := debug_level g |}.

Definition set_debug_level (g : globals) (v : Z) : globals :=
  {| udid := udid g; cmdarg := cmdarg g; extsinf := extsinf g; extmeta :=
     extmeta g; cmd := cmd g; use_network := use_network g; use_notifier :=
     use_notifier g; bundle_ids := bundle_ids g; return_attrs :=
     return_attrs g; output_format := output_format g; opt_list_user :=
     opt_list_user g; opt_list_system := opt_list_system g; copy_path :=
     copy_path g; remove_after_copy := remove_after_copy g; skip_uninstall
     := skip_uninstall g; app_only := app_only g; docs_only := docs_only g;
     debug_level := v |}.

(** A function that either returns or ends the program with [exit]. *)
Inductive exit_or (A : Type) : Type :=
| Returns (a : A)
| Exits (status : Z).

Arguments Returns {A} a.
Arguments Exits {A} status.

(** [plist_array_append_item] on an array that is created when NULL. *)
Definition append_item (array : option (list string)) (item : string)
  : option (list string) :=
  Some (match array with None => [] | Some items => items end ++ [item]).

(** The [switch (c)] of the option loop for one answer [c] of [getopt_long]
    with its [optarg]. *)
Definition option_case (g : globals) (c : Z) (optarg : string) : exit_or globals :=
  if c =? 104 (* 'h' *) then Exits 0
  else if c =? 117 (* 'u' *) then
    if String.eqb optarg EmptyString then Exits 2
    else Returns (set_udid g (Some optarg))
  else if c =? 110 (* 'n' *) then Returns (set_use_network g 1)
  else if c =? 97 (* 'a' *) then
    if String.eqb optarg EmptyString then Exits 2
    else Returns (set_return_attrs g (append_item (return_attrs g) optarg))
  else if c =? 98 (* 'b' *) then
    if String.eqb optarg EmptyString then Exits 2
    else Returns (set_bundle_ids g (append_item (bundle_ids g) optarg))
  else if c =? 115 (* 's' *) then
    if String.eqb optarg EmptyString then Exits 2
    else Returns (set_extsinf g (Some optarg))
  else if c =? 109 (* 'm' *) then
    if String.eqb optarg EmptyString then Exits 2
    else Returns (set_extmeta g (Some optarg))
  else if c =? 119 (* 'w' *) then Returns (set_use_notifier g 1)
  else if c =? 100 (* 'd' *) then Returns (set_debug_level g 1)
  else if c =? 118 (* 'v' *) then Exits 0
  else if c =? LIST_USER then Returns (set_opt_list_user g 1)
  else if c =? LIST_SYSTEM then Returns (set_opt_list_system g 1)
  else if c =? LIST_ALL then Returns (set_opt_list_system (set_opt_list_user g 1) 1)
  else if c =? OUTPUT_XML then Returns (set_output_format g FORMAT_XML)
  else if c =? OUTPUT_JSON then Returns (set_output_format g FORMAT_JSON)
  else if c =? ARCHIVE_UNINSTALL then Returns (set_skip_uninstall g 0)
  else if c =? ARCHIVE_APP_ONLY then Returns (set_docs_only (set_app_only g 1) 0)
  else if c =? ARCHIVE_DOCS_ONLY then Returns (set_app_only (set_docs_only g 1) 0)
  else if c =? ARCHIVE_COPY_PATH then Returns (set_copy_path g (Some optarg))
  else if c =? ARCHIVE_COPY_REMOVE then Returns (set_remove_after_copy g 1)
  else Exits 2.

(** [while (1) { c = getopt_long(...); if (c == -1) break; switch (c) ... }]
    over the answers of [getopt_long] in their order. *)
Fixpoint option_loop (answers : list (Z * string)) (g : globals) : exit_or globals :=
  match answers with
  | [] => Returns g
  | (c, optarg) :: rest =>
      if c =? -1 then Returns g
      else
        match option_case g c optarg with
        | Exits status => Exits status
        | Returns g1 => option_loop rest g1
        end
  end.

(** [cmd] after the chain of [strcmp]: unchanged when no name matches. *)
Definition command_of (cmdstr : string) (previous : cmd_mode) : cmd_mode :=
  if String.eqb cmdstr "list" then CMD_LIST_APPS
  else if String.eqb cmdstr "install" then CMD_INSTALL
  else if String.eqb cmdstr "upgrade" then CMD_UPGRADE
  else if String.eqb cmdstr "uninstall" || String.eqb cmdstr "remove"
  then CMD_UNINSTALL
  else if String.eqb cmdstr "archives" || String.eqb cmdstr "list-archives"
  then CMD_LIST_ARCHIVES
  else if String.eqb cmdstr "archive" then CMD_ARCHIVE
  else if String.eqb cmdstr "restore" then CMD_RESTORE
  else if String.eqb cmdstr "remove-archive" then CMD_REMOVE_ARCHIVE
  else previous.

(** [answers] are the answers of [getopt_long] before its -1, [args] the
    arguments from [argv + optind] on. *)
Definition parse_opts (answers : list (Z * string)) (args : list string)
  (g : globals) : exit_or globals :=
  match option_loop answers g with
  | Exits status => Exits status
  | Returns g1 =>
      match args with
      | [] => Exits 2
      | cmdstr :: rest =>
          let g2 := set_cmd g1 (command_of cmdstr (cmd g1)) in
          match cmd g2 with
          | CMD_LIST_APPS | CMD_LIST_ARCHIVES => Returns g2
          | CMD_INSTALL | CMD_UPGRADE
          | CMD_UNINSTALL | CMD_ARCHIVE | CMD_RESTORE | CMD_REMOVE_ARCHIVE =>
              match rest with
              | [] => Exits 2
              | arg :: _ => Returns (set_cmdarg g2 (Some arg))
              end
          | CMD_NONE => Exits 2
          end
      end
  end.

(** No option argument kept in the globals is the empty string. *)
Definition option_arguments_nonempty (g : globals) : Prop :=
  udid g <> Some EmptyString /\ extsinf g <> Some EmptyString
  /\ extmeta g <> Some EmptyString
  /\ (forall items, return_attrs g = Some items -> ~ In EmptyString items)
  /\ (forall items, bundle_ids g = Some items -> ~ In EmptyString items).

(** * Properties *)

(** ** stdio and byte lists *)

Lemma len_nonneg {A : Type} (l : list A) : 0 <= len l.
Proof. unfold len. lia. Qed.

Lemma len_app {A : Type} (l1 l2 : list A) : len (l1 ++ l2) = len l1 + len l2.
Proof. unfold len. rewrite length_app. lia. Qed.

Lemma len_firstn {A : Type} (n : nat) (l : list A) :
  len (firstn n l) = Z.min (Z.of_nat n) (len l).
Proof. unfold len. rewrite length_firstn. lia. Qed.

Lemma len_skipn {A : Type} (n : nat) (l : list A) :
  len (skipn n l) = Z.max 0 (len l - Z.of_nat n).
Proof. unfold len. rewrite length_skipn. lia. Qed.

Lemma len_slice (off n : Z) (l : list Z) :
  0 <= off -> 0 <= n -> off + n <= len l -> len (slice off n l) = n.
Proof.
  intros Ho Hn Hl. unfold slice. rewrite len_firstn, len_skipn. lia.
Qed.

Lemma remaining_inside (f : FILE) :
  0 <= fpos f < len (content f) ->
  remaining f = skipn (Z.to_nat (fpos f)) (content f).
Proof.
  intros H. unfold remaining.
  destruct (Z.leb_spec (len (content f)) (fpos f)); [lia | reflexivity].
Qed.

Lemma len_remaining (f : FILE) :
  0 <= fpos f -> len (remaining f) = Z.max 0 (len (content f) - fpos f).
Proof.
  intros H. unfold remaining.
  destruct (Z.leb_spec (len (content f)) (fpos f)).
  - change (len (@nil Z)) with 0. lia.
  - rewrite len_skipn. lia.
Qed.

(** What [fread] stores and where it leaves the file. *)
Lemma fread_inside (n : Z) (f : FILE) :
  0 <= fpos f < len (content f) -> 0 <= n ->
  fread n f =
    (firstn (Z.to_nat n) (skipn (Z.to_nat (fpos f)) (content f)),
     {| content := content f;
        fpos := fpos f + Z.min n (len (content f) - fpos f) |}).
Proof.
  intros Hpos Hn. unfold fread.
  rewrite (len_remaining f) by lia. rewrite remaining_inside by exact Hpos.
  set (l := skipn (Z.to_nat (fpos f)) (content f)).
  assert (Hl : len l = len (content f) - fpos f).
  { unfold l. rewrite len_skipn. lia. }
  assert (E : firstn (Z.to_nat (Z.min n (Z.max 0 (len (content f) - fpos f)))) l
              = firstn (Z.to_nat n) l).
  { destruct (Z.le_gt_cases n (len l)).
    - f_equal. lia.
    - rewrite !firstn_all2; [reflexivity | |]; unfold len in *; lia. }
  rewrite E. f_equal. f_equal. rewrite len_firstn. lia.
Qed.

Lemma fread_spec (n : Z) (f : FILE) :
  0 <= fpos f -> 0 <= n ->
  fread n f =
    (slice (fpos f) n (content f),
     {| content := content f;
        fpos := fpos f + Z.min n (Z.max 0 (len (content f) - fpos f)) |}).
Proof.
  intros Hpos Hn.
  destruct (Z.lt_ge_cases (fpos f) (len (content f))) as [Hin|Hout].
  - rewrite fread_inside by lia. unfold slice. f_equal. f_equal. lia.
  - unfold fread, remaining, slice.
    destruct (Z.leb_spec (len (content f)) (fpos f)); [|lia].
    rewrite (skipn_all2 (content f)) by (unfold len in *; lia).
    rewrite !firstn_nil. change (len (@nil Z)) with 0. f_equal. f_equal. lia.
Qed.

Lemma fread_advance (n : Z) (f f1 : FILE) (got : list Z) :
  fread n f = (got, f1) -> fpos f1 = fpos f + len got /\ content f1 = content f.
Proof. unfold fread. intros H. injection H as <- <-. split; reflexivity. Qed.

Lemma fseek_set_nonneg (f : FILE) (off : Z) :
  0 <= off -> fseek_set f off = {| content := content f; fpos := off |}.
Proof.
  intros H. unfold fseek_set. destruct (Z.ltb_spec off 0); [lia | reflexivity].
Qed.

Lemma word32_at_chunk (l : list Z) (pos m j : Z) :
  0 <= pos -> 0 <= j -> j + 4 <= m ->
  word32_at (firstn (Z.to_nat m) (skipn (Z.to_nat pos) l)) j = word32_at l (pos + j).
Proof.
  intros Hpos Hj Hm. unfold word32_at, slice. f_equal.
  rewrite skipn_firstn_comm, firstn_firstn, skipn_skipn.
  replace (Nat.min (Z.to_nat 4) (Z.to_nat m - Z.to_nat j)) with (Z.to_nat 4) by lia.
  replace (Z.to_nat j + Z.to_nat pos)%nat with (Z.to_nat (pos + j)) by lia.
  reflexivity.
Qed.

(** ** SignatureScanner: [r_zip_skip_until_next_entry] *)

Lemma is_signature_false (w : Z) :
  is_signature w = false ->
  (w =? LOCAL_HEADER_SIGNATURE) = false /\ is_terminal_signature w = false.
Proof. unfold is_signature. intros H. apply orb_false_iff in H. exact H. Qed.

Lemma size_t_small (r : Z) : 3 <= r <= BUFFER_SIZE -> (r - 3) mod SIZE_T_MOD = r - 3.
Proof. intros H. apply Z.mod_small. unfold SIZE_T_MOD, BUFFER_SIZE in *. lia. Qed.

(** Within a chunk the loop stops at the first signature word. *)
Lemma scan_chunk_found (buffer : list Z) (k : Z) :
  len buffer <= BUFFER_SIZE -> k + 4 <= len buffer ->
  word32_at buffer k = LOCAL_HEADER_SIGNATURE ->
  forall (n : nat) (i : Z),
    0 <= i <= k -> k - i < Z.of_nat n ->
    (forall j, i <= j < k -> is_signature (word32_at buffer j) = false) ->
    scan_chunk n buffer (len buffer) i = ChunkFound k.
Proof.
  intros Hsz Hk Hw. induction n as [|n IH]; intros i Hi Hn Hno; [lia|].
  cbn [scan_chunk]. rewrite size_t_small by lia.
  destruct (Z.ltb_spec i (len buffer - 3)); [|lia].
  destruct (Z.leb_spec (i + 4) (len buffer)); [|lia].
  destruct (Z.eq_dec i k) as [->|Hne].
  - rewrite Hw, Z.eqb_refl. reflexivity.
  - destruct (is_signature_false _ (Hno i ltac:(lia))) as [H1 H2].
    rewrite H1, H2. apply IH; [lia | lia | intros; apply Hno; lia].
Qed.

(** A chunk without a signature word is scanned to the loop bound. *)
Lemma scan_chunk_exhausted (buffer : list Z) :
  3 <= len buffer <= BUFFER_SIZE ->
  forall (n : nat) (i : Z),
    0 <= i <= len buffer - 3 -> len buffer - 3 - i < Z.of_nat n ->
    (forall j, i <= j <= len buffer - 4 -> is_signature (word32_at buffer j) = false) ->
    scan_chunk n buffer (len buffer) i = ChunkExhausted.
Proof.
  intros Hsz. induction n as [|n IH]; intros i Hi Hn Hno; [lia|].
  cbn [scan_chunk]. rewrite size_t_small by lia.
  destruct (Z.ltb_spec i (len buffer - 3)); [|reflexivity].
  destruct (Z.leb_spec (i + 4) (len buffer)); [|lia].
  destruct (is_signature_false _ (Hno i ltac:(lia))) as [H1 H2].
  rewrite H1, H2. apply IH; [lia | lia | intros; apply Hno; lia].
Qed.

(** When a read stores three bytes or more, every word that the loop
    examines lies within the bytes read. *)
Lemma scan_chunk_in_range (buffer : list Z) :
  3 <= len buffer <= BUFFER_SIZE ->
  forall (n : nat) (i j : Z),
    0 <= i <= len buffer - 3 -> len buffer - 3 - i < Z.of_nat n ->
    scan_chunk n buffer (len buffer) i <> ChunkOverread j.
Proof.
  intros Hsz. induction n as [|n IH]; intros i j Hi Hn; [lia|].
  cbn [scan_chunk]. rewrite size_t_small by lia.
  destruct (Z.ltb_spec i (len buffer - 3)); [|discriminate].
  destruct (Z.leb_spec (i + 4) (len buffer)); [|lia].
  destruct (word32_at buffer i =? LOCAL_HEADER_SIGNATURE); [discriminate|].
  destruct (is_terminal_signature (word32_at buffer i)); [discriminate|].
  apply IH; lia.
Qed.

(** The recursion bound of [scan_chunk] is never what ends the loop. *)
Lemma scan_chunk_bound_irrelevant (buffer : list Z) (n : nat) :
  forall (m : nat) (i : Z),
    0 <= i <= len buffer ->
    len buffer - i < Z.of_nat n -> len buffer - i < Z.of_nat m ->
    scan_chunk n buffer (len buffer) i = scan_chunk m buffer (len buffer) i.
Proof.
  induction n as [|n IH]; intros m i Hi Hn Hm; [lia|].
  destruct m as [|m]; [lia|]. cbn [scan_chunk].
  destruct (i <? (len buffer - 3) mod SIZE_T_MOD); [|reflexivity].
  destruct (Z.leb_spec (i + 4) (len buffer)); [|reflexivity].
  destruct (word32_at buffer i =? LOCAL_HEADER_SIGNATURE); [reflexivity|].
  destruct (is_terminal_signature (word32_at buffer i)); [reflexivity|].
  apply IH; lia.
Qed.

(** The scan returns the first local header signature at or after the
    current position when no terminal signature comes before it, whatever
    its alignment with the 4096-byte chunks: a chunk that is exhausted moves
    the stream on by [read_size - 3] bytes only. *)
Lemma scan_finds_first (fuel : nat) :
  forall (zp : ZipParser) (off : Z),
    0 <= fpos (fp zp) <= off ->
    off + 4 <= len (content (fp zp)) ->
    word32_at (content (fp zp)) off = LOCAL_HEADER_SIGNATURE ->
    (forall j, fpos (fp zp) <= j < off ->
               is_signature (word32_at (content (fp zp)) j) = false) ->
    off - fpos (fp zp) < 4093 * Z.of_nat fuel ->
    exists f', content f' = content (fp zp) /\
      r_zip_skip_until_next_entry fuel zp =
        Ret (1, with_header_start (with_fp zp f') off).
Proof.
  induction fuel as [|fuel IH]; intros zp off Hpos Hoff Hw Hno Hfuel; [lia|].
  cbn [r_zip_skip_until_next_entry]. unfold ftell.
  rewrite fread_inside by (unfold BUFFER_SIZE; lia).
  set (buffer := firstn (Z.to_nat BUFFER_SIZE)
                   (skipn (Z.to_nat (fpos (fp zp))) (content (fp zp)))).
  assert (Hlen : len buffer = Z.min BUFFER_SIZE (len (content (fp zp)) - fpos (fp zp))).
  { unfold buffer. rewrite len_firstn, len_skipn. unfold BUFFER_SIZE. lia. }
  assert (Hword : forall j, 0 <= j -> j + 4 <= len buffer ->
            word32_at buffer j = word32_at (content (fp zp)) (fpos (fp zp) + j)).
  { intros j Hj Hj4. unfold buffer. apply word32_at_chunk; lia. }
  destruct (Z.eqb_spec (len buffer) 0) as [E0|_]; [unfold BUFFER_SIZE in *; lia|].
  destruct (Z.le_gt_cases (off - fpos (fp zp) + 4) (len buffer)) as [Hin|Hout].
  - rewrite (scan_chunk_found buffer (off - fpos (fp zp))).
    + eexists. split; [|f_equal; f_equal; f_equal; lia]. reflexivity.
    + unfold BUFFER_SIZE in *; lia.
    + exact Hin.
    + rewrite Hword by lia. rewrite <- Hw. f_equal. lia.
    + lia.
    + unfold len in *. lia.
    + intros j Hj. rewrite Hword by lia. apply Hno. lia.
  - assert (Hfull : len buffer = BUFFER_SIZE) by (unfold BUFFER_SIZE in *; lia).
    rewrite (scan_chunk_exhausted buffer).
    + rewrite Hfull, fseek_set_nonneg by (unfold BUFFER_SIZE; lia).
      cbn [content].
      destruct (IH (with_fp zp {| content := content (fp zp);
                                  fpos := fpos (fp zp) + BUFFER_SIZE - 3 |}) off)
        as [f' [Hc Hr]]; cbn [fp with_fp content fpos];
        try (unfold BUFFER_SIZE in *; lia); try assumption.
      * intros j Hj. apply Hno. unfold BUFFER_SIZE in *. lia.
      * exists f'. split; [exact Hc | rewrite Hr; reflexivity].
    + unfold BUFFER_SIZE in *; lia.
    + unfold BUFFER_SIZE in *; lia.
    + unfold len in *. lia.
    + intros j Hj. rewrite Hword by lia. apply Hno. unfold BUFFER_SIZE in *. lia.
Qed.

Lemma first_header_at_spec (archive : list Z) (pos off : Z) :
  first_header_at archive pos off = true ->
  off + 4 <= len archive /\
  word32_at archive off = LOCAL_HEADER_SIGNATURE /\
  (forall j, pos <= j < off -> is_signature (word32_at archive j) = false).
Proof.
  unfold first_header_at. intros H.
  apply andb_true_iff in H. destruct H as [H Hall].
  apply andb_true_iff in H. destruct H as [Hlen Hw].
  split; [lia|]. split; [lia|].
  intros j Hj. rewrite forallb_forall in Hall.
  specialize (Hall (Z.to_nat (j - pos))).
  replace (pos + Z.of_nat (Z.to_nat (j - pos))) with j in Hall by lia.
  apply negb_true_iff. apply Hall. apply in_seq. lia.
Qed.

(** C6. SignatureScanner: when a local file header signature begins at
    offset [off] at or after the current position, and it is the first
    signature from there, the scan returns 1 (Found) with [header_start]
    equal to [off], at every alignment of [off] with the 4096-byte chunks
    and so also when the four bytes lie across a chunk boundary: an
    exhausted chunk moves the stream to [start + read_size - 3]. *)
Theorem signature_scanner_finds_header :
  forall (fuel : nat) (zp : ZipParser) (off : Z),
    0 <= fpos (fp zp) <= off ->
    first_header_at (content (fp zp)) (fpos (fp zp)) off = true ->
    off - fpos (fp zp) < 4093 * Z.of_nat fuel ->
    exists zp', r_zip_skip_until_next_entry fuel zp = Ret (1, zp')
                /\ header_start zp' = off.
Proof.
  intros fuel zp off Hpos Hfirst Hfuel.
  destruct (first_header_at_spec _ _ _ Hfirst) as [Hlen [Hw Hno]].
  destruct (scan_finds_first fuel zp off Hpos Hlen Hw Hno Hfuel) as [f' [_ Hr]].
  eexists. split; [exact Hr | reflexivity].
Qed.

(** The headers whose signatures start at the offsets 4093, 4094 and 4095
    of the first chunk, with one, two and three bytes in the second chunk,
    are found. *)
Lemma signature_scanner_finds_header_witness :
  (exists zp', r_zip_skip_until_next_entry 2 (r_zip_open (archive_straddling 4093))
               = Ret (1, zp') /\ header_start zp' = 4093)
  /\ (exists zp', r_zip_skip_until_next_entry 2 (r_zip_open (archive_straddling 4094))
                  = Ret (1, zp') /\ header_start zp' = 4094)
  /\ (exists zp', r_zip_skip_until_next_entry 2 (r_zip_open (archive_straddling 4095))
                  = Ret (1, zp') /\ header_start zp' = 4095).
Proof.
  split; [|split].
  - apply (signature_scanner_finds_header 2 (r_zip_open (archive_straddling 4093)) 4093).
    + cbn [fpos fp r_zip_open]. lia.
    + vm_compute. reflexivity.
    + vm_compute. reflexivity.
  - apply (signature_scanner_finds_header 2 (r_zip_open (archive_straddling 4094)) 4094).
    + cbn [fpos fp r_zip_open]. lia.
    + vm_compute. reflexivity.
    + vm_compute. reflexivity.
  - apply (signature_scanner_finds_header 2 (r_zip_open (archive_straddling 4095)) 4095).
    + cbn [fpos fp r_zip_open]. lia.
    + vm_compute. reflexivity.
    + vm_compute. reflexivity.
Defined.

(** With one or two bytes left the loop bound wraps and the first word
    examined is not within the bytes read. *)
Lemma scan_overreads_short_tail (fuel : nat) (zp : ZipParser) :
  0 <= fpos (fp zp) ->
  1 <= len (content (fp zp)) - fpos (fp zp) <= 2 ->
  r_zip_skip_until_next_entry (S fuel) zp = Undefined BufferOverread.
Proof.
  intros Hpos Htail. cbn [r_zip_skip_until_next_entry].
  rewrite fread_inside by (unfold BUFFER_SIZE; lia).
  set (buffer := firstn (Z.to_nat BUFFER_SIZE)
                   (skipn (Z.to_nat (fpos (fp zp))) (content (fp zp)))).
  assert (Hlen : len buffer = len (content (fp zp)) - fpos (fp zp)).
  { unfold buffer. rewrite len_firstn, len_skipn. unfold BUFFER_SIZE. lia. }
  destruct (Z.eqb_spec (len buffer) 0); [lia|].
  cbn [scan_chunk].
  assert (Hwrap : 0 < (len buffer - 3) mod SIZE_T_MOD).
  { unfold SIZE_T_MOD.
    replace (len buffer - 3) with ((len buffer - 3 + 2 ^ 64) + (-1) * 2 ^ 64) by lia.
    rewrite Z.mod_add by lia. rewrite Z.mod_small; lia. }
  destruct (Z.ltb_spec 0 ((len buffer - 3) mod SIZE_T_MOD)); [|lia].
  destruct (Z.leb_spec (0 + 4) (len buffer)); [lia|reflexivity].
Qed.

(** With three bytes left the loop body does not run, the stream is put
    back to the start of the chunk and the scan does not return. *)
Lemma scan_hangs_on_three_bytes (fuel : nat) :
  forall zp : ZipParser,
    0 <= fpos (fp zp) ->
    len (content (fp zp)) - fpos (fp zp) = 3 ->
    r_zip_skip_until_next_entry fuel zp = OutOfFuel.
Proof.
  induction fuel as [|fuel IH]; intros zp Hpos Htail; [reflexivity|].
  cbn [r_zip_skip_until_next_entry].
  rewrite fread_inside by (unfold BUFFER_SIZE; lia).
  set (buffer := firstn (Z.to_nat BUFFER_SIZE)
                   (skipn (Z.to_nat (fpos (fp zp))) (content (fp zp)))).
  assert (Hlen : len buffer = 3).
  { unfold buffer. rewrite len_firstn, len_skipn. unfold BUFFER_SIZE. lia. }
  rewrite Hlen. cbn [Z.eqb scan_chunk].
  change ((3 - 3) mod SIZE_T_MOD) with 0. cbn [Z.ltb Z.compare].
  unfold ftell. rewrite fseek_set_nonneg by lia.
  apply IH; cbn [fp with_fp fpos content]; lia.
Qed.

(** C7. SignatureScanner on a read of fewer than four bytes.  The loop bound
    [read_size - 3] is computed on [size_t]: with one or two bytes left it
    wraps, the loop body runs and examines the word at offset 0, which is
    not within the bytes read; with three bytes left the bound is 0, the
    stream is put back to where the chunk started and the scan does not
    return.  Only a read of zero bytes returns 0 (EndOfEntries). *)
Theorem signature_scanner_short_read :
  (forall fuel, r_zip_skip_until_next_entry (S fuel) (r_zip_open [80])
                = Undefined BufferOverread) /\
  (forall fuel, r_zip_skip_until_next_entry (S fuel) (r_zip_open [80; 75])
                = Undefined BufferOverread) /\
  (forall fuel, r_zip_skip_until_next_entry fuel (r_zip_open [80; 75; 3])
                = OutOfFuel) /\
  (forall fuel, exists zp, r_zip_skip_until_next_entry (S fuel) (r_zip_open [])
                           = Ret (0, zp)).
Proof.
  split; [|split; [|split]].
  - intros fuel. reflexivity.
  - intros fuel. reflexivity.
  - intros fuel. induction fuel as [|fuel IH]; [reflexivity | exact IH].
  - intros fuel. eexists. reflexivity.
Qed.

(** ** EntryHeaderReader: the header part of [r_zip_get_next_entry] *)

(** [read_local_header] seeks to [header_start] first: the position of the
    stream before the call does not matter. *)
Lemma read_local_header_seeks (zp : ZipParser) (f f' : FILE) :
  0 <= header_start zp -> content f = content f' ->
  read_local_header (with_fp zp f) = read_local_header (with_fp zp f').
Proof.
  intros Hh Hc. unfold read_local_header. cbn [fp with_fp header_start].
  rewrite !fseek_set_nonneg by exact Hh. rewrite Hc. reflexivity.
Qed.

(** An entry that [read_local_header] accepts leaves the stream at the
    start of its payload. *)
Lemma read_local_header_at_payload (zp zp1 : ZipParser) :
  read_local_header zp = Ret (1, zp1) -> fpos (fp zp1) = data_start zp1.
Proof.
  unfold read_local_header.
  destruct (fread SIZEOF_LFH (fseek_set (fp zp) (header_start zp))) as [raw f1].
  destruct (negb (len raw =? SIZEOF_LFH)); [discriminate|].
  destruct (negb (lfh_signature (decode_lfh raw) =? LOCAL_HEADER_SIGNATURE));
    [discriminate|].
  destruct (fread (lfh_name_length (decode_lfh raw)) f1) as [name f2].
  destruct (SIZEOF_FILENAME <=? lfh_name_length (decode_lfh raw)); [discriminate|].
  match goal with
  | |- (if ?c then _ else _) = _ -> _ => destruct c; [discriminate|]
  end.
  intros H. injection H as <-. reflexivity.
Qed.

(** For a header at [header_start] whose name-length field is at most 255
    and whose name lies within the archive, [read_local_header] stores the
    [name_length] bytes that follow the 30 header bytes at the head of
    [filename], terminates them, and records as payload start the offset
    behind the name and the [extra_length] bytes of the extra field. *)
Lemma read_local_header_within_limit (zp : ZipParser) :
  let h := header_start zp in
  let lfh := decode_lfh (slice h SIZEOF_LFH (content (fp zp))) in
  let nl := lfh_name_length lfh in
  0 <= h ->
  0 <= nl < SIZEOF_FILENAME ->
  0 <= lfh_extra_length lfh ->
  h + SIZEOF_LFH + nl <= len (content (fp zp)) ->
  lfh_signature lfh = LOCAL_HEADER_SIGNATURE ->
  length (filename zp) = Z.to_nat SIZEOF_FILENAME ->
  exists r zp1,
    read_local_header zp = Ret (r, zp1)
    /\ firstn (Z.to_nat nl) (filename zp1)
       = slice (h + SIZEOF_LFH) nl (content (fp zp))
    /\ nth (Z.to_nat nl) (filename zp1) 1 = 0
    /\ name_length zp1 = nl
    /\ data_start zp1 = h + SIZEOF_LFH + nl + lfh_extra_length lfh.
Proof.
  intros h lfh nl Hh Hnl Hel Hin Hsig Hbuf.
  unfold read_local_header. fold h.
  rewrite fseek_set_nonneg by exact Hh.
  rewrite fread_spec by (cbn [fpos]; unfold SIZEOF_LFH; lia).
  cbn [fpos content]. fold lfh.
  rewrite len_slice by (unfold SIZEOF_LFH in *; lia).
  rewrite Z.eqb_refl. cbn [negb]. fold lfh. rewrite Hsig, Z.eqb_refl. cbn [negb].
  fold nl.
  rewrite fread_spec by (cbn [fpos]; unfold SIZEOF_LFH in *; lia).
  cbn [fpos content].
  replace (h + Z.min SIZEOF_LFH (Z.max 0 (len (content (fp zp)) - h)))
    with (h + SIZEOF_LFH) by (unfold SIZEOF_LFH in *; lia).
  destruct (Z.leb_spec SIZEOF_FILENAME nl); [lia|].
  set (name := slice (h + SIZEOF_LFH) nl (content (fp zp))).
  assert (Hname : length name = Z.to_nat nl).
  { assert (Hl : len name = nl)
      by (apply len_slice; unfold SIZEOF_LFH in *; lia).
    unfold len in Hl. lia. }
  assert (Hstored : firstn (Z.to_nat nl) (store_bytes (filename zp) name) = name).
  { unfold store_bytes. rewrite <- Hname. rewrite firstn_app, Nat.sub_diag.
    rewrite firstn_all. cbn [firstn]. apply app_nil_r. }
  assert (Hlen : length (store_bytes (filename zp) name) = Z.to_nat SIZEOF_FILENAME).
  { unfold store_bytes. rewrite length_app, length_skipn, Hbuf, Hname.
    unfold SIZEOF_FILENAME in *. lia. }
  match goal with
  | |- exists r zp1, (if ?c then _ else _) = _ /\ _ =>
      exists (if c then 0 else 1)
  end.
  eexists. split; [destruct (_ && _); reflexivity|].
  cbn [filename name_length data_start].
  unfold store_byte, fseek_cur, ftell. cbn [fpos].
  rewrite fseek_set_nonneg by (unfold SIZEOF_LFH in *; lia). cbn [fpos].
  assert (Hfl : length (firstn (Z.to_nat nl) (store_bytes (filename zp) name))
                = Z.to_nat nl).
  { rewrite length_firstn, Hlen. unfold SIZEOF_FILENAME in *. lia. }
  split.
  - rewrite firstn_app, Hfl, Nat.sub_diag, firstn_firstn, Nat.min_id.
    cbn [firstn]. rewrite app_nil_r. exact Hstored.
  - split.
    + rewrite app_nth2 by lia. rewrite Hfl, Nat.sub_diag. reflexivity.
    + split; [reflexivity|]. unfold SIZEOF_LFH in *. lia.
Qed.

(** A header whose name-length field is 256 or more makes
    [read_local_header] write outside of [filename]. *)
Lemma read_local_header_name_too_long (zp : ZipParser) :
  let h := header_start zp in
  let lfh := decode_lfh (slice h SIZEOF_LFH (content (fp zp))) in
  0 <= h ->
  h + SIZEOF_LFH <= len (content (fp zp)) ->
  lfh_signature lfh = LOCAL_HEADER_SIGNATURE ->
  SIZEOF_FILENAME <= lfh_name_length lfh ->
  read_local_header zp = Undefined BufferOverrun.
Proof.
  intros h lfh Hh Hin Hsig Hnl.
  unfold read_local_header. fold h.
  rewrite fseek_set_nonneg by exact Hh.
  rewrite fread_spec by (cbn [fpos]; unfold SIZEOF_LFH; lia).
  cbn [fpos content]. fold lfh.
  rewrite len_slice by (unfold SIZEOF_LFH in *; lia).
  rewrite Z.eqb_refl. cbn [negb]. fold lfh. rewrite Hsig, Z.eqb_refl. cbn [negb].
  destruct (fread (lfh_name_length lfh) _) as [name f2].
  destruct (Z.leb_spec SIZEOF_FILENAME (lfh_name_length lfh)); [reflexivity | lia].
Qed.

(** C2. EntryHeaderReader and the 256-byte [filename] array.  The source
    has no check of the name length: it reads [name_length] bytes into
    [filename[256]] and stores the terminator at [filename[name_length]].
    A header whose name-length field is 300, or 256, makes it write outside
    of the array instead of failing; 255 is the longest name it holds, and
    for it the payload starts after the 30 header bytes and the 255 name
    bytes. *)
Theorem long_name_overruns_filename :
  forall (zl : Inflater) (fuel : nat),
    r_zip_get_next_entry zl (S fuel) (r_zip_open (archive_with_name_length 300))
      = Undefined BufferOverrun
    /\ r_zip_get_next_entry zl (S fuel) (r_zip_open (archive_with_name_length 256))
      = Undefined BufferOverrun
    /\ exists zp, r_zip_get_next_entry zl (S fuel)
                    (r_zip_open (archive_with_name_length 255)) = Ret (1, zp)
                  /\ cstr (filename zp) = repeat 65 255
                  /\ data_start zp = 30 + 255.
Proof.
  intros zl fuel. split; [vm_compute; reflexivity|].
  split; [vm_compute; reflexivity|].
  eexists. split; [vm_compute; reflexivity|]. split; vm_compute; reflexivity.
Qed.

(** C4. Sizes recorded for an entry with the data-descriptor bit and a zero
    compressed size.  The source sets [comp_size] to 0 and does not touch
    [uncomp_size].  In [archive_store_then_deferred] the stored entry [a]
    (2 bytes) is read and extracted with [r_extract_current], as the upload
    loop of [main] does, so it is consumed and the next call does not reset
    the state: the deferred entry [b] is then recorded with [comp_size] 0
    and the [uncomp_size] 2 of [a].  When [a] is not consumed the next call
    closes it, which resets the state, and [b] gets [uncomp_size] 0. *)
Theorem deferred_entry_keeps_previous_uncomp_size :
  exists zp1 zp2 dev zp3,
    r_zip_get_next_entry StoredDeflate.inflater 1 (r_zip_open archive_store_then_deferred)
      = Ret (1, zp1)
    /\ uncomp_size zp1 = 2
    /\ r_extract_current StoredDeflate.inflater accepting_device 1 zp1 []
      = Ret (1, zp2, dev, None)
    /\ consumed zp2 = true
    /\ r_zip_get_next_entry StoredDeflate.inflater 1 zp2 = Ret (1, zp3)
    /\ cstr (filename zp3) = chars "b"
    /\ Z.land (flags zp3) FLAG_DATA_DESCRIPTOR = FLAG_DATA_DESCRIPTOR
    /\ comp_size zp3 = 0
    /\ uncomp_size zp3 = 2
    /\ exists zp3', r_zip_get_next_entry StoredDeflate.inflater 1 zp1 = Ret (1, zp3')
                    /\ cstr (filename zp3') = chars "b"
                    /\ comp_size zp3' = 0 /\ uncomp_size zp3' = 0.
Proof.
  do 4 eexists.
  split; [vm_compute; reflexivity|]. split; [reflexivity|].
  split; [vm_compute; reflexivity|]. split; [reflexivity|].
  split; [vm_compute; reflexivity|].
  split; [vm_compute; reflexivity|]. split; [reflexivity|].
  split; [reflexivity|]. split; [reflexivity|].
  eexists. split; [vm_compute; reflexivity|].
  split; [vm_compute; reflexivity|]. split; reflexivity.
Qed.

(** C5. Store entries with deferred sizes.  The source rejects a store entry
    when its flags word is equal to 0x08, not when the data-descriptor bit
    is set in it.  The store entry of [archive_store_descriptor_utf8] has
    flags 0x0808 and deferred sizes: it is accepted (the call returns 1) with
    a compressed size of 0, and extracting it succeeds without copying a
    byte of its payload.  With flags 0x08 alone the same entry is refused. *)
Theorem store_descriptor_rejected_on_exact_flags_only :
  (exists zp1,
     r_zip_get_next_entry StoredDeflate.inflater 1
       (r_zip_open archive_store_descriptor_utf8) = Ret (1, zp1)
     /\ compression zp1 = COMPRESSION_STORE
     /\ Z.land (flags zp1) FLAG_DATA_DESCRIPTOR = FLAG_DATA_DESCRIPTOR
     /\ comp_size zp1 = 0
     /\ exists zp2,
          r_extract_current StoredDeflate.inflater accepting_device 1 zp1 []
            = Ret (1, zp2, [], None))
  /\ (exists zp1,
        r_zip_get_next_entry StoredDeflate.inflater 1
          (r_zip_open archive_store_descriptor) = Ret (0, zp1)).
Proof.
  split.
  - eexists. split; [vm_compute; reflexivity|].
    split; [reflexivity|]. split; [reflexivity|]. split; [reflexivity|].
    eexists. vm_compute. reflexivity.
  - eexists. vm_compute. reflexivity.
Qed.

Section ReaderProperties.

Variable zlib : Inflater.
Variable afc : Device.

(** ** EntryDecoder: [r_close_entry], [r_extract_current], [r_extract_to_buffer] *)

(** zlib's count of consumed bytes grows by what leaves [next_in]. *)
Lemma inflate_total_in (strm strm1 : z_stream zlib) (out : list Z) (ret : Z) :
  inflate strm = (strm1, out, ret) ->
  total_in strm1 + avail_in strm1 = total_in strm + avail_in strm.
Proof.
  unfold inflate.
  destruct (inflate_step zlib (internal strm) (next_in strm) (avail_out strm))
    as [[[st n] produced] code].
  intros H. injection H as <- _ _. unfold avail_in. cbn. lia.
Qed.

Lemma inflate_total_in_mono (strm strm1 : z_stream zlib) (out : list Z) (ret : Z) :
  inflate strm = (strm1, out, ret) -> total_in strm <= total_in strm1.
Proof.
  unfold inflate.
  destruct (inflate_step zlib (internal strm) (next_in strm) (avail_out strm))
    as [[[st n] produced] code].
  intros H. injection H as <- _ _. cbn [total_in]. rewrite len_skipn.
  pose proof (len_nonneg (next_in strm)). lia.
Qed.

Lemma close_inflate_chunk_total_in (fuel : nat) :
  forall (strm strm1 : z_stream zlib) (ret : Z),
    close_inflate_chunk zlib fuel strm = Ret (strm1, ret) ->
    total_in strm1 + avail_in strm1 = total_in strm + avail_in strm.
Proof.
  induction fuel as [|fuel IH]; intros strm strm1 ret H; [discriminate|].
  cbn [close_inflate_chunk] in H.
  destruct (inflate (set_output strm BUFFER_SIZE)) as [[s out] code] eqn:E.
  apply inflate_total_in in E.
  change (total_in (set_output strm BUFFER_SIZE)) with (total_in strm) in E.
  change (avail_in (set_output strm BUFFER_SIZE)) with (avail_in strm) in E.
  destruct (code =? Z_STREAM_ERROR).
  - injection H as <- _. exact E.
  - destruct (avail_out s =? 0).
    + apply IH in H. lia.
    + injection H as <- _. exact E.
Qed.

(** The count that [r_close_entry] keeps is zlib's count, and the loop
    reads the archive only. *)
Lemma close_inflate_total_in (fuel : nat) :
  forall (f f1 : FILE) (strm strm1 : z_stream zlib) (t t1 : Z),
    close_inflate zlib fuel f strm t = Ret (f1, t1, strm1) ->
    t1 - t = total_in strm1 - total_in strm /\ content f1 = content f.
Proof.
  induction fuel as [|fuel IH]; intros f f1 strm strm1 t t1 H; [discriminate|].
  cbn [close_inflate] in H.
  destruct (fread BUFFER_SIZE f) as [input f0] eqn:Er.
  assert (Hc : content f0 = content f).
  { unfold fread in Er. injection Er as _ <-. reflexivity. }
  destruct (close_inflate_chunk zlib fuel (set_input strm input)) as [[s code]| |] eqn:E;
    cbn [bind] in H; try discriminate.
  apply close_inflate_chunk_total_in in E.
  change (total_in (set_input strm input)) with (total_in strm) in E.
  change (avail_in (set_input strm input)) with (len input) in E.
  destruct (code =? Z_STREAM_END).
  - injection H as <- <- <-. split; [lia | exact Hc].
  - apply IH in H. destruct H as [H1 H2]. split; [lia | congruence].
Qed.

Lemma store_copy_done (fuel : nat) :
  forall (f f1 : FILE) (dev dev1 : device_state afc) (size total_written done : Z),
    store_copy afc fuel f dev size total_written = Ret (done, f1, dev1) ->
    done = 0 \/ done = 1.
Proof.
  induction fuel as [|fuel IH]; intros f f1 dev dev1 size tw done H;
    cbn [store_copy] in H; destruct (tw <? size);
    try discriminate; try (injection H as <- _ _; right; reflexivity).
  destruct (fread _ f) as [buffer f0].
  destruct (negb (len buffer =? _)); [injection H as <- _ _; left; reflexivity|].
  destruct (afc_file_write afc dev buffer) as [[dev0 err] bytes_written].
  destruct (negb (err =? AFC_E_SUCCESS)); [injection H as <- _ _; left; reflexivity|].
  destruct (negb (bytes_written =? len buffer));
    [injection H as <- _ _; left; reflexivity|].
  apply IH in H. exact H.
Qed.

(** The store branch, when it runs to its end, has read exactly the
    bytes that were left to copy. *)
Lemma store_copy_position (fuel : nat) :
  forall (f f1 : FILE) (dev dev1 : device_state afc) (size total_written : Z),
    total_written <= size ->
    store_copy afc fuel f dev size total_written = Ret (1, f1, dev1) ->
    fpos f1 = fpos f + (size - total_written) /\ content f1 = content f.
Proof.
  induction fuel as [|fuel IH]; intros f f1 dev dev1 size tw Hle H.
  - cbn [store_copy] in H. destruct (Z.ltb_spec tw size); [discriminate|].
    injection H as <- _. split; [lia | reflexivity].
  - cbn [store_copy] in H. destruct (Z.ltb_spec tw size) as [Hlt|Hge].
    + set (to_read := if size - tw <? 4096 then (size - tw) mod UINT32_MOD else 4096) in H.
      assert (Hto : 0 < to_read <= size - tw).
      { unfold to_read. destruct (Z.ltb_spec (size - tw) 4096).
        - rewrite Z.mod_small by (unfold UINT32_MOD; lia). lia.
        - lia. }
      destruct (fread to_read f) as [buffer f0] eqn:Er.
      apply fread_advance in Er. destruct Er as [Hp Hc].
      destruct (Z.eqb_spec (len buffer) to_read) as [Eb|]; cbn [negb] in H;
        [|discriminate].
      destruct (afc_file_write afc dev buffer) as [[dev0 err] bytes_written].
      destruct (err =? AFC_E_SUCCESS); cbn [negb] in H; [|discriminate].
      destruct (Z.eqb_spec bytes_written (len buffer)) as [Ew|]; cbn [negb] in H;
        [|discriminate].
      apply IH in H; [|lia]. destruct H as [H1 H2]. split; [lia | congruence].
    + injection H as <- _. split; [lia | reflexivity].
Qed.

Lemma extract_inflate_chunk_total_in (fuel : nat) :
  forall (strm strm1 : z_stream zlib) (dev dev1 : device_state afc) (ret : Z),
    extract_inflate_chunk zlib afc fuel strm dev = Ret (inr (strm1, ret, dev1)) ->
    total_in strm1 + avail_in strm1 = total_in strm + avail_in strm.
Proof.
  induction fuel as [|fuel IH]; intros strm strm1 dev dev1 ret H; [discriminate|].
  cbn [extract_inflate_chunk] in H.
  destruct (inflate (set_output strm 4096)) as [[s out] code] eqn:E.
  apply inflate_total_in in E.
  change (total_in (set_output strm 4096)) with (total_in strm) in E.
  change (avail_in (set_output strm 4096)) with (avail_in strm) in E.
  destruct (code =? Z_STREAM_ERROR).
  - injection H as <- _ _. exact E.
  - destruct (afc_file_write afc dev out) as [[dev0 err] written].
    destruct (negb (err =? AFC_E_SUCCESS)); [discriminate|].
    destruct (negb (written =? (4096 - avail_out s) mod UINT32_MOD)); [discriminate|].
    destruct (avail_out s =? 0).
    + apply IH in H. lia.
    + injection H as <- _ _. exact E.
Qed.

Lemma extract_inflate_chunk_mono (fuel : nat) :
  forall (strm strm1 : z_stream zlib) (dev dev1 : device_state afc) (ret : Z),
    extract_inflate_chunk zlib afc fuel strm dev = Ret (inr (strm1, ret, dev1)) ->
    total_in strm <= total_in strm1.
Proof.
  induction fuel as [|fuel IH]; intros strm strm1 dev dev1 ret H; [discriminate|].
  cbn [extract_inflate_chunk] in H.
  destruct (inflate (set_output strm 4096)) as [[s out] code] eqn:E.
  apply inflate_total_in_mono in E.
  change (total_in (set_output strm 4096)) with (total_in strm) in E.
  destruct (code =? Z_STREAM_ERROR).
  - injection H as <- _ _. exact E.
  - destruct (afc_file_write afc dev out) as [[dev0 err] written].
    destruct (negb (err =? AFC_E_SUCCESS)); [discriminate|].
    destruct (negb (written =? (4096 - avail_out s) mod UINT32_MOD)); [discriminate|].
    destruct (avail_out s =? 0).
    + apply IH in H. lia.
    + injection H as <- _ _. exact E.
Qed.

Lemma extract_inflate_total_in (fuel : nat) :
  forall (f f1 : FILE) (strm strm1 : z_stream zlib)
         (dev dev1 : device_state afc) (t t1 : Z),
    extract_inflate zlib afc fuel f strm dev t = Ret (inr (f1, t1, strm1, dev1)) ->
    t1 - t = total_in strm1 - total_in strm /\ content f1 = content f.
Proof.
  induction fuel as [|fuel IH]; intros f f1 strm strm1 dev dev1 t t1 H; [discriminate|].
  cbn [extract_inflate] in H.
  destruct (fread 4096 f) as [input f0] eqn:Er.
  apply fread_advance in Er. destruct Er as [_ Hc].
  destruct (extract_inflate_chunk zlib afc fuel (set_input strm input) dev)
    as [[dev0|[[s code] dev0]]| |] eqn:E; cbn [bind] in H; try discriminate.
  apply extract_inflate_chunk_total_in in E.
  change (total_in (set_input strm input)) with (total_in strm) in E.
  change (avail_in (set_input strm input)) with (len input) in E.
  destruct (code =? Z_STREAM_END).
  - injection H as <- <- <- _. split; [lia | exact Hc].
  - apply IH in H. destruct H as [H1 H2]. split; [lia | congruence].
Qed.

Lemma extract_inflate_mono (fuel : nat) :
  forall (f f1 : FILE) (strm strm1 : z_stream zlib)
         (dev dev1 : device_state afc) (t t1 : Z),
    extract_inflate zlib afc fuel f strm dev t = Ret (inr (f1, t1, strm1, dev1)) ->
    total_in strm <= total_in strm1.
Proof.
  induction fuel as [|fuel IH]; intros f f1 strm strm1 dev dev1 t t1 H; [discriminate|].
  cbn [extract_inflate] in H.
  destruct (fread 4096 f) as [input f0].
  destruct (extract_inflate_chunk zlib afc fuel (set_input strm input) dev)
    as [[dev0|[[s code] dev0]]| |] eqn:E; cbn [bind] in H; try discriminate.
  apply extract_inflate_chunk_mono in E.
  change (total_in (set_input strm input)) with (total_in strm) in E.
  destruct (code =? Z_STREAM_END).
  - injection H as _ _ <- _. exact E.
  - apply IH in H. lia.
Qed.

(** After a successful [r_extract_current] the stream is at the payload
    start plus the compressed bytes consumed: the compressed size for a
    store entry, zlib's [total_in] for a deflate entry, whatever sizes the
    header declared.  The entry is marked consumed. *)
Lemma r_extract_current_position (fuel : nat) (zp zp1 : ZipParser)
  (dev dev1 : device_state afc) (strm : option (z_stream zlib)) :
  0 <= data_start zp -> 0 <= comp_size zp ->
  r_extract_current zlib afc fuel zp dev = Ret (1, zp1, dev1, strm) ->
  consumed zp1 = true /\
  fpos (fp zp1) =
    data_start zp + match strm with
                    | Some s => total_in s
                    | None => comp_size zp
                    end.
Proof.
  intros Hd Hs H. unfold r_extract_current in H.
  rewrite fseek_set_nonneg in H by exact Hd.
  destruct (compression zp =? COMPRESSION_STORE).
  - destruct (store_copy afc fuel _ dev (comp_size zp) 0) as [[[done f1] dev0]| |] eqn:E;
      cbn [bind] in H; try discriminate.
    destruct (store_copy_done _ _ _ _ _ _ _ _ E) as [->| ->]; [discriminate|].
    cbn [Z.eqb] in H. injection H as <- _ <-.
    apply store_copy_position in E; [|lia].
    destruct E as [E1 _]. cbn [fpos] in E1.
    split; [reflexivity|]. cbn [fp with_fp with_consumed]. lia.
  - destruct (compression zp =? COMPRESSION_DEFLATE); [|discriminate].
    destruct (extract_inflate zlib afc fuel _ (inflateInit2 zlib) dev 0)
      as [[[f1 dev0]|[[[f1 t] s] dev0]]| |] eqn:E; cbn [bind] in H; try discriminate.
    injection H as <- _ <-.
    pose proof (extract_inflate_mono _ _ _ _ _ _ _ _ _ E) as Hmono.
    apply extract_inflate_total_in in E. destruct E as [E1 E2].
    change (total_in (inflateInit2 zlib)) with 0 in E1, Hmono.
    split; [reflexivity|]. cbn [fp with_fp with_consumed].
    rewrite fseek_set_nonneg by lia. cbn [fpos]. lia.
Qed.

(** The buffer that [r_extract_to_buffer] hands back is as large as the
    length it reports. *)
Lemma r_extract_to_buffer_alloc (fuel : nat) (zp zp2 : ZipParser) (res : Z)
  (b : membuf) (size : Z) (strm : option (z_stream zlib)) :
  r_extract_to_buffer zlib fuel zp = Ret (res, Some b, size, zp2, strm) ->
  alloc b = size.
Proof.
  unfold r_extract_to_buffer.
  destruct (compression zp =? COMPRESSION_STORE).
  - destruct (fread (comp_size zp) _) as [data f1].
    intros H. injection H as _ <- <- _ _. reflexivity.
  - destruct (compression zp =? COMPRESSION_DEFLATE); [|discriminate].
    destruct (buffer_inflate zlib fuel _ _ _ 0) as [[f1 [[[s buf] total]|]]| |];
      cbn [bind]; try discriminate.
    intros H. injection H as _ <- <- _ _. reflexivity.
Qed.

(** ** ArchiveCursor: [r_zip_get_next_entry] *)

(** After [r_close_entry] of a store or deflate entry the stream is at the
    end of the payload and the entry state is reset. *)
Lemma r_close_entry_payload_end (fuel : nat) (zp : ZipParser) (endp : Z) :
  compression zp = COMPRESSION_STORE \/ compression zp = COMPRESSION_DEFLATE ->
  payload_end zlib fuel zp = Ret endp -> 0 <= endp ->
  r_close_entry zlib fuel zp =
    Ret (r_reset_entry (with_fp zp {| content := content (fp zp); fpos := endp |})).
Proof.
  intros Hc Hend Hpos. unfold payload_end in Hend. unfold r_close_entry.
  destruct Hc as [Hc|Hc]; rewrite Hc in *; cbn [Z.eqb COMPRESSION_STORE COMPRESSION_DEFLATE] in *.
  - injection Hend as <-. rewrite fseek_set_nonneg by exact Hpos. reflexivity.
  - destruct (close_inflate zlib fuel (fseek_set (fp zp) (data_start zp))
                (inflateInit2 zlib) 0) as [[[f1 t] strm]| |] eqn:E;
      cbn [bind] in *; try discriminate.
    injection Hend as <-.
    apply close_inflate_total_in in E. destruct E as [Ht Hcont].
    change (total_in (inflateInit2 zlib)) with 0 in Ht.
    replace t with (total_in strm) by lia.
    rewrite fseek_set_nonneg by exact Hpos.
    rewrite Hcont. unfold fseek_set.
    destruct (data_start zp <? 0); reflexivity.
Qed.

(** [r_get_content] first resets the entry state; the first call of
    [r_zip_get_next_entry] then takes the reset state for a store entry of
    size 0 whose data starts at offset 0 and closes it, which seeks to the
    start of the archive. *)
Lemma r_close_entry_after_reset (fuel : nat) (zp : ZipParser) :
  r_close_entry zlib fuel (r_reset_entry zp) =
    Ret (r_reset_entry (with_fp zp {| content := content (fp zp); fpos := 0 |})).
Proof. reflexivity. Qed.

Lemma r_zip_get_next_entry_at_payload (fuel : nat) (zp zp1 : ZipParser) :
  r_zip_get_next_entry zlib fuel zp = Ret (1, zp1) -> fpos (fp zp1) = data_start zp1.
Proof.
  unfold r_zip_get_next_entry.
  destruct (if negb (consumed zp) && negb (header_start zp =? -1)
            then r_close_entry zlib fuel zp else Ret zp) as [zp0| |];
    cbn [bind]; try discriminate.
  destruct (r_zip_skip_until_next_entry fuel zp0) as [[found zp2]| |];
    cbn [bind]; try discriminate.
  destruct (found =? 0); [discriminate|].
  apply read_local_header_at_payload.
Qed.

(** Auto-close when the [consumed] flag is clear: when
    [r_zip_get_next_entry] is called while a store or deflate entry is
    current and its [consumed] flag is false, the entry is first closed,
    which for a deflate entry decodes it to the end of its stream and drops
    the output: the stream is then exactly at the end of the payload.  The
    scan starts there, so when the next local header follows the payload
    the call yields that header, read from a reset entry state. *)
Lemma next_entry_closes_flagged_entry :
  forall (fuel : nat) (zp : ZipParser) (endp : Z),
    consumed zp = false -> header_start zp <> -1 ->
    compression zp = COMPRESSION_STORE \/ compression zp = COMPRESSION_DEFLATE ->
    payload_end zlib (S fuel) zp = Ret endp -> 0 <= endp ->
    r_close_entry zlib (S fuel) zp =
      Ret (r_reset_entry (with_fp zp {| content := content (fp zp); fpos := endp |}))
    /\ (endp + 4 <= len (content (fp zp)) ->
        word32_at (content (fp zp)) endp = LOCAL_HEADER_SIGNATURE ->
        r_zip_get_next_entry zlib (S fuel) zp =
          read_local_header (with_header_start (r_reset_entry zp) endp)).
Proof.
  intros fuel zp endp Hcons Hhdr Hc Hend Hpos.
  pose proof (r_close_entry_payload_end (S fuel) zp endp Hc Hend Hpos) as Hclose.
  split; [exact Hclose|].
  intros Hlen Hw. unfold r_zip_get_next_entry.
  rewrite Hcons. destruct (Z.eqb_spec (header_start zp) (-1)) as [E|_]; [contradiction|].
  cbn [negb andb]. rewrite Hclose. cbn [bind].
  set (zp0 := r_reset_entry (with_fp zp {| content := content (fp zp); fpos := endp |})).
  destruct (scan_finds_first (S fuel) zp0 endp) as [f' [Hcont Hscan]];
    cbn [zp0 fp r_reset_entry with_fp content fpos]; try lia; try assumption.
  rewrite Hscan. cbn [bind Z.eqb].
  change (with_header_start (with_fp zp0 f') endp)
    with (with_fp (with_header_start (r_reset_entry zp) endp) f').
  change (with_header_start (r_reset_entry zp) endp)
    with (with_fp (with_header_start (r_reset_entry zp) endp) (fp zp)) at 2.
  apply read_local_header_seeks; [exact Hpos | exact Hcont].
Qed.

(** ** ContentFetcher: [r_get_content] *)

(** C1 (amended). ContentFetcher with the cap 10485760.  When the entry that
    the loop has reached matches the requested name: if its recorded
    uncompressed size is not zero and exceeds the cap, [r_get_content]
    returns -1 with no buffer and the stream still at the start of the
    payload, nothing of which was read; if its recorded uncompressed size is
    zero, the entry is extracted into the memory buffer by
    [r_extract_to_buffer], which has no cap, and the length produced is
    compared with the cap only when the extraction has returned: -1 is
    returned when the length exceeds the cap, together with the buffer,
    whose allocation is that length. *)
Theorem content_fetcher_size_cap :
  forall (fuel : nat) (zp : ZipParser) (file_name : list Z) (zp1 : ZipParser),
    r_zip_get_next_entry zlib fuel zp = Ret (1, zp1) ->
    strncmp (filename zp1) file_name (Z.to_nat (strlen file_name)) = 0 ->
    (uncomp_size zp1 <> 0 -> MAX_CONTENT_SIZE < uncomp_size zp1 ->
       get_content_loop zlib (S fuel) zp file_name
         = Ret (-1, None, 0, r_reset_entry zp1)
       /\ fpos (fp (r_reset_entry zp1)) = data_start zp1)
    /\ (uncomp_size zp1 = 0 ->
        forall res buffer size zp2 strm,
          r_extract_to_buffer zlib fuel zp1 = Ret (res, buffer, size, zp2, strm) ->
          get_content_loop zlib (S fuel) zp file_name =
            (if size >? MAX_CONTENT_SIZE
             then Ret (-1, buffer, 0, r_reset_entry zp2)
             else Ret (0, buffer, size mod UINT32_MOD, r_reset_entry zp2))
          /\ forall b, buffer = Some b -> alloc b = size).
Proof.
  intros fuel zp file_name zp1 Hnext Hmatch. split.
  - intros Hnz Hbig. split.
    + cbn [get_content_loop]. rewrite Hnext. cbn [bind Z.eqb].
      rewrite Hmatch. cbn [Z.eqb].
      destruct (Z.eqb_spec (uncomp_size zp1) 0) as [E|_]; [contradiction|].
      cbn [negb].
      destruct (Z.gtb_spec (uncomp_size zp1) MAX_CONTENT_SIZE); [reflexivity | lia].
    + cbn [fp r_reset_entry]. apply (r_zip_get_next_entry_at_payload fuel zp zp1 Hnext).
  - intros Hz res buffer size zp2 strm Hext. split.
    + cbn [get_content_loop]. rewrite Hnext. cbn [bind Z.eqb].
      rewrite Hmatch. cbn [Z.eqb]. rewrite Hz. cbn [Z.eqb negb].
      rewrite Hext. cbn [bind]. reflexivity.
    + intros b Hb. subst buffer.
      apply (r_extract_to_buffer_alloc fuel zp1 zp2 res b size strm Hext).
Qed.

(** C10 (amended). Every call of [r_get_content] scans the archive from
    offset 0, wherever earlier lookups on the same parser left the stream
    and whatever entry state they left: its result is the result on a
    freshly opened parser for the same archive.  An entry that lies before
    the position already reached is therefore still found. *)
Theorem content_fetch_scans_from_start :
  forall (fuel : nat) (zp : ZipParser) (file_name : list Z),
    r_get_content zlib fuel zp file_name =
    r_get_content zlib fuel (r_zip_open (content (fp zp))) file_name.
Proof.
  intros fuel zp file_name. unfold r_get_content.
  destruct fuel as [|fuel]; [reflexivity|].
  cbn [get_content_loop].
  assert (E : r_zip_get_next_entry zlib fuel (r_reset_entry zp) =
              r_zip_get_next_entry zlib fuel
                (r_reset_entry (r_zip_open (content (fp zp))))).
  { unfold r_zip_get_next_entry.
    cbn [consumed header_start r_reset_entry negb andb Z.eqb].
    rewrite !r_close_entry_after_reset. reflexivity. }
  rewrite E. reflexivity.
Qed.

End ReaderProperties.

(** ** The decoder, the cursor, the locator and the fetcher on concrete archives *)

(** C3. Stream position after a successful decode into the memory buffer.
    The deflate entry [a] of [archive_deflate_a_b] has its payload at offset
    31 and zlib consumes 7 bytes of it.  [r_extract_current] (and
    [r_close_entry]) seek to 31 + 7 = 38 when the decode is complete;
    [r_extract_to_buffer] succeeds on the same entry and leaves the stream
    where its last [fread] ended, at offset 116, the end of the archive. *)
Theorem buffer_decode_leaves_stream_after_chunk :
  exists zp1,
    r_zip_get_next_entry StoredDeflate.inflater 1 (r_zip_open archive_deflate_a_b)
      = Ret (1, zp1)
    /\ data_start zp1 = 31
    /\ (exists buffer zp2 strm,
          r_extract_to_buffer StoredDeflate.inflater 2 zp1
            = Ret (1, Some buffer, 2, zp2, Some strm)
          /\ total_in strm = 7 /\ fpos (fp zp2) = 116)
    /\ (exists zp2 dev strm,
          r_extract_current StoredDeflate.inflater accepting_device 2 zp1 []
            = Ret (1, zp2, dev, Some strm)
          /\ total_in strm = 7 /\ fpos (fp zp2) = 38).
Proof.
  eexists. split; [vm_compute; reflexivity|].
  split; [reflexivity|]. split.
  - do 3 eexists. split; [vm_compute; reflexivity|]. split; reflexivity.
  - do 3 eexists. split; [vm_compute; reflexivity|]. split; reflexivity.
Qed.

(** The deflate entry [a] of [archive_deflate_a_b] is positioned and not
    consumed; its payload ends at offset 38, where the header of [b] starts.
    The second call closes [a] and yields [b]. *)
Lemma next_entry_closes_flagged_entry_example :
  exists zp1,
    r_zip_get_next_entry StoredDeflate.inflater 1 (r_zip_open archive_deflate_a_b)
      = Ret (1, zp1)
    /\ r_close_entry StoredDeflate.inflater 2 zp1
       = Ret (r_reset_entry
                (with_fp zp1 {| content := content (fp zp1); fpos := 38 |}))
    /\ r_zip_get_next_entry StoredDeflate.inflater 2 zp1
       = read_local_header (with_header_start (r_reset_entry zp1) 38)
    /\ exists zp2,
         read_local_header (with_header_start (r_reset_entry zp1) 38) = Ret (1, zp2)
         /\ cstr (filename zp2) = chars "b".
Proof.
  eexists. split; [vm_compute; reflexivity|].
  match goal with
  | |- r_close_entry _ _ ?zp1 = _ /\ _ =>
      pose proof (next_entry_closes_flagged_entry StoredDeflate.inflater 1 zp1 38)
        as H
  end.
  destruct H as [Hclose Hnext].
  - reflexivity.
  - vm_compute. discriminate.
  - right. reflexivity.
  - vm_compute. reflexivity.
  - vm_compute. discriminate.
  - split; [exact Hclose|]. split.
    + apply Hnext; vm_compute; [discriminate | reflexivity].
    + eexists. split; vm_compute; reflexivity.
Defined.

(** C8. ArchiveCursor auto-close.  [r_zip_get_next_entry] closes the current
    entry when its [consumed] flag is false, and nothing but [r_reset_entry]
    clears the flag: reading a new header leaves it as it is.  In
    [archive_nested] the entry [a] is read and extracted, as the upload loop
    of [main] does; [b] is read next and inherits the flag of [a]; [b] is
    not consumed, and the following call does not close it: the scan starts
    at the payload of [b] and yields the member [z] that lies inside of
    it, not the entry [c].  When no entry has been extracted the flag is
    clear, [b] is closed and the same call yields [c]. *)
Theorem stale_consumed_flag_skips_auto_close :
  exists zp1 zp2 dev zp3 zp4,
    r_zip_get_next_entry StoredDeflate.inflater 1 (r_zip_open archive_nested)
      = Ret (1, zp1)
    /\ cstr (filename zp1) = chars "a"
    /\ r_extract_current StoredDeflate.inflater accepting_device 1 zp1 []
       = Ret (1, zp2, dev, None)
    /\ r_zip_get_next_entry StoredDeflate.inflater 1 zp2 = Ret (1, zp3)
    /\ cstr (filename zp3) = chars "b"
    /\ consumed zp3 = true
    /\ r_zip_get_next_entry StoredDeflate.inflater 1 zp3 = Ret (1, zp4)
    /\ cstr (filename zp4) = chars "z"
    /\ header_start zp4 = data_start zp3
    /\ exists zp3' zp4',
         r_zip_get_next_entry StoredDeflate.inflater 1 zp1 = Ret (1, zp3')
         /\ cstr (filename zp3') = chars "b"
         /\ consumed zp3' = false
         /\ r_zip_get_next_entry StoredDeflate.inflater 1 zp3' = Ret (1, zp4')
         /\ cstr (filename zp4') = chars "c".
Proof.
  do 5 eexists.
  split; [vm_compute; reflexivity|]. split; [vm_compute; reflexivity|].
  split; [vm_compute; reflexivity|]. split; [vm_compute; reflexivity|].
  split; [vm_compute; reflexivity|]. split; [reflexivity|].
  split; [vm_compute; reflexivity|]. split; [vm_compute; reflexivity|].
  split; [reflexivity|].
  do 2 eexists.
  split; [vm_compute; reflexivity|]. split; [vm_compute; reflexivity|].
  split; [reflexivity|].
  split; [vm_compute; reflexivity|]. vm_compute. reflexivity.
Qed.

(** C9. AppBundleLocator.  For the entries [Payload/.hidden/foo],
    [Payload/Foo.app/bin], [Payload/Bar.app/bin] the result is
    [Payload/Foo.app/].  An entry under [Payload/] with no slash after the
    prefix is not skipped: the search for the slash does not stop at the
    end of the name (its loop condition compares the pointer with NULL) and
    walks out of the [filename] array. *)
Theorem app_directory_search :
  (exists zp,
     r_get_app_directory StoredDeflate.inflater 3 (r_zip_open archive_app_bundles) None
       = Ret (0, Some (chars "Payload/Foo.app/" ++ [0]), zp))
  /\ r_get_app_directory StoredDeflate.inflater 2 (r_zip_open archive_no_slash) None
       = Undefined BufferOverread.
Proof.
  split.
  - eexists. vm_compute. reflexivity.
  - vm_compute. reflexivity.
Qed.

(** Counterexample to C1 as stated: the entry [a] of [archive_huge_store]
    matches, its declared uncompressed size is zero, and the buffer that is
    allocated for it is 20000000 bytes large, above the cap; the failure
    is reported after the extraction. *)
Lemma content_fetcher_unbounded_buffer :
  exists zp1 buffer zp2,
    r_zip_get_next_entry StoredDeflate.inflater 1
      (r_reset_entry (r_zip_open archive_huge_store)) = Ret (1, zp1)
    /\ uncomp_size zp1 = 0
    /\ r_get_content StoredDeflate.inflater 2 (r_zip_open archive_huge_store) (chars "a")
       = Ret (-1, Some buffer, 0, zp2)
    /\ alloc buffer = 20000000
    /\ MAX_CONTENT_SIZE < alloc buffer.
Proof.
  do 3 eexists. split; [vm_compute; reflexivity|]. split; [reflexivity|].
  split; [vm_compute; reflexivity|]. split; reflexivity.
Qed.

(** The entry [a] of [archive_declared_too_large] declares 20000000
    uncompressed bytes: the lookup fails at once. *)
Lemma content_fetcher_size_cap_witness :
  exists zp1,
    r_zip_get_next_entry StoredDeflate.inflater 1
      (r_reset_entry (r_zip_open archive_declared_too_large)) = Ret (1, zp1)
    /\ uncomp_size zp1 = 20000000
    /\ get_content_loop StoredDeflate.inflater 2
         (r_reset_entry (r_zip_open archive_declared_too_large)) (chars "a")
       = Ret (-1, None, 0, r_reset_entry zp1)
    /\ fpos (fp (r_reset_entry zp1)) = data_start zp1.
Proof.
  eexists. split; [vm_compute; reflexivity|]. split; [reflexivity|].
  refine (proj1 (content_fetcher_size_cap StoredDeflate.inflater 1
                   (r_reset_entry (r_zip_open archive_declared_too_large))
                   (chars "a") _ _ _) _ _).
  - vm_compute. reflexivity.
  - vm_compute. reflexivity.
  - vm_compute. discriminate.
  - vm_compute. reflexivity.
Defined.

(** Counterexample to C10 as stated: after the lookup of [b] the stream is
    at offset 65, behind the whole entry [a] (whose header is at offset 0);
    the lookup of [a] on the same parser finds it and returns its content. *)
Lemma content_fetch_finds_earlier_entry :
  exists buffer_b zp1 buffer_a zp2,
    r_get_content StoredDeflate.inflater 3 (r_zip_open archive_a_b) (chars "b")
      = Ret (0, Some buffer_b, 1, zp1)
    /\ fpos (fp zp1) = 65
    /\ r_get_content StoredDeflate.inflater 3 zp1 (chars "a")
       = Ret (0, Some buffer_a, 2, zp2)
    /\ bytes buffer_a = chars "hi".
Proof.
  do 4 eexists. split; [vm_compute; reflexivity|]. split; [reflexivity|].
  split; [vm_compute; reflexivity|]. vm_compute. reflexivity.
Qed.

(** * Further properties of the reader *)

(** ** What the scan reports *)

Lemma terminal_is_not_local (w : Z) :
  is_terminal_signature w = true -> (w =? LOCAL_HEADER_SIGNATURE) = false.
Proof.
  unfold is_terminal_signature. intros H.
  repeat (apply orb_true_iff in H; destruct H as [H|H]);
    apply Z.eqb_eq in H; subst w; reflexivity.
Qed.

(** A chunk in which the loop reports the local signature holds it at the
    reported offset, inside of the bytes read, and holds no signature
    before it. *)
Lemma scan_chunk_found_sound (buffer : list Z) (n : nat) :
  forall (i k : Z),
    scan_chunk n buffer (len buffer) i = ChunkFound k ->
    i <= k /\ k + 4 <= len buffer
    /\ word32_at buffer k = LOCAL_HEADER_SIGNATURE
    /\ forall j, i <= j < k -> is_signature (word32_at buffer j) = false.
Proof.
  induction n as [|n IH]; intros i k H; [discriminate|].
  cbn [scan_chunk] in H.
  destruct (i <? (len buffer - 3) mod SIZE_T_MOD); [|discriminate].
  destruct (Z.leb_spec (i + 4) (len buffer)); [|discriminate].
  destruct (Z.eqb_spec (word32_at buffer i) LOCAL_HEADER_SIGNATURE) as [Hw|Hw].
  - injection H as <-. repeat split; try lia; assumption.
  - destruct (is_terminal_signature (word32_at buffer i)) eqn:Ht; [discriminate|].
    apply IH in H. destruct H as [H1 [H2 [H3 H4]]].
    repeat split; try lia; try assumption.
    intros j Hj. destruct (Z.eq_dec j i) as [->|Hne].
    + unfold is_signature. rewrite Ht.
      destruct (Z.eqb_spec (word32_at buffer i) LOCAL_HEADER_SIGNATURE);
        [contradiction | reflexivity].
    + apply H4. lia.
Qed.

(** A chunk that the loop leaves at its bound was at least three bytes
    long and holds no signature. *)
Lemma scan_chunk_exhausted_sound (buffer : list Z) (n : nat) :
  1 <= len buffer <= BUFFER_SIZE ->
  forall (i : Z),
    0 <= i <= len buffer ->
    scan_chunk n buffer (len buffer) i = ChunkExhausted ->
    3 <= len buffer
    /\ forall j, i <= j <= len buffer - 4 ->
                 is_signature (word32_at buffer j) = false.
Proof.
  intros Hsz. induction n as [|n IH]; intros i Hi H; [discriminate|].
  cbn [scan_chunk] in H.
  destruct (Z.lt_ge_cases (len buffer) 3) as [Hshort|Hlong].
  - exfalso.
    assert (Hwrap : (len buffer - 3) mod SIZE_T_MOD = len buffer - 3 + 2 ^ 64).
    { unfold SIZE_T_MOD.
      replace (len buffer - 3) with ((len buffer - 3 + 2 ^ 64) + (-1) * 2 ^ 64) at 1
        by lia.
      rewrite Z.mod_add by lia. apply Z.mod_small. unfold BUFFER_SIZE in *. lia. }
    rewrite Hwrap in H.
    destruct (Z.ltb_spec i (len buffer - 3 + 2 ^ 64)) as [Hlt|Hge];
      [|unfold BUFFER_SIZE in *; lia].
    destruct (Z.leb_spec (i + 4) (len buffer)); [lia | discriminate].
  - rewrite size_t_small in H by lia. split; [exact Hlong|].
    destruct (Z.ltb_spec i (len buffer - 3)).
    + destruct (Z.leb_spec (i + 4) (len buffer)); [|discriminate].
      destruct (Z.eqb_spec (word32_at buffer i) LOCAL_HEADER_SIGNATURE);
        [discriminate|].
      destruct (is_terminal_signature (word32_at buffer i)) eqn:Ht; [discriminate|].
      apply IH in H; [|lia]. destruct H as [_ H].
      intros j Hj. destruct (Z.eq_dec j i) as [->|Hne].
      * unfold is_signature. rewrite Ht.
        destruct (Z.eqb_spec (word32_at buffer i) LOCAL_HEADER_SIGNATURE);
          [contradiction | reflexivity].
      * apply H. lia.
    + intros j Hj. lia.
Qed.

Lemma len_chunk (pos : Z) (l : list Z) :
  0 <= pos ->
  len (slice pos BUFFER_SIZE l) = Z.min BUFFER_SIZE (Z.max 0 (len l - pos)).
Proof.
  intros H. unfold slice. rewrite len_firstn, len_skipn. unfold BUFFER_SIZE. lia.
Qed.

(** The scan reports a header only where one is: when it returns 1,
    [header_start] is at or after the position where the scan began, the
    four bytes there are the local file header signature and lie within the
    archive, and no signature, local or terminal, begins between the two.
    The archive itself is not modified. *)
Theorem scan_reports_first_signature :
  forall (fuel : nat) (zp zp' : ZipParser),
    0 <= fpos (fp zp) ->
    r_zip_skip_until_next_entry fuel zp = Ret (1, zp') ->
    content (fp zp') = content (fp zp)
    /\ fpos (fp zp) <= header_start zp'
    /\ header_start zp' + 4 <= len (content (fp zp))
    /\ word32_at (content (fp zp)) (header_start zp') = LOCAL_HEADER_SIGNATURE
    /\ forall j, fpos (fp zp) <= j < header_start zp' ->
                 is_signature (word32_at (content (fp zp)) j) = false.
Proof.
  induction fuel as [|fuel IH]; intros zp zp' Hpos H; [discriminate|].
  cbn [r_zip_skip_until_next_entry] in H. unfold ftell in H.
  rewrite fread_spec in H by (unfold BUFFER_SIZE; lia).
  set (buffer := slice (fpos (fp zp)) BUFFER_SIZE (content (fp zp))) in H.
  assert (Hlen : len buffer
                 = Z.min BUFFER_SIZE (Z.max 0 (len (content (fp zp)) - fpos (fp zp))))
    by (apply len_chunk; exact Hpos).
  assert (Hword : forall j, 0 <= j -> j + 4 <= len buffer ->
            word32_at buffer j = word32_at (content (fp zp)) (fpos (fp zp) + j)).
  { intros j Hj Hj4. unfold buffer, slice. apply word32_at_chunk;
      unfold BUFFER_SIZE in *; lia. }
  destruct (Z.eqb_spec (len buffer) 0) as [E0|Hne]; [discriminate|].
  assert (Hsz : 1 <= len buffer <= BUFFER_SIZE)
    by (pose proof (len_nonneg buffer); unfold BUFFER_SIZE in *; lia).
  destruct (scan_chunk (S (length buffer)) buffer (len buffer) 0) as [i| | |i] eqn:E;
    try discriminate.
  - apply scan_chunk_found_sound in E. destruct E as [E1 [E2 [E3 E4]]].
    injection H as <-. cbn [fp header_start with_fp with_header_start content].
    split; [reflexivity|]. split; [lia|]. split; [lia|].
    split; [rewrite <- Hword by lia; exact E3|].
    intros j Hj.
    replace j with (fpos (fp zp) + (j - fpos (fp zp))) by lia.
    rewrite <- Hword by lia. apply E4. lia.
  - apply scan_chunk_exhausted_sound in E; [|exact Hsz|lia].
    destruct E as [E1 E2].
    rewrite fseek_set_nonneg in H by lia. cbn [content] in H.
    apply IH in H; [|cbn [fp with_fp fpos]; lia].
    cbn [fp with_fp fpos content] in H.
    destruct H as [H1 [H2 [H3 [H4 H5]]]].
    split; [exact H1|]. split; [lia|]. split; [exact H3|]. split; [exact H4|].
    intros j Hj.
    destruct (Z.lt_ge_cases j (fpos (fp zp) + len buffer - 3)) as [Hin|Hout].
    + replace j with (fpos (fp zp) + (j - fpos (fp zp))) by lia.
      rewrite <- Hword by lia. apply E2. lia.
    + apply H5. lia.
Qed.

Lemma scan_reports_first_signature_witness :
  exists zp',
    r_zip_skip_until_next_entry 2 (r_zip_open (archive_straddling 4094)) = Ret (1, zp')
    /\ header_start zp' = 4094
    /\ word32_at (archive_straddling 4094) (header_start zp') = LOCAL_HEADER_SIGNATURE.
Proof.
  eexists. split; [vm_compute; reflexivity|]. split; [reflexivity|].
  refine (proj1 (proj2 (proj2 (proj2
            (scan_reports_first_signature 2 (r_zip_open (archive_straddling 4094)) _ _ _))))).
  - cbn [fpos fp r_zip_open]. lia.
  - vm_compute. reflexivity.
Defined.

(** Within a chunk the loop stops at a terminal signature that no other
    signature precedes. *)
Lemma scan_chunk_terminal (buffer : list Z) (k : Z) :
  len buffer <= BUFFER_SIZE -> k + 4 <= len buffer ->
  is_terminal_signature (word32_at buffer k) = true ->
  forall (n : nat) (i : Z),
    0 <= i <= k -> k - i < Z.of_nat n ->
    (forall j, i <= j < k -> is_signature (word32_at buffer j) = false) ->
    scan_chunk n buffer (len buffer) i = ChunkTerminal.
Proof.
  intros Hsz Hk Hw. induction n as [|n IH]; intros i Hi Hn Hno; [lia|].
  cbn [scan_chunk]. rewrite size_t_small by lia.
  destruct (Z.ltb_spec i (len buffer - 3)); [|lia].
  destruct (Z.leb_spec (i + 4) (len buffer)); [|lia].
  destruct (Z.eq_dec i k) as [->|Hne].
  - rewrite (terminal_is_not_local _ Hw), Hw. reflexivity.
  - destruct (is_signature_false _ (Hno i ltac:(lia))) as [H1 H2].
    rewrite H1, H2. apply IH; [lia | lia | intros; apply Hno; lia].
Qed.

(** The scan up to a terminal signature, chunk by chunk. *)
Lemma scan_to_terminal :
  forall (fuel : nat) (zp : ZipParser) (off : Z),
    0 <= fpos (fp zp) <= off ->
    off + 4 <= len (content (fp zp)) ->
    is_terminal_signature (word32_at (content (fp zp)) off) = true ->
    (forall j, fpos (fp zp) <= j < off ->
               is_signature (word32_at (content (fp zp)) j) = false) ->
    off - fpos (fp zp) < 4093 * Z.of_nat fuel ->
    exists f', content f' = content (fp zp) /\
      r_zip_skip_until_next_entry fuel zp = Ret (0, with_fp zp f').
Proof.
  induction fuel as [|fuel IH]; intros zp off Hpos Hoff Hw Hno Hfuel; [lia|].
  cbn [r_zip_skip_until_next_entry]. unfold ftell.
  rewrite fread_inside by (unfold BUFFER_SIZE; lia).
  set (buffer := firstn (Z.to_nat BUFFER_SIZE)
                   (skipn (Z.to_nat (fpos (fp zp))) (content (fp zp)))).
  assert (Hlen : len buffer = Z.min BUFFER_SIZE (len (content (fp zp)) - fpos (fp zp))).
  { unfold buffer. rewrite len_firstn, len_skipn. unfold BUFFER_SIZE. lia. }
  assert (Hword : forall j, 0 <= j -> j + 4 <= len buffer ->
            word32_at buffer j = word32_at (content (fp zp)) (fpos (fp zp) + j)).
  { intros j Hj Hj4. unfold buffer. apply word32_at_chunk; lia. }
  destruct (Z.eqb_spec (len buffer) 0) as [E0|_]; [unfold BUFFER_SIZE in *; lia|].
  destruct (Z.le_gt_cases (off - fpos (fp zp) + 4) (len buffer)) as [Hin|Hout].
  - rewrite (scan_chunk_terminal buffer (off - fpos (fp zp))).
    + eexists. split; [|reflexivity]. reflexivity.
    + unfold BUFFER_SIZE in *; lia.
    + exact Hin.
    + rewrite Hword by lia. rewrite <- Hw. f_equal. f_equal. lia.
    + lia.
    + unfold len in *. lia.
    + intros j Hj. rewrite Hword by lia. apply Hno. lia.
  - assert (Hfull : len buffer = BUFFER_SIZE) by (unfold BUFFER_SIZE in *; lia).
    rewrite (scan_chunk_exhausted buffer).
    + rewrite Hfull, fseek_set_nonneg by (unfold BUFFER_SIZE; lia).
      cbn [content].
      destruct (IH (with_fp zp {| content := content (fp zp);
                                  fpos := fpos (fp zp) + BUFFER_SIZE - 3 |}) off)
        as [f' [Hc Hr]]; cbn [fp with_fp content fpos];
        try (unfold BUFFER_SIZE in *; lia); try assumption.
      * intros j Hj. apply Hno. unfold BUFFER_SIZE in *. lia.
      * exists f'. split; [exact Hc | rewrite Hr; reflexivity].
    + unfold BUFFER_SIZE in *; lia.
    + unfold BUFFER_SIZE in *; lia.
    + unfold len in *. lia.
    + intros j Hj. rewrite Hword by lia. apply Hno. unfold BUFFER_SIZE in *. lia.
Qed.

(** The scan returns 0 at the first terminal signature (central directory
    header, end of central directory, digital signature, archive extra
    data, ZIP64 end of central directory) that no local header signature
    precedes: [header_start] keeps its value. *)
Theorem scan_stops_at_terminal_signature :
  forall (fuel : nat) (zp : ZipParser) (off : Z),
    0 <= fpos (fp zp) <= off ->
    off + 4 <= len (content (fp zp)) ->
    is_terminal_signature (word32_at (content (fp zp)) off) = true ->
    (forall j, fpos (fp zp) <= j < off ->
               is_signature (word32_at (content (fp zp)) j) = false) ->
    off - fpos (fp zp) < 4093 * Z.of_nat fuel ->
    exists f', content f' = content (fp zp) /\
      r_zip_skip_until_next_entry fuel zp = Ret (0, with_fp zp f').
Proof.
  intros fuel zp off Hpos Hoff Hw Hno Hfuel.
  exact (scan_to_terminal fuel zp off Hpos Hoff Hw Hno Hfuel).
Qed.

Lemma scan_stops_at_terminal_signature_witness :
  exists f',
    content f' = repeat 0 4094 ++ central_directory
    /\ r_zip_skip_until_next_entry 2 (r_zip_open (repeat 0 4094 ++ central_directory))
       = Ret (0, with_fp (r_zip_open (repeat 0 4094 ++ central_directory)) f').
Proof.
  apply (scan_stops_at_terminal_signature 2
           (r_zip_open (repeat 0 4094 ++ central_directory)) 4094).
  - cbn [fpos fp r_zip_open]. lia.
  - vm_compute. discriminate.
  - vm_compute. reflexivity.
  - intros j Hj. cbn [fpos fp r_zip_open content] in *.
    assert (Hall : forallb (fun k => negb (is_signature
              (word32_at (repeat 0 4094 ++ central_directory) (0 + Z.of_nat k))))
              (seq 0 4094) = true) by (vm_compute; reflexivity).
    rewrite forallb_forall in Hall. specialize (Hall (Z.to_nat j)).
    replace (0 + Z.of_nat (Z.to_nat j)) with j in Hall by lia.
    apply negb_true_iff. apply Hall. apply in_seq. lia.
  - vm_compute. reflexivity.
Defined.

(** On an archive whose first signature is a terminal one there are no
    local entries: [r_get_content] returns 0 with no buffer and length 0
    whatever the state of the parser, and [r_get_app_directory] on the
    opened archive returns -1. *)
Theorem lookups_on_archive_without_entries :
  forall (zl : Inflater) (fuel : nat) (zp : ZipParser) (file_name : list Z) (off : Z),
    0 <= off ->
    off + 4 <= len (content (fp zp)) ->
    is_terminal_signature (word32_at (content (fp zp)) off) = true ->
    (forall j, 0 <= j < off -> is_signature (word32_at (content (fp zp)) j) = false) ->
    off < 4093 * Z.of_nat fuel ->
    (exists zp', r_get_content zl (S fuel) zp file_name = Ret (0, None, 0, zp'))
    /\ (exists zp', r_get_app_directory zl (S fuel) (r_zip_open (content (fp zp))) None
                    = Ret (-1, None, zp')).
Proof.
  intros zl fuel zp file_name off Hoff Hlen Hw Hno Hfuel. split.
  - unfold r_get_content. cbn [get_content_loop]. unfold r_zip_get_next_entry.
    cbn [consumed header_start r_reset_entry negb andb Z.eqb].
    rewrite r_close_entry_after_reset. cbn [bind].
    destruct (scan_to_terminal fuel
                (r_reset_entry (with_fp zp {| content := content (fp zp); fpos := 0 |}))
                off) as [f' [_ Hscan]];
      cbn [fp r_reset_entry with_fp content fpos]; try lia; try assumption.
    rewrite Hscan. cbn [bind Z.eqb]. eexists. reflexivity.
  - destruct (scan_to_terminal fuel (r_zip_open (content (fp zp))) off)
      as [f' [_ Hscan]];
      cbn [fp r_zip_open content fpos]; try lia; try assumption.
    cbn [r_get_app_directory]. unfold r_zip_get_next_entry.
    change (negb (consumed (r_zip_open (content (fp zp))))
            && negb (header_start (r_zip_open (content (fp zp))) =? -1)) with false.
    cbn [bind]. rewrite Hscan. cbn [bind Z.eqb]. eexists. reflexivity.
Qed.

(** An archive that is a central directory only. *)
Lemma lookups_on_archive_without_entries_witness :
  (exists zp', r_get_content StoredDeflate.inflater 2 (r_zip_open central_directory)
                 (chars "Info.plist") = Ret (0, None, 0, zp'))
  /\ (exists zp', r_get_app_directory StoredDeflate.inflater 2
                    (r_zip_open (content (fp (r_zip_open central_directory)))) None
                  = Ret (-1, None, zp')).
Proof.
  apply (lookups_on_archive_without_entries StoredDeflate.inflater 1
           (r_zip_open central_directory) (chars "Info.plist") 0).
  - lia.
  - vm_compute. discriminate.
  - vm_compute. reflexivity.
  - intros j Hj. lia.
  - vm_compute. reflexivity.
Defined.

(** ** Extraction of store entries *)

Lemma slice_split (a m n : Z) (l : list Z) :
  0 <= a -> 0 <= m -> 0 <= n ->
  slice a (m + n) l = slice a m l ++ slice (a + m) n l.
Proof.
  intros Ha Hm Hn. unfold slice.
  replace (Z.to_nat (m + n)) with (Z.to_nat m + Z.to_nat n)%nat by lia.
  replace (Z.to_nat (a + m)) with (Z.to_nat m + Z.to_nat a)%nat by lia.
  rewrite <- skipn_skipn.
  generalize (skipn (Z.to_nat a) l) as t. generalize (Z.to_nat n) as q.
  generalize (Z.to_nat m) as p. clear.
  induction p as [|p IH]; intros q t; [reflexivity|].
  destruct t as [|x t]; cbn [Nat.add firstn skipn app].
  - rewrite firstn_nil. reflexivity.
  - rewrite IH. reflexivity.
Qed.

Lemma slice_empty (a : Z) (l : list Z) : slice a 0 l = [].
Proof. reflexivity. Qed.

(** With a device that accepts every chunk, the store loop copies the bytes
    that are left of the payload, in chunks of at most 4096 bytes. *)
Lemma store_copy_accepting (fuel : nat) :
  forall (f : FILE) (dev : list Z) (size total_written : Z),
    0 <= total_written <= size -> 0 <= fpos f ->
    fpos f + (size - total_written) <= len (content f) ->
    size - total_written <= 4096 * Z.of_nat fuel ->
    store_copy accepting_device fuel f dev size total_written =
      Ret (1, {| content := content f; fpos := fpos f + (size - total_written) |},
           dev ++ slice (fpos f) (size - total_written) (content f)).
Proof.
  induction fuel as [|fuel IH]; intros f dev size tw Htw Hpos Hin Hfuel.
  - assert (tw = size) by lia. subst tw. cbn [store_copy].
    rewrite Z.ltb_irrefl, Z.sub_diag, Z.add_0_r, slice_empty, app_nil_r.
    destruct f; reflexivity.
  - cbn [store_copy]. destruct (Z.ltb_spec tw size) as [Hlt|Hge].
    + set (to_read := if size - tw <? 4096 then (size - tw) mod UINT32_MOD else 4096).
      assert (Hto : 0 < to_read <= size - tw /\ to_read <= 4096
                    /\ (to_read < 4096 -> to_read = size - tw)).
      { unfold to_read. destruct (Z.ltb_spec (size - tw) 4096).
        - rewrite Z.mod_small by (unfold UINT32_MOD; lia). lia.
        - lia. }
      rewrite fread_spec by lia.
      assert (Hl : len (slice (fpos f) to_read (content f)) = to_read)
        by (apply len_slice; lia).
      rewrite Hl, Z.eqb_refl. cbn [negb accepting_device afc_file_write].
      rewrite Hl.
      rewrite (Z.mod_small to_read) by (unfold UINT32_MOD; lia).
      change (AFC_E_SUCCESS =? AFC_E_SUCCESS) with true.
      rewrite Z.eqb_refl. cbn [negb].
      rewrite IH; cbn [content fpos]; try lia.
      f_equal. f_equal.
      * f_equal. f_equal. lia.
      * rewrite <- app_assoc. f_equal.
        replace (fpos f + Z.min to_read (Z.max 0 (len (content f) - fpos f)))
          with (fpos f + to_read) by lia.
        replace (size - (tw + to_read)) with (size - tw - to_read) by lia.
        rewrite <- slice_split by lia. f_equal. lia.
    + assert (tw = size) by lia. subst tw.
      rewrite Z.sub_diag, Z.add_0_r, slice_empty, app_nil_r.
      destruct f; reflexivity.
Qed.

(** Round trip of a store entry to the device: when the payload lies within
    the archive and the device accepts every chunk, [r_extract_current]
    returns 1, the device has received exactly the [comp_size] bytes that
    start at [data_start], the stream is behind the payload and the entry is
    marked consumed. *)
Theorem store_entry_reaches_device :
  forall (zl : Inflater) (fuel : nat) (zp : ZipParser) (dev : list Z),
    compression zp = COMPRESSION_STORE ->
    0 <= data_start zp -> 0 <= comp_size zp ->
    data_start zp + comp_size zp <= len (content (fp zp)) ->
    comp_size zp <= 4096 * Z.of_nat fuel ->
    r_extract_current zl accepting_device fuel zp dev =
      Ret (1,
           with_consumed
             (with_fp zp {| content := content (fp zp);
                            fpos := data_start zp + comp_size zp |}) true,
           dev ++ slice (data_start zp) (comp_size zp) (content (fp zp)),
           None).
Proof.
  intros zl fuel zp dev Hc Hd Hs Hin Hfuel. unfold r_extract_current.
  rewrite Hc. cbn [Z.eqb COMPRESSION_STORE].
  rewrite fseek_set_nonneg by exact Hd.
  rewrite store_copy_accepting; cbn [content fpos]; try lia.
  cbn [bind Z.eqb]. rewrite !Z.sub_0_r. reflexivity.
Qed.

Lemma store_entry_reaches_device_witness :
  exists zp1,
    r_zip_get_next_entry StoredDeflate.inflater 1 (r_zip_open archive_a_b) = Ret (1, zp1)
    /\ r_extract_current StoredDeflate.inflater accepting_device 1 zp1 [] =
       Ret (1,
            with_consumed
              (with_fp zp1 {| content := content (fp zp1);
                              fpos := data_start zp1 + comp_size zp1 |}) true,
            [] ++ slice (data_start zp1) (comp_size zp1) (content (fp zp1)),
            None)
    /\ slice (data_start zp1) (comp_size zp1) (content (fp zp1)) = chars "hi".
Proof.
  eexists. split; [vm_compute; reflexivity|]. split.
  - apply (store_entry_reaches_device StoredDeflate.inflater 1).
    + reflexivity.
    + vm_compute. discriminate.
    + vm_compute. discriminate.
    + vm_compute. discriminate.
    + vm_compute. discriminate.
  - vm_compute. reflexivity.
Defined.

Section ExtractionEdgeCases.

Variable zlib : Inflater.
Variable afc : Device.

(** When the archive ends before the bytes that are left to copy, the store
    loop ends in one of its [return 0], whatever the device answers. *)
Lemma store_copy_truncated (fuel : nat) :
  forall (f : FILE) (dev : device_state afc) (size total_written : Z),
    0 <= total_written < size -> 0 <= fpos f ->
    len (content f) < fpos f + (size - total_written) ->
    size - total_written <= 4096 * Z.of_nat fuel ->
    exists f1 dev1, store_copy afc fuel f dev size total_written = Ret (0, f1, dev1).
Proof.
  induction fuel as [|fuel IH]; intros f dev size tw Htw Hpos Hcut Hfuel; [lia|].
  cbn [store_copy]. destruct (Z.ltb_spec tw size) as [_|Hge]; [|lia].
  set (to_read := if size - tw <? 4096 then (size - tw) mod UINT32_MOD else 4096).
  assert (Hto : 0 < to_read <= size - tw /\ to_read <= 4096
                /\ (to_read < 4096 -> to_read = size - tw)).
  { unfold to_read. destruct (Z.ltb_spec (size - tw) 4096).
    - rewrite Z.mod_small by (unfold UINT32_MOD; lia). lia.
    - lia. }
  rewrite fread_spec by lia.
  set (buffer := slice (fpos f) to_read (content f)).
  assert (Hl : len buffer = Z.min to_read (Z.max 0 (len (content f) - fpos f))).
  { unfold buffer, slice. rewrite len_firstn, len_skipn. lia. }
  destruct (Z.eqb_spec (len buffer) to_read) as [Hfull|Hshort]; cbn [negb];
    [|do 2 eexists; reflexivity].
  destruct (afc_file_write afc dev buffer) as [[dev1 err] bytes_written].
  destruct (negb (err =? AFC_E_SUCCESS)); [do 2 eexists; reflexivity|].
  destruct (Z.eqb_spec bytes_written (len buffer)) as [Hw|Hw]; cbn [negb];
    [|do 2 eexists; reflexivity].
  apply IH; cbn [content fpos]; lia.
Qed.

(** A store entry whose payload is cut off by the end of the archive is
    never reported as extracted: [r_extract_current] returns 0 and leaves
    the entry unconsumed, whatever the device does with the chunks that
    could still be read. *)
Theorem truncated_store_entry_is_not_extracted :
  forall (fuel : nat) (zp : ZipParser) (dev : device_state afc),
    compression zp = COMPRESSION_STORE ->
    0 <= data_start zp -> 0 < comp_size zp ->
    len (content (fp zp)) < data_start zp + comp_size zp ->
    comp_size zp <= 4096 * Z.of_nat fuel ->
    exists f1 dev1,
      r_extract_current zlib afc fuel zp dev = Ret (0, with_fp zp f1, dev1, None).
Proof.
  intros fuel zp dev Hc Hd Hs Hcut Hfuel. unfold r_extract_current.
  rewrite Hc. cbn [Z.eqb COMPRESSION_STORE].
  rewrite fseek_set_nonneg by exact Hd.
  destruct (store_copy_truncated fuel
              {| content := content (fp zp); fpos := data_start zp |}
              dev (comp_size zp) 0) as [f1 [dev1 Hcopy]];
    cbn [content fpos]; try lia.
  rewrite Hcopy. cbn [bind Z.eqb]. do 2 eexists. reflexivity.
Qed.

(** [r_extract_to_buffer] does not check how much of a store entry it
    could read: on the same cut-off entry it returns 1, marks the entry
    consumed and reports the declared compressed size as the length,
    although fewer bytes were stored in the buffer. *)
Theorem truncated_store_entry_is_buffered_as_complete :
  forall (fuel : nat) (zp : ZipParser),
    compression zp = COMPRESSION_STORE ->
    0 <= data_start zp -> 0 < comp_size zp ->
    len (content (fp zp)) < data_start zp + comp_size zp ->
    exists b zp',
      r_extract_to_buffer zlib fuel zp = Ret (1, Some b, comp_size zp, zp', None)
      /\ consumed zp' = true
      /\ bytes b = slice (data_start zp) (comp_size zp) (content (fp zp))
      /\ len (bytes b) < comp_size zp.
Proof.
  intros fuel zp Hc Hd Hs Hcut. unfold r_extract_to_buffer.
  rewrite Hc. cbn [Z.eqb COMPRESSION_STORE].
  rewrite fseek_set_nonneg by exact Hd.
  rewrite fread_spec by (cbn [fpos]; lia). cbn [fpos content].
  do 2 eexists. split; [reflexivity|]. split; [reflexivity|].
  split; [reflexivity|]. cbn [bytes].
  unfold slice. rewrite len_firstn, len_skipn.
  pose proof (len_nonneg (content (fp zp))). lia.
Qed.

(** The inner loop of the deflate branch is left with [Z_STREAM_END] only
    after a write that the device accepted. *)
Lemma extract_inflate_chunk_refused (fuel : nat) :
  refuses_writes afc ->
  forall (strm strm1 : z_stream zlib) (dev dev1 : device_state afc),
    extract_inflate_chunk zlib afc fuel strm dev <> Ret (inr (strm1, Z_STREAM_END, dev1)).
Proof.
  intros Href. induction fuel as [|fuel IH]; intros strm strm1 dev dev1;
    [discriminate|].
  cbn [extract_inflate_chunk].
  destruct (inflate (set_output strm 4096)) as [[s out] code].
  destruct (Z.eqb_spec code Z_STREAM_ERROR) as [->|Hcode].
  - intros H. injection H as _ H _. discriminate.
  - pose proof (Href dev out) as Hr.
    destruct (afc_file_write afc dev out) as [[dev0 err] written].
    cbn [fst snd] in Hr.
    destruct (Z.eqb_spec err AFC_E_SUCCESS); [contradiction|].
    cbn [negb]. discriminate.
Qed.

Lemma extract_inflate_refused (fuel : nat) :
  refuses_writes afc ->
  forall (f : FILE) (strm : z_stream zlib) (dev : device_state afc) (t : Z) r,
    extract_inflate zlib afc fuel f strm dev t <> Ret (inr r).
Proof.
  intros Href. induction fuel as [|fuel IH]; intros f strm dev t r; [discriminate|].
  cbn [extract_inflate].
  destruct (fread 4096 f) as [input f1].
  destruct (extract_inflate_chunk zlib afc fuel (set_input strm input) dev)
    as [[dev0|[[s code] dev0]]| |] eqn:E; cbn [bind]; try discriminate.
  destruct (Z.eqb_spec code Z_STREAM_END) as [->|Hcode].
  - exfalso. exact (extract_inflate_chunk_refused fuel Href _ _ _ _ E).
  - apply IH.
Qed.

(** With a device that refuses every write, [r_extract_current] never
    reports success for an entry that has data to write: a store entry of
    positive size or a deflate entry. *)
Theorem refused_writes_are_never_reported_as_success :
  forall (fuel : nat) (zp zp' : ZipParser) (dev dev' : device_state afc)
         (strm : option (z_stream zlib)),
    refuses_writes afc ->
    (compression zp = COMPRESSION_STORE -> 0 < comp_size zp) ->
    r_extract_current zlib afc fuel zp dev <> Ret (1, zp', dev', strm).
Proof.
  intros fuel zp zp' dev dev' strm Href Hstore. unfold r_extract_current.
  destruct (Z.eqb_spec (compression zp) COMPRESSION_STORE) as [Hc|Hc].
  - pose proof (Hstore Hc) as Hs.
    destruct fuel as [|fuel]; cbn [store_copy];
      (destruct (Z.ltb_spec 0 (comp_size zp)); [|lia]); [discriminate|].
    destruct (fread _ (fseek_set (fp zp) (data_start zp))) as [buffer f1].
    destruct (negb (len buffer =? _)); cbn [bind Z.eqb]; [discriminate|].
    pose proof (Href dev buffer) as Hr.
    destruct (afc_file_write afc dev buffer) as [[dev0 err] written].
    cbn [fst snd] in Hr.
    destruct (Z.eqb_spec err AFC_E_SUCCESS); [contradiction|].
    cbn [negb bind Z.eqb]. discriminate.
  - destruct (compression zp =? COMPRESSION_DEFLATE); [|discriminate].
    destruct (extract_inflate zlib afc fuel _ (inflateInit2 zlib) dev 0)
      as [[[f1 dev0]|r]| |] eqn:E; cbn [bind]; try discriminate.
    exfalso. exact (extract_inflate_refused fuel Href _ _ _ _ _ E).
Qed.

End ExtractionEdgeCases.

Lemma truncated_store_entry_is_not_extracted_witness :
  exists zp1,
    r_zip_get_next_entry StoredDeflate.inflater 1 (r_zip_open archive_truncated)
      = Ret (1, zp1)
    /\ exists f1 dev1,
         r_extract_current StoredDeflate.inflater accepting_device 1 zp1 []
           = Ret (0, with_fp zp1 f1, dev1, None).
Proof.
  eexists. split; [vm_compute; reflexivity|].
  apply (truncated_store_entry_is_not_extracted StoredDeflate.inflater
           accepting_device 1).
  - reflexivity.
  - vm_compute. discriminate.
  - vm_compute. reflexivity.
  - vm_compute. reflexivity.
  - vm_compute. discriminate.
Defined.

Lemma truncated_store_entry_is_buffered_as_complete_witness :
  exists zp1,
    r_zip_get_next_entry StoredDeflate.inflater 1 (r_zip_open archive_truncated)
      = Ret (1, zp1)
    /\ exists b zp',
         r_extract_to_buffer StoredDeflate.inflater 1 zp1
           = Ret (1, Some b, comp_size zp1, zp', None)
         /\ consumed zp' = true
         /\ bytes b = slice (data_start zp1) (comp_size zp1) (content (fp zp1))
         /\ len (bytes b) < comp_size zp1.
Proof.
  eexists. split; [vm_compute; reflexivity|].
  apply (truncated_store_entry_is_buffered_as_complete StoredDeflate.inflater 1).
  - reflexivity.
  - vm_compute. discriminate.
  - vm_compute. reflexivity.
  - vm_compute. reflexivity.
Defined.

Lemma refusing_device_refuses : refuses_writes refusing_device.
Proof. intros st chunk. cbn. discriminate. Qed.

Lemma refused_writes_are_never_reported_as_success_witness :
  exists zp1,
    r_zip_get_next_entry StoredDeflate.inflater 1 (r_zip_open archive_a_b) = Ret (1, zp1)
    /\ forall zp' dev' strm,
         r_extract_current StoredDeflate.inflater refusing_device 1 zp1 []
         <> Ret (1, zp', dev', strm).
Proof.
  eexists. split; [vm_compute; reflexivity|].
  intros zp' dev' strm.
  apply (refused_writes_are_never_reported_as_success StoredDeflate.inflater
           refusing_device 1).
  - exact refusing_device_refuses.
  - intros _. vm_compute. reflexivity.
Defined.

(** ** The memory buffer of the deflate branch *)

Section BufferProperties.

Variable zlib : Inflater.

(** One call of [inflate] produces at most the room it is given and leaves
    [avail_out] at the room that is left. *)
Lemma inflate_output_room (room : Z) (strm strm1 : z_stream zlib)
  (out : list Z) (ret : Z) :
  0 <= room ->
  inflate (set_output strm room) = (strm1, out, ret) ->
  avail_out strm1 = room - len out /\ 0 <= len out <= room.
Proof.
  intros Hroom. unfold inflate. cbn [set_output internal next_in avail_out].
  destruct (inflate_step zlib (internal strm) (next_in strm) room)
    as [[[st n] produced] code].
  intros H. injection H as <- <- _. cbn [avail_out]. split; [reflexivity|].
  rewrite len_firstn. pose proof (len_nonneg produced). lia.
Qed.

Lemma buffer_inflate_chunk_fits (fuel : nat) :
  forall (strm strm1 : z_stream zlib) (buffer buffer1 : membuf)
         (total_size total_size1 ret : Z),
    buffer_fits buffer total_size ->
    buffer_inflate_chunk zlib fuel strm buffer total_size
      = Ret (Some (strm1, ret, buffer1, total_size1)) ->
    buffer_fits buffer1 total_size1.
Proof.
  induction fuel as [|fuel IH];
    intros strm strm1 buffer buffer1 t t1 ret Hfit H; [discriminate|].
  cbn [buffer_inflate_chunk] in H.
  destruct (inflate (set_output strm 4096)) as [[s out] code] eqn:E.
  apply inflate_output_room in E; [|lia]. destruct E as [Eavail Eout].
  destruct (code =? Z_STREAM_ERROR); [discriminate|].
  destruct Hfit as [Hlen [Hle Hmin]].
  assert (Hfit1 : buffer_fits
            {| alloc := if t + (4096 - avail_out s) >? alloc buffer
                        then alloc buffer * 2 else alloc buffer;
               bytes := bytes buffer ++ out |}
            (t + (4096 - avail_out s))).
  { unfold buffer_fits. cbn [alloc bytes]. rewrite len_app, Eavail.
    destruct (Z.gtb_spec (t + (4096 - (4096 - len out))) (alloc buffer)); lia. }
  destruct (avail_out s =? 0).
  - exact (IH _ _ _ _ _ _ _ Hfit1 H).
  - injection H as _ _ <- <-. exact Hfit1.
Qed.

(** The outer loop keeps what the inner loop keeps. *)
Lemma buffer_inflate_fits :
  forall (fuel : nat) (f f1 : FILE) (strm strm1 : z_stream zlib)
         (buffer buffer1 : membuf) (total_size total_size1 : Z),
    buffer_fits buffer total_size ->
    buffer_inflate zlib fuel f strm buffer total_size
      = Ret (f1, Some (strm1, buffer1, total_size1)) ->
    buffer_fits buffer1 total_size1.
Proof.
  induction fuel as [|fuel IH];
    intros f f1 strm strm1 buffer buffer1 t t1 Hfit H; [discriminate|].
  cbn [buffer_inflate] in H.
  destruct (fread 4096 f) as [input f0].
  destruct (buffer_inflate_chunk zlib fuel (set_input strm input) buffer t)
    as [[[[[s code] b] t0]|]| |] eqn:E; cbn [bind] in H; try discriminate.
  apply buffer_inflate_chunk_fits in E; [|exact Hfit].
  destruct (code =? Z_STREAM_END).
  - injection H as _ _ <- <-. exact E.
  - exact (IH _ _ _ _ _ _ _ _ E H).
Qed.

(** The deflate branch of [r_extract_to_buffer] never stores past its
    allocation: through every step of its loops the buffer holds exactly
    [total_size] bytes and [total_size] is at most [alloc_size].  One
    doubling per step is enough, since a step adds at most 4096 bytes and
    the buffer is never smaller than that. *)
Theorem buffer_inflate_stays_within_allocation :
  forall (fuel : nat) (f f1 : FILE) (strm strm1 : z_stream zlib)
         (buffer buffer1 : membuf) (total_size total_size1 : Z),
    buffer_fits buffer total_size ->
    buffer_inflate zlib fuel f strm buffer total_size
      = Ret (f1, Some (strm1, buffer1, total_size1)) ->
    buffer_fits buffer1 total_size1.
Proof.
  intros fuel f f1 strm strm1 buffer buffer1 t t1 Hfit H.
  exact (buffer_inflate_fits fuel f f1 strm strm1 buffer buffer1 t t1 Hfit H).
Qed.


End BufferProperties.

Lemma buffer_inflate_stays_within_allocation_witness :
  exists f1 strm1 buffer1,
    buffer_inflate StoredDeflate.inflater 2
      {| content := archive_deflate_a_b; fpos := 31 |}
      (inflateInit2 StoredDeflate.inflater) {| alloc := 4096; bytes := [] |} 0
    = Ret (f1, Some (strm1, buffer1, 2))
    /\ buffer_fits buffer1 2.
Proof.
  do 3 eexists. split; [vm_compute; reflexivity|].
  eapply (buffer_inflate_stays_within_allocation StoredDeflate.inflater 2
            {| content := archive_deflate_a_b; fpos := 31 |} _
            (inflateInit2 StoredDeflate.inflater) _
            {| alloc := 4096; bytes := [] |} _ 0).
  - unfold buffer_fits. cbn. lia.
  - vm_compute. reflexivity.
Defined.


(** ** The entry name stays a terminated string *)

Lemma fseek_set_content (f : FILE) (off : Z) : content (fseek_set f off) = content f.
Proof. unfold fseek_set. destruct (off <? 0); reflexivity. Qed.

(** The scan changes the stream position and [header_start] only. *)
Lemma scan_changes_position_only (fuel : nat) :
  forall (zp zp' : ZipParser) (r : Z),
    r_zip_skip_until_next_entry fuel zp = Ret (r, zp') ->
    exists f h, zp' = with_header_start (with_fp zp f) h
                /\ content f = content (fp zp).
Proof.
  induction fuel as [|fuel IH]; intros zp zp' r H; [discriminate|].
  cbn [r_zip_skip_until_next_entry] in H.
  destruct (fread BUFFER_SIZE (fp zp)) as [buffer f1] eqn:Er.
  apply fread_advance in Er. destruct Er as [_ Hc].
  destruct (len buffer =? 0).
  - injection H as _ <-. exists f1, (header_start zp). split; [reflexivity | exact Hc].
  - destruct (scan_chunk (S (length buffer)) buffer (len buffer) 0) as [i| | |i];
      try discriminate.
    + injection H as _ <-. do 2 eexists. split; [reflexivity | exact Hc].
    + injection H as _ <-. exists f1, (header_start zp).
      split; [reflexivity | exact Hc].
    + apply IH in H. destruct H as [f [h [-> Hcf]]].
      exists f, h. split; [reflexivity|].
      rewrite Hcf. cbn [fp with_fp]. rewrite fseek_set_content. exact Hc.
Qed.

(** Closing an entry resets the entry state and keeps the archive. *)
Lemma r_close_entry_resets (zl : Inflater) (fuel : nat) (zp zp0 : ZipParser) :
  r_close_entry zl fuel zp = Ret zp0 ->
  exists f, zp0 = r_reset_entry (with_fp zp f) /\ content f = content (fp zp).
Proof.
  unfold r_close_entry.
  destruct (compression zp =? COMPRESSION_DEFLATE).
  - destruct (close_inflate zl fuel _ (inflateInit2 zl) 0) as [[[f1 t] s]| |] eqn:E;
      cbn [bind]; try discriminate.
    apply close_inflate_total_in in E. destruct E as [_ Hc].
    rewrite fseek_set_content in Hc.
    intros H. injection H as <-. eexists. split; [reflexivity|].
    rewrite fseek_set_content. exact Hc.
  - destruct (compression zp =? COMPRESSION_STORE); intros H; injection H as <-.
    + eexists. split; [reflexivity|]. apply fseek_set_content.
    + exists (fp zp). split; reflexivity.
Qed.





(** A NUL at index [n] ends the C string at or before [n]. *)
Lemma cstr_stops_at_nul (l : list Z) :
  forall n : nat, nth n l 1 = 0 -> (length (cstr l) <= n)%nat.
Proof.
  induction l as [|c l IH]; intros n Hn; cbn [cstr length]; [lia|].
  destruct (Z.eqb_spec c 0); cbn [length]; [lia|].
  destruct n as [|n]; cbn [nth] in Hn; [contradiction|].
  specialize (IH n Hn). lia.
Qed.





(** ** Round trips through the header reader and the fetcher *)

Lemma le_decode_encode (n : nat) :
  forall v : Z, 0 <= v < 256 ^ Z.of_nat n -> le_decode (le_encode n v) = v.
Proof.
  induction n as [|n IH]; intros v Hv.
  - cbn in *. lia.
  - cbn [le_encode le_decode]. rewrite IH.
    + pose proof (Z.div_mod v 256). lia.
    + rewrite Nat2Z.inj_succ, Z.pow_succ_r in Hv by lia.
      split; [apply Z.div_pos; lia | apply Z.div_lt_upper_bound; lia].
Qed.

Lemma le16 (v : Z) : 0 <= v < 65536 -> le_decode (le_encode 2 v) = v.
Proof. intros H. apply le_decode_encode. exact H. Qed.

Lemma le32 (v : Z) : 0 <= v < 4294967296 -> le_decode (le_encode 4 v) = v.
Proof. intros H. apply le_decode_encode. exact H. Qed.

Lemma local_file_header_split (flags method csize usize name_len : Z)
  (name extra : list Z) :
  local_file_header flags method csize usize name_len name extra =
    header_bytes flags method csize usize name_len (len extra) ++ name ++ extra.
Proof.
  unfold local_file_header, header_bytes. repeat rewrite <- app_assoc. reflexivity.
Qed.

Lemma length_header_bytes (flags method csize usize name_len extra_len : Z) :
  length (header_bytes flags method csize usize name_len extra_len) = 30%nat.
Proof. reflexivity. Qed.

(** Decoding the 30 header bytes gives back the fields they were made of. *)
Lemma decode_lfh_header_bytes (flags method csize usize name_len extra_len : Z) :
  0 <= flags < 65536 -> 0 <= method < 65536 ->
  0 <= csize < 4294967296 -> 0 <= usize < 4294967296 ->
  0 <= name_len < 65536 -> 0 <= extra_len < 65536 ->
  decode_lfh (header_bytes flags method csize usize name_len extra_len) =
    {| lfh_signature := LOCAL_HEADER_SIGNATURE; lfh_version := 20;
       lfh_flags := flags; lfh_compression := method;
       lfh_mod_time := 0; lfh_mod_date := 0; lfh_crc32 := 0;
       lfh_compressed_size := csize; lfh_uncompressed_size := usize;
       lfh_name_length := name_len; lfh_extra_length := extra_len |}.
Proof.
  intros Hf Hm Hc Hu Hn He. unfold decode_lfh. f_equal.
  - change (slice 6 2 (header_bytes flags method csize usize name_len extra_len))
      with (le_encode 2 flags). apply le16, Hf.
  - change (slice 8 2 (header_bytes flags method csize usize name_len extra_len))
      with (le_encode 2 method). apply le16, Hm.
  - change (slice 18 4 (header_bytes flags method csize usize name_len extra_len))
      with (le_encode 4 csize). apply le32, Hc.
  - change (slice 22 4 (header_bytes flags method csize usize name_len extra_len))
      with (le_encode 4 usize). apply le32, Hu.
  - change (slice 26 2 (header_bytes flags method csize usize name_len extra_len))
      with (le_encode 2 name_len). apply le16, Hn.
  - change (slice 28 2 (header_bytes flags method csize usize name_len extra_len))
      with (le_encode 2 extra_len). apply le16, He.
Qed.
Lemma firstn_exact {A : Type} (l r : list A) : firstn (length l) (l ++ r) = l.
Proof. induction l as [|x l IH]; cbn; [destruct r|rewrite IH]; reflexivity. Qed.

Lemma skipn_exact {A : Type} (l r : list A) : skipn (length l) (l ++ r) = r.
Proof. induction l as [|x l IH]; cbn; [reflexivity | exact IH]. Qed.

Lemma slice_of_app (l r t : list Z) :
  slice (len l) (len r) (l ++ r ++ t) = r.
Proof.
  unfold slice, len. rewrite !Nat2Z.id. rewrite skipn_exact. apply firstn_exact.
Qed.

(** The name stored by the header reader: the name bytes, a NUL, and what
    was in the array behind them. *)
Lemma stored_name (buf name : list Z) :
  store_byte (store_bytes buf name) (len name) 0 =
    name ++ 0 :: skipn (S (length name)) buf.
Proof.
  unfold store_byte, store_bytes, len. rewrite Nat2Z.id.
  rewrite firstn_exact. f_equal. f_equal.
  change (S (length name)) with (1 + length name)%nat.
  rewrite <- !skipn_skipn. rewrite skipn_exact. reflexivity.
Qed.

Lemma cstr_no_nul (s rest : list Z) :
  no_nul s = true -> cstr (s ++ 0 :: rest) = s.
Proof.
  induction s as [|c s IH]; cbn [no_nul forallb app cstr]; intros H.
  - reflexivity.
  - apply andb_true_iff in H. destruct H as [Hc Hs].
    apply negb_true_iff in Hc. rewrite Hc. f_equal. apply IH. exact Hs.
Qed.

Lemma word32_at_header (fl method csize usize name_len : Z)
  (name extra rest : list Z) :
  word32_at (local_file_header fl method csize usize name_len name extra ++ rest) 0
  = LOCAL_HEADER_SIGNATURE.
Proof. reflexivity. Qed.

Lemma len_local_file_header (fl method csize usize name_len : Z)
  (name extra : list Z) :
  len (local_file_header fl method csize usize name_len name extra) =
    SIZEOF_LFH + len name + len extra.
Proof.
  rewrite local_file_header_split, !len_app.
  change (len (header_bytes fl method csize usize name_len (len extra)))
    with SIZEOF_LFH.
  lia.
Qed.

Lemma slice_behind (pre l : list Z) (off n : Z) :
  0 <= off -> slice (len pre + off) n (pre ++ l) = slice off n l.
Proof.
  intros H. unfold slice, len.
  replace (Z.to_nat (Z.of_nat (length pre) + off))
    with (Z.to_nat off + length pre)%nat by lia.
  rewrite <- skipn_skipn, skipn_exact. reflexivity.
Qed.

(** The header reader on an encoded header anywhere in the archive. *)
Lemma read_local_header_encoded_at (zp : ZipParser) (pre : list Z)
  (fl method csize usize : Z) (name extra rest : list Z) :
  content (fp zp) =
    pre ++ local_file_header fl method csize usize (len name) name extra ++ rest ->
  header_start zp = len pre ->
  0 <= fl < 65536 -> 0 <= method < 65536 ->
  0 <= csize < 4294967296 -> 0 <= usize < 4294967296 ->
  len name < SIZEOF_FILENAME -> len extra < 65536 ->
  let deferred := negb (Z.land fl FLAG_DATA_DESCRIPTOR =? 0) && (csize =? 0) in
  read_local_header zp =
    Ret (if (method =? COMPRESSION_STORE) && (fl =? FLAG_DATA_DESCRIPTOR)
         then 0 else 1,
         {| fp := {| content := content (fp zp);
                     fpos := len pre + SIZEOF_LFH + len name + len extra |};
            filename := name ++ 0 :: skipn (S (length name)) (filename zp);
            comp_size := if deferred then 0 else csize;
            uncomp_size := if deferred then uncomp_size zp else usize;
            compression := method;
            name_length := len name;
            extra_length := len extra;
            flags := fl;
            data_start := len pre + SIZEOF_LFH + len name + len extra;
            header_start := len pre;
            consumed := consumed zp |}).
Proof.
  intros Hc Hh Hf Hm Hcs Hus Hn He deferred.
  pose proof (len_nonneg name) as Hn0. pose proof (len_nonneg extra) as He0.
  pose proof (len_nonneg rest) as Hr0. pose proof (len_nonneg pre) as Hp0.
  set (hb := header_bytes fl method csize usize (len name) (len extra)).
  assert (Hsplit : content (fp zp) = pre ++ hb ++ name ++ extra ++ rest).
  { rewrite Hc, local_file_header_split. fold hb. rewrite <- !app_assoc. reflexivity. }
  assert (Hhb : len hb = SIZEOF_LFH) by reflexivity.
  assert (Hlen : len (content (fp zp)) =
                 len pre + SIZEOF_LFH + len name + len extra + len rest).
  { rewrite Hsplit, !len_app, Hhb. lia. }
  assert (Hraw : slice (len pre) SIZEOF_LFH (content (fp zp)) = hb).
  { rewrite Hsplit. rewrite <- (Z.add_0_r (len pre)), slice_behind by lia.
    unfold slice. change (Z.to_nat 0) with 0%nat. cbn [skipn].
    change (Z.to_nat SIZEOF_LFH) with (length hb). apply firstn_exact. }
  assert (Hname : slice (len pre + SIZEOF_LFH) (len name) (content (fp zp)) = name).
  { rewrite Hsplit, slice_behind by (unfold SIZEOF_LFH; lia).
    rewrite <- Hhb. apply slice_of_app. }
  unfold SIZEOF_FILENAME, SIZEOF_LFH in *.
  unfold read_local_header. rewrite Hh.
  rewrite fseek_set_nonneg by lia.
  rewrite fread_spec by (cbn [fpos]; unfold SIZEOF_LFH; lia).
  cbn [fpos content]. change SIZEOF_LFH with 30. rewrite Hraw, Hhb.
  change (30 =? 30) with true. cbn [negb].
  unfold hb. rewrite decode_lfh_header_bytes by lia.
  cbn [lfh_signature lfh_name_length lfh_extra_length lfh_flags lfh_compression
       lfh_compressed_size lfh_uncompressed_size].
  rewrite Z.eqb_refl. cbn [negb].
  rewrite fread_spec by (cbn [fpos]; lia).
  cbn [fpos content].
  replace (len pre + Z.min 30 (Z.max 0 (len (content (fp zp)) - len pre)))
    with (len pre + 30) by lia.
  rewrite Hname.
  unfold SIZEOF_FILENAME.
  destruct (Z.leb_spec 256 (len name)); [lia|].
  unfold fseek_cur, ftell. cbn [fpos].
  rewrite fseek_set_nonneg by lia. cbn [fpos content compression flags].
  rewrite stored_name.
  replace (len pre + 30
           + Z.min (len name) (Z.max 0 (len (content (fp zp)) - (len pre + 30)))
           + len extra)
    with (len pre + 30 + len name + len extra) by lia.
  destruct ((method =? COMPRESSION_STORE) && (fl =? FLAG_DATA_DESCRIPTOR));
    reflexivity.
Qed.

Lemma scan_header_at (fuel : nat) (zp : ZipParser) (pre : list Z)
  (fl method csize usize name_len : Z) (name extra rest : list Z) :
  content (fp zp) =
    pre ++ local_file_header fl method csize usize name_len name extra ++ rest ->
  fpos (fp zp) = len pre ->
  exists f', content f' = content (fp zp) /\
    r_zip_skip_until_next_entry (S fuel) zp =
      Ret (1, with_header_start (with_fp zp f') (len pre)).
Proof.
  intros Hc Hp. pose proof (len_nonneg pre).
  apply scan_finds_first.
  - lia.
  - rewrite Hc, !len_app, len_local_file_header.
    pose proof (len_nonneg name). pose proof (len_nonneg extra).
    pose proof (len_nonneg rest). unfold SIZEOF_LFH. lia.
  - rewrite Hc. unfold word32_at.
    rewrite <- (Z.add_0_r (len pre)), slice_behind by lia. reflexivity.
  - intros j Hj. lia.
  - lia.
Qed.

(** Header round trip: on an archive that begins with a local file header
    built from given fields, the first call of the entry reader records
    exactly these fields, the name as a C string, and leaves the stream at
    the payload start, right behind name and extra field.  The sizes are
    recorded as 0 when the data-descriptor bit is set and the compressed
    size field is 0; the call returns 0 only for a store entry whose flags
    are exactly the data-descriptor bit. *)
Theorem first_header_round_trip :
  forall (zl : Inflater) (fuel : nat) (fl method csize usize : Z)
         (name extra rest : list Z),
    0 <= fl < 65536 -> 0 <= method < 65536 ->
    0 <= csize < 4294967296 -> 0 <= usize < 4294967296 ->
    len name < SIZEOF_FILENAME -> len extra < 65536 ->
    no_nul name = true ->
    let archive :=
      local_file_header fl method csize usize (len name) name extra ++ rest in
    let deferred :=
      negb (Z.land fl FLAG_DATA_DESCRIPTOR =? 0) && (csize =? 0) in
    exists zp1,
      r_zip_get_next_entry zl (S fuel) (r_zip_open archive) =
        Ret (if (method =? COMPRESSION_STORE) && (fl =? FLAG_DATA_DESCRIPTOR)
             then 0 else 1, zp1)
      /\ cstr (filename zp1) = name
      /\ flags zp1 = fl /\ compression zp1 = method
      /\ comp_size zp1 = (if deferred then 0 else csize)
      /\ uncomp_size zp1 = (if deferred then 0 else usize)
      /\ name_length zp1 = len name /\ extra_length zp1 = len extra
      /\ header_start zp1 = 0
      /\ data_start zp1 = SIZEOF_LFH + len name + len extra
      /\ fp zp1 = {| content := archive; fpos := data_start zp1 |}.
Proof.
  intros zl fuel fl method csize usize name extra rest
         Hf Hm Hcs Hus Hn He Hnul archive deferred.
  unfold r_zip_get_next_entry.
  change (negb (consumed (r_zip_open archive))
          && negb (header_start (r_zip_open archive) =? -1)) with false.
  cbn [bind].
  destruct (scan_header_at fuel (r_zip_open archive) []
              fl method csize usize (len name) name extra rest)
    as [f' [Hc' Hscan]]; [reflexivity | reflexivity |].
  rewrite Hscan. cbn [bind]. change (1 =? 0) with false. cbv iota.
  assert (Hr := read_local_header_encoded_at
                  (with_header_start (with_fp (r_zip_open archive) f')
                     (len (@nil Z))) []
                  fl method csize usize name extra rest Hc' eq_refl
                  Hf Hm Hcs Hus Hn He).
  cbv zeta in Hr. rewrite Hr.
  eexists. split; [reflexivity|].
  cbn [filename flags compression comp_size uncomp_size name_length extra_length
       header_start data_start fp with_fp with_header_start].
  split; [apply cstr_no_nul; exact Hnul|].
  repeat (split; [reflexivity|]).
  rewrite Hc'. reflexivity.
Qed.

Lemma first_header_round_trip_witness :
  exists zp1,
    r_zip_get_next_entry StoredDeflate.inflater 1
      (r_zip_open (local_file_header 2056 8 5 7 1 [97] [1; 2] ++ [])) =
      Ret (1, zp1)
    /\ cstr (filename zp1) = [97]
    /\ flags zp1 = 2056 /\ compression zp1 = 8
    /\ comp_size zp1 = 5 /\ uncomp_size zp1 = 7
    /\ name_length zp1 = 1 /\ extra_length zp1 = 2
    /\ header_start zp1 = 0
    /\ data_start zp1 = 33
    /\ fp zp1 = {| content := local_file_header 2056 8 5 7 1 [97] [1; 2] ++ [];
                   fpos := data_start zp1 |}.
Proof.
  apply (first_header_round_trip StoredDeflate.inflater 0 2056 8 5 7 [97] [1; 2] []);
    solve [lia | reflexivity | vm_compute; intuition discriminate].
Defined.

(** ** The fetcher on archives of stored entries *)

(** The buffer extractor on a store entry whose payload lies within the
    archive. *)
Lemma r_extract_to_buffer_stored (zl : Inflater) (fuel : nat) (zp : ZipParser) :
  compression zp = COMPRESSION_STORE ->
  0 <= data_start zp -> 0 <= comp_size zp ->
  data_start zp + comp_size zp <= len (content (fp zp)) ->
  r_extract_to_buffer zl fuel zp =
    Ret (1, Some {| alloc := comp_size zp;
                    bytes := slice (data_start zp) (comp_size zp) (content (fp zp)) |},
         comp_size zp,
         with_consumed
           (with_fp zp {| content := content (fp zp);
                          fpos := data_start zp + comp_size zp |}) true,
         None).
Proof.
  intros Hm Hd Hs Hin. unfold r_extract_to_buffer. rewrite Hm.
  change (COMPRESSION_STORE =? COMPRESSION_STORE) with true. cbv iota.
  rewrite fseek_set_nonneg by exact Hd.
  rewrite fread_spec by (cbn [fpos]; lia).
  cbn [fpos content].
  replace (Z.min (comp_size zp) (Z.max 0 (len (content (fp zp)) - data_start zp)))
    with (comp_size zp) by lia.
  reflexivity.
Qed.

Lemma strncmp_starts_with (prefix : list Z) :
  no_nul prefix = true ->
  forall name tail : list Z,
    (strncmp (name ++ 0 :: tail) prefix (length prefix) =? 0)
    = starts_with name prefix.
Proof.
  induction prefix as [|c q IH]; intros Hq name tail; [reflexivity|].
  cbn [no_nul forallb] in Hq. apply andb_true_iff in Hq. destruct Hq as [Hc Hq].
  apply negb_true_iff in Hc. apply Z.eqb_neq in Hc.
  cbn [length strncmp starts_with]. destruct name as [|d name]; cbn [app hd tl].
  - destruct (Z.eqb_spec 0 c); [lia|]. cbn [negb].
    destruct (Z.eqb_spec (0 - c) 0); [lia | reflexivity].
  - destruct (Z.eqb_spec d c) as [->|Hd]; cbn [negb andb].
    + destruct (Z.eqb_spec c 0); [contradiction|]. apply IH. exact Hq.
    + destruct (Z.eqb_spec (d - c) 0); [lia | reflexivity].
Qed.

Lemma strlen_no_nul (s : list Z) : no_nul s = true -> cstr s = s.
Proof.
  induction s as [|c s IH]; cbn [no_nul forallb cstr]; intros H; [reflexivity|].
  apply andb_true_iff in H. destruct H as [Hc Hs].
  apply negb_true_iff in Hc. rewrite Hc. f_equal. apply IH. exact Hs.
Qed.

(** The entry state does not survive the reset. *)
Lemma r_reset_entry_with_fp (a b : ZipParser) (f : FILE) :
  r_reset_entry (with_fp a f) = r_reset_entry (with_fp b f).
Proof. reflexivity. Qed.

(** The entry reader on a stored entry that begins where the parser is
    about to scan: the entry that is recorded, and the parser is then about
    to scan from the end of its payload. *)
Lemma next_stored_entry (zl : Inflater) (k : nat) (zp : ZipParser)
  (pre n p tail : list Z) :
  content (fp zp) = pre ++ stored_entry n p ++ tail ->
  scans_from zp (len pre) ->
  len n < SIZEOF_FILENAME -> len p < UINT32_MOD ->
  r_zip_get_next_entry zl (S k) zp =
    Ret (1, {| fp := {| content := content (fp zp);
                        fpos := len pre + SIZEOF_LFH + len n |};
               filename := n ++ 0 :: skipn (S (length n))
                                       (repeat 0 (Z.to_nat SIZEOF_FILENAME));
               comp_size := len p; uncomp_size := len p;
               compression := COMPRESSION_STORE; name_length := len n;
               extra_length := 0; flags := 0;
               data_start := len pre + SIZEOF_LFH + len n;
               header_start := len pre; consumed := false |}).
Proof.
  intros Hc [Hcons Hstate] Hn Hp.
  pose proof (len_nonneg pre) as Hpre. pose proof (len_nonneg p) as Hp0.
  unfold UINT32_MOD in Hp.
  assert (Hc2 : content (fp zp) =
                pre ++ local_file_header 0 COMPRESSION_STORE (len p) (len p)
                         (len n) n [] ++ p ++ tail).
  { rewrite Hc. unfold stored_entry. rewrite <- app_assoc. reflexivity. }
  assert (Hread : forall zp0 f',
            content (fp zp0) = content (fp zp) -> content f' = content (fp zp0) ->
            filename zp0 = repeat 0 (Z.to_nat SIZEOF_FILENAME) ->
            consumed zp0 = false ->
            read_local_header (with_header_start (with_fp zp0 f') (len pre)) =
              Ret (1, {| fp := {| content := content (fp zp);
                                  fpos := len pre + SIZEOF_LFH + len n |};
                         filename := n ++ 0 :: skipn (S (length n))
                                                 (repeat 0 (Z.to_nat SIZEOF_FILENAME));
                         comp_size := len p; uncomp_size := len p;
                         compression := COMPRESSION_STORE; name_length := len n;
                         extra_length := 0; flags := 0;
                         data_start := len pre + SIZEOF_LFH + len n;
                         header_start := len pre; consumed := false |})).
  { intros zp0 f' Hc0 Hc' Hname Hcons0.
    assert (Hc3 : content (fp (with_header_start (with_fp zp0 f') (len pre))) =
                  pre ++ local_file_header 0 COMPRESSION_STORE (len p) (len p)
                           (len n) n [] ++ p ++ tail).
    { cbn [fp with_fp with_header_start]. rewrite Hc', Hc0. exact Hc2. }
    rewrite (read_local_header_encoded_at
               (with_header_start (with_fp zp0 f') (len pre)) pre
               0 COMPRESSION_STORE (len p) (len p) n [] (p ++ tail) Hc3 eq_refl);
      try (unfold COMPRESSION_STORE, SIZEOF_FILENAME in *;
           change (len (@nil Z)) with 0; lia).
    cbn [fp with_fp with_header_start filename consumed].
    rewrite Hc', Hc0, Hname, Hcons0.
    change (len (@nil Z)) with 0. rewrite !Z.add_0_r. reflexivity. }
  unfold r_zip_get_next_entry. rewrite Hcons.
  destruct Hstate as [(Hh & Hpos & Hname) | (Hh & Hm & Hd)].
  - rewrite Hh. change (negb false && negb (-1 =? -1)) with false. cbn [bind].
    destruct (scan_header_at k zp pre 0 COMPRESSION_STORE (len p) (len p) (len n)
                n [] (p ++ tail)) as [f' [Hc' Hscan]]; [exact Hc2 | exact Hpos |].
    rewrite Hscan. cbn [bind]. change (1 =? 0) with false. cbv iota.
    apply Hread; [reflexivity | exact Hc' | exact Hname | exact Hcons].
  - destruct (Z.eqb_spec (header_start zp) (-1)); [lia|]. cbn [negb andb].
    unfold r_close_entry. rewrite Hm.
    change (COMPRESSION_STORE =? COMPRESSION_DEFLATE) with false.
    change (COMPRESSION_STORE =? COMPRESSION_STORE) with true. cbv iota.
    rewrite Hd, fseek_set_nonneg by lia. cbn [bind].
    set (zp0 := r_reset_entry
                  (with_fp zp {| content := content (fp zp); fpos := len pre |})).
    destruct (scan_header_at k zp0 pre 0 COMPRESSION_STORE (len p) (len p) (len n)
                n [] (p ++ tail)) as [f' [Hc' Hscan]]; [exact Hc2 | reflexivity |].
    rewrite Hscan. cbn [bind]. change (1 =? 0) with false. cbv iota.
    apply Hread; [reflexivity | exact Hc' | reflexivity | reflexivity].
Qed.

(** One round of the fetcher's loop. *)
Lemma get_content_loop_round (zl : Inflater) (fuel : nat) (zp : ZipParser)
  (file_name : list Z) :
  get_content_loop zl (S fuel) zp file_name =
    ('(more, zp1) <- r_zip_get_next_entry zl fuel zp ;;
     if more =? 0 then Ret (0, None, 0, r_reset_entry zp1)
     else if strncmp (filename zp1) file_name (Z.to_nat (strlen file_name)) =? 0 then
       if negb (uncomp_size zp1 =? 0) then
         if uncomp_size zp1 >? MAX_CONTENT_SIZE
         then Ret (-1, None, 0, r_reset_entry zp1)
         else
           '(_, buffer, size, zp2, _) <- r_extract_to_buffer zl fuel zp1 ;;
           Ret (0, buffer, size mod UINT32_MOD, r_reset_entry zp2)
       else
         '(_, buffer, size, zp2, _) <- r_extract_to_buffer zl fuel zp1 ;;
         if size >? MAX_CONTENT_SIZE
         then Ret (-1, buffer, 0, r_reset_entry zp2)
         else Ret (0, buffer, size mod UINT32_MOD, r_reset_entry zp2)
     else get_content_loop zl fuel zp1 file_name).
Proof. reflexivity. Qed.

Lemma len_stored_entry (n p : list Z) :
  len (stored_entry n p) = SIZEOF_LFH + len n + len p.
Proof.
  unfold stored_entry. rewrite len_app, len_local_file_header.
  change (len (@nil Z)) with 0. lia.
Qed.

(** The loop of the fetcher over stored entries. *)
Lemma get_content_loop_stored (zl : Inflater) (fuel : nat)
  (file_name name payload rest : list Z) :
  no_nul file_name = true ->
  len name < SIZEOF_FILENAME -> starts_with name file_name = true ->
  len payload <= MAX_CONTENT_SIZE ->
  forall (before : list (list Z * list Z)) (pre : list Z) (zp : ZipParser),
    Forall (fun e => len (fst e) < SIZEOF_FILENAME /\ len (snd e) < UINT32_MOD
                     /\ starts_with (fst e) file_name = false) before ->
    content (fp zp) =
      pre ++ stored_entries before ++ stored_entry name payload ++ rest ->
    scans_from zp (len pre) ->
    get_content_loop zl (S (S (length before + fuel))) zp file_name =
      Ret (0, Some {| alloc := len payload; bytes := payload |}, len payload,
           r_reset_entry
             (with_fp zp {| content := content (fp zp);
                            fpos := len pre + len (stored_entries before)
                                    + SIZEOF_LFH + len name + len payload |})).
Proof.
  intros Hq Hn Hsw Hp.
  assert (Hlenq : Z.to_nat (strlen file_name) = length file_name).
  { unfold strlen, len. rewrite strlen_no_nul by exact Hq. apply Nat2Z.id. }
  induction before as [|[n p] before IH]; intros pre zp Hall Hc Hfrom.
  - cbn [stored_entries flat_map app length Nat.add] in *.
    change (len (@nil Z)) with 0. rewrite Z.add_0_r.
    pose proof (len_nonneg pre) as Hpre. pose proof (len_nonneg payload) as Hp0.
    pose proof (len_nonneg name) as Hn0. pose proof (len_nonneg rest) as Hr0.
    unfold MAX_CONTENT_SIZE in Hp.
    rewrite get_content_loop_round.
    rewrite (next_stored_entry zl fuel zp pre name payload rest Hc Hfrom Hn)
      by (unfold UINT32_MOD; lia).
    cbn [bind]. change (1 =? 0) with false. cbv iota.
    rewrite Hlenq. cbn [filename]. rewrite strncmp_starts_with by exact Hq.
    rewrite Hsw. cbv iota. cbn [uncomp_size].
    assert (Hlen : len (content (fp zp)) =
                   len pre + 30 + len name + len payload + len rest).
    { rewrite Hc, !len_app, len_stored_entry. unfold SIZEOF_LFH. lia. }
    assert (Hdata : slice (len pre + SIZEOF_LFH + len name) (len payload)
                      (content (fp zp)) = payload).
    { rewrite Hc. rewrite <- Z.add_assoc.
      rewrite slice_behind by (unfold SIZEOF_LFH; lia).
      unfold stored_entry. rewrite <- app_assoc.
      replace (SIZEOF_LFH + len name)
        with (len (local_file_header 0 COMPRESSION_STORE (len payload)
                     (len payload) (len name) name []))
        by (rewrite len_local_file_header; change (len (@nil Z)) with 0; lia).
      apply slice_of_app. }
    rewrite r_extract_to_buffer_stored;
      cbn [compression data_start comp_size fp content];
      try reflexivity; try (unfold SIZEOF_LFH; lia).
    rewrite Hdata. cbn [bind].
    rewrite Z.mod_small by (unfold UINT32_MOD; lia).
    unfold MAX_CONTENT_SIZE.
    destruct (len payload =? 0); cbn [negb];
      (destruct (Z.gtb_spec (len payload) 10485760); [lia|]); reflexivity.
  - inversion Hall as [|e l [Hn1 [Hp1 Hsw1]] Hall']; subst. cbn [fst snd] in *.
    cbn [stored_entries flat_map fst snd] in Hc. fold (stored_entries before) in Hc.
    rewrite <- app_assoc in Hc.
    pose proof (len_nonneg pre) as Hpre. pose proof (len_nonneg p) as Hp0.
    pose proof (len_nonneg n) as Hn0.
    cbn [length Nat.add]. rewrite get_content_loop_round.
    rewrite (next_stored_entry zl _ zp pre n p _ Hc Hfrom Hn1 Hp1).
    cbn [bind]. change (1 =? 0) with false. cbv iota.
    rewrite Hlenq. cbn [filename]. rewrite strncmp_starts_with by exact Hq.
    rewrite Hsw1. cbv iota.
    rewrite (IH (pre ++ stored_entry n p)); cbn [fp content]; try assumption.
    + f_equal. f_equal.
      rewrite (r_reset_entry_with_fp _ zp). f_equal. f_equal. f_equal.
      cbn [stored_entries flat_map fst snd]. fold (stored_entries before).
      rewrite !len_app. lia.
    + rewrite Hc, <- !app_assoc. reflexivity.
    + split; [reflexivity|]. right.
      cbn [header_start compression data_start comp_size].
      rewrite len_app, len_stored_entry. repeat split; lia.
Qed.

(** Fetch round trip: in an archive of stored entries, [r_get_content]
    hands back the payload of the first entry whose name begins with the
    name asked for, and its length, whatever the parser state before the
    call, whatever the payloads of the entries before it contain and
    whatever follows the entry.  It leaves a reset entry state with the
    stream behind that payload. *)
Theorem fetch_finds_first_matching_stored_entry :
  forall (zl : Inflater) (fuel : nat) (zp : ZipParser)
         (before : list (list Z * list Z)) (file_name name payload rest : list Z),
    content (fp zp) =
      stored_entries before ++ stored_entry name payload ++ rest ->
    no_nul file_name = true ->
    Forall (fun e => len (fst e) < SIZEOF_FILENAME /\ len (snd e) < UINT32_MOD
                     /\ starts_with (fst e) file_name = false) before ->
    len name < SIZEOF_FILENAME -> starts_with name file_name = true ->
    len payload <= MAX_CONTENT_SIZE ->
    r_get_content zl (S (S (length before + fuel))) zp file_name =
      Ret (0, Some {| alloc := len payload; bytes := payload |}, len payload,
           r_reset_entry
             (with_fp zp {| content := content (fp zp);
                            fpos := len (stored_entries before) + SIZEOF_LFH
                                    + len name + len payload |})).
Proof.
  intros zl fuel zp before q name payload rest Hc Hq Hall Hn Hsw Hp.
  unfold r_get_content.
  rewrite (get_content_loop_stored zl fuel q name payload rest Hq Hn Hsw Hp
             before [] (r_reset_entry zp) Hall Hc); [reflexivity|].
  split; [reflexivity|]. right.
  cbn [header_start compression data_start comp_size r_reset_entry].
  split; [lia|]. split; reflexivity.
Qed.

Lemma fetch_finds_first_matching_stored_entry_witness :
  r_get_content StoredDeflate.inflater (S (S (1 + 0))) (r_zip_open archive_a_b) [98] =
    Ret (0, Some {| alloc := len [120]; bytes := [120] |}, len [120],
         r_reset_entry
           (with_fp (r_zip_open archive_a_b)
              {| content := content (fp (r_zip_open archive_a_b));
                 fpos := len (stored_entries [([97], [104; 105])]) + SIZEOF_LFH
                         + len [98] + len [120] |})).
Proof.
  apply (fetch_finds_first_matching_stored_entry StoredDeflate.inflater 0
           (r_zip_open archive_a_b) [([97], [104; 105])] [98] [98] [120]
           central_directory).
  - vm_compute. reflexivity.
  - reflexivity.
  - constructor; [|constructor]. vm_compute. intuition discriminate.
  - vm_compute. reflexivity.
  - reflexivity.
  - vm_compute. discriminate.
Defined.

(** ** The app directory in archives of stored entries *)

(** One round of the loop of [r_get_app_directory]. *)
Lemma r_get_app_directory_round (zl : Inflater) (fuel : nat) (zp : ZipParser)
  (path : option (list Z)) :
  r_get_app_directory zl (S fuel) zp path =
    ('(more, zp1) <- r_zip_get_next_entry zl fuel zp ;;
     if more =? 0 then
       Ret (match path with None => -1 | Some _ => 0 end, path, zp1)
     else
       let name := filename zp1 in
       let len0 := strlen name in
       if (strncmp name PAYLOAD_PREFIX 8 =? 0) && (len0 >? 8) then
         if nth 8 name 0 =? 46 then r_get_app_directory zl fuel zp1 path
         else
           match find_slash (length name) name 8 with
           | None => Undefined BufferOverread
           | Some p =>
               let len1 := Z.of_nat p + 1 in
               if (len1 <? 12) || negb (strncmp (skipn (p - 4) name) DOT_APP 4 =? 0)
               then r_get_app_directory zl fuel zp1 path
               else Ret (0, Some (strncpy name len1 ++ [0]), zp1)
           end
       else r_get_app_directory zl fuel zp1 path).
Proof. reflexivity. Qed.

(** The search for the slash stops at the first one. *)
Lemma find_slash_first (d : list Z) :
  forall (a b : list Z) (n : nat),
    forallb (fun c => negb (c =? 47)) d = true -> (length d < n)%nat ->
    find_slash n (a ++ d ++ 47 :: b) (length a) = Some (length a + length d)%nat.
Proof.
  induction d as [|c d IH]; intros a b n Hd Hn.
  - destruct n as [|n]; [cbn in Hn; lia|]. cbn [find_slash app].
    rewrite nth_error_app2 by lia. rewrite Nat.sub_diag. cbn [nth_error].
    change (47 =? 47) with true. cbv iota. f_equal. cbn [length]. lia.
  - cbn [forallb] in Hd. apply andb_true_iff in Hd. destruct Hd as [Hc Hd].
    apply negb_true_iff in Hc.
    destruct n as [|n]; [cbn in Hn; lia|]. cbn [find_slash app].
    rewrite nth_error_app2 by lia. rewrite Nat.sub_diag. cbn [nth_error].
    rewrite Hc.
    replace (a ++ c :: d ++ 47 :: b) with ((a ++ [c]) ++ d ++ 47 :: b)
      by (rewrite <- app_assoc; reflexivity).
    replace (S (length a)) with (length (a ++ [c]))
      by (rewrite length_app; cbn [length]; lia).
    rewrite IH by (cbn [length] in Hn; first [exact Hd | lia]).
    f_equal. rewrite length_app. cbn [length]. lia.
Qed.

Lemma strncpy_no_nul (s rest : list Z) :
  no_nul s = true -> strncpy (s ++ rest) (len s) = s.
Proof.
  intros Hs. unfold strncpy, len. rewrite Nat2Z.id.
  assert (E : firstn (length s) (cstr (s ++ rest)) = s).
  { clear -Hs. induction s as [|c s IH]; [reflexivity|].
    cbn [no_nul forallb] in Hs. apply andb_true_iff in Hs. destruct Hs as [Hc Hs].
    apply negb_true_iff in Hc. cbn [app cstr length]. rewrite Hc.
    cbn [firstn]. f_equal. apply IH. exact Hs. }
  rewrite E, Nat.sub_diag. apply app_nil_r.
Qed.

Lemma no_nul_app (a b : list Z) : no_nul (a ++ b) = no_nul a && no_nul b.
Proof. apply forallb_app. Qed.

Lemma nth_of_name (name tail : list Z) (i : nat) :
  (i < length name)%nat -> nth i (name ++ tail) 0 = nth i name 0.
Proof. intros H. apply app_nth1. exact H. Qed.

Lemma cstr_covers_prefix (s t : list Z) :
  no_nul s = true -> (length s <= length (cstr (s ++ t)))%nat.
Proof.
  induction s as [|x s IH]; intros H; [cbn; lia|].
  cbn [no_nul forallb] in H. apply andb_true_iff in H. destruct H as [Hx Hs].
  apply negb_true_iff in Hx. cbn [app cstr]. rewrite Hx. cbn [length].
  specialize (IH Hs). lia.
Qed.

(** The locator passes over the names that [passed_over] describes. *)
Lemma locator_passes_over (name tail : list Z) :
  passed_over name = true ->
  let fname := name ++ 0 :: tail in
  (strncmp fname PAYLOAD_PREFIX 8 =? 0) && (strlen fname >? 8)
  && negb (nth 8 fname 0 =? 46) = false.
Proof.
  intros H fname. unfold passed_over in H.
  assert (Hs : (strncmp fname PAYLOAD_PREFIX 8 =? 0) = starts_with name PAYLOAD_PREFIX).
  { unfold fname. apply (strncmp_starts_with PAYLOAD_PREFIX eq_refl). }
  rewrite Hs. destruct (starts_with name PAYLOAD_PREFIX); [|reflexivity].
  cbn [negb orb andb] in *.
  assert (Hlen : strlen fname <= len name).
  { unfold strlen, len, fname. apply inj_le. apply cstr_stops_at_nul.
    rewrite app_nth2 by lia. rewrite Nat.sub_diag. reflexivity. }
  apply orb_true_iff in H. destruct H as [H|H].
  - apply Z.leb_le in H. destruct (Z.gtb_spec (strlen fname) 8); [lia | reflexivity].
  - destruct (Z.gtb_spec (strlen fname) 8) as [Hgt|_]; [|reflexivity].
    cbn [andb]. unfold fname. rewrite nth_of_name by (unfold len in *; lia).
    rewrite H. reflexivity.
Qed.

(** The loop of the locator over stored entries. *)
Lemma app_directory_loop_stored (zl : Inflater) (fuel : nat)
  (dir file payload rest : list Z) (path : option (list Z)) :
  let bundle := PAYLOAD_PREFIX ++ dir ++ DOT_APP ++ [47] in
  let name := bundle ++ file in
  len name < SIZEOF_FILENAME -> len payload < UINT32_MOD ->
  no_nul dir = true -> forallb (fun c => negb (c =? 47)) dir = true ->
  negb (hd 46 dir =? 46) = true ->
  forall (before : list (list Z * list Z)) (pre : list Z) (zp : ZipParser),
    Forall (fun e => len (fst e) < SIZEOF_FILENAME /\ len (snd e) < UINT32_MOD
                     /\ passed_over (fst e) = true) before ->
    content (fp zp) =
      pre ++ stored_entries before ++ stored_entry name payload ++ rest ->
    scans_from zp (len pre) ->
    exists zp',
      r_get_app_directory zl (S (S (length before + fuel))) zp path =
        Ret (0, Some (bundle ++ [0]), zp').
Proof.
  intros bundle name Hn Hp Hnul Hslash Hdot.
  induction before as [|[n p] before IH]; intros pre zp Hall Hc Hfrom.
  - cbn [stored_entries flat_map app length Nat.add] in *.
    rewrite r_get_app_directory_round.
    rewrite (next_stored_entry zl fuel zp pre name payload rest Hc Hfrom Hn Hp).
    cbn [bind]. change (1 =? 0) with false. cbv iota zeta. cbn [filename].
    set (tail := skipn (S (length name)) (repeat 0 (Z.to_nat SIZEOF_FILENAME))).
    set (fname := name ++ 0 :: tail).
    assert (Hd : exists c dir', dir = c :: dir' /\ c <> 46).
    { destruct dir as [|c dir']; [discriminate|]. exists c, dir'.
      split; [reflexivity|]. cbn [hd] in Hdot. apply negb_true_iff in Hdot.
      apply Z.eqb_neq. exact Hdot. }
    destruct Hd as (c & dir' & Edir & Hc46).
    assert (Hpre : (strncmp fname PAYLOAD_PREFIX 8 =? 0) = true).
    { unfold fname. rewrite (strncmp_starts_with PAYLOAD_PREFIX eq_refl).
      reflexivity. }
    assert (Hbn : no_nul bundle = true)
      by (unfold bundle; rewrite !no_nul_app, Hnul; reflexivity).
    assert (Hlen : strlen fname > 8).
    { unfold fname, name. rewrite <- app_assoc.
      unfold strlen.
      pose proof (cstr_covers_prefix bundle (file ++ 0 :: tail) Hbn) as Hge.
      unfold len. unfold bundle in Hge at 1. rewrite !length_app in Hge.
      rewrite Edir in Hge. cbn [length PAYLOAD_PREFIX DOT_APP] in Hge. lia. }
    rewrite Hpre. destruct (Z.gtb_spec (strlen fname) 8); [|lia]. cbn [andb].
    assert (H8 : nth 8 fname 0 = c).
    { unfold fname, name, bundle. rewrite Edir. reflexivity. }
    rewrite H8. destruct (Z.eqb_spec c 46); [contradiction|].
    assert (Hshape : fname =
                     PAYLOAD_PREFIX ++ (dir ++ DOT_APP) ++ 47 :: (file ++ 0 :: tail)).
    { unfold fname, name, bundle. rewrite <- !app_assoc. reflexivity. }
    assert (Hfs : find_slash (length fname) fname 8 =
                  Some (8 + length (dir ++ DOT_APP))%nat).
    { rewrite Hshape.
      apply (find_slash_first (dir ++ DOT_APP) PAYLOAD_PREFIX).
      - rewrite forallb_app, Hslash. reflexivity.
      - rewrite !length_app. cbn [length]. lia. }
    rewrite Hfs.
    assert (Hskip : skipn (8 + length (dir ++ DOT_APP) - 4) fname =
                    DOT_APP ++ 47 :: file ++ 0 :: tail).
    { replace (8 + length (dir ++ DOT_APP) - 4)%nat
        with (length (PAYLOAD_PREFIX ++ dir))
        by (rewrite !length_app; cbn [length PAYLOAD_PREFIX DOT_APP]; lia).
      replace fname
        with ((PAYLOAD_PREFIX ++ dir) ++ DOT_APP ++ 47 :: file ++ 0 :: tail)
        by (rewrite Hshape, <- !app_assoc; reflexivity).
      apply skipn_exact. }
    rewrite Hskip.
    change (strncmp (DOT_APP ++ 47 :: file ++ 0 :: tail) DOT_APP 4) with 0.
    change (negb (0 =? 0)) with false. rewrite orb_false_r.
    assert (Hl1 : Z.of_nat (8 + length (dir ++ DOT_APP)) + 1 = len bundle).
    { unfold bundle, len. rewrite !length_app. cbn [length PAYLOAD_PREFIX DOT_APP]. lia. }
    rewrite Hl1.
    destruct (Z.ltb_spec (len bundle) 12) as [Hlt|_].
    { unfold bundle, len in Hlt. rewrite !length_app in Hlt.
      cbn [length PAYLOAD_PREFIX DOT_APP] in Hlt. lia. }
    eexists. f_equal. f_equal. f_equal. f_equal. f_equal.
    unfold fname, name. rewrite <- app_assoc. apply strncpy_no_nul. exact Hbn.
  - inversion Hall as [|e l [Hn1 [Hp1 Hsk]] Hall']; subst. cbn [fst snd] in *.
    cbn [stored_entries flat_map fst snd] in Hc. fold (stored_entries before) in Hc.
    rewrite <- app_assoc in Hc.
    cbn [length Nat.add]. rewrite r_get_app_directory_round.
    rewrite (next_stored_entry zl _ zp pre n p _ Hc Hfrom Hn1 Hp1).
    cbn [bind]. change (1 =? 0) with false. cbv iota zeta. cbn [filename].
    pose proof (locator_passes_over n
                  (skipn (S (length n)) (repeat 0 (Z.to_nat SIZEOF_FILENAME))) Hsk)
      as Hpass. cbv zeta in Hpass.
    assert (Hgo : forall (A : Type) (x y : A) (b1 b2 b3 : bool),
              b1 && b2 && negb b3 = false ->
              (if b1 && b2 then if b3 then x else y else x) = x).
    { intros A x y [] [] []; cbn; congruence. }
    rewrite Hgo by exact Hpass.
    apply (IH (pre ++ stored_entry n p)); cbn [fp content]; try assumption.
    + rewrite Hc, <- !app_assoc. reflexivity.
    + split; [reflexivity|]. right.
      cbn [header_start compression data_start comp_size].
      pose proof (len_nonneg pre). pose proof (len_nonneg n). pose proof (len_nonneg p).
      rewrite len_app, len_stored_entry. repeat split; lia.
Qed.

(** The app directory of an archive of stored entries: when the entries
    that come first are not under [Payload/] or are hidden, and the next
    entry is [Payload/<dir>.app/<file>] with a directory name without slash
    that does not begin with a dot, [r_get_app_directory] returns 0 with
    [Payload/<dir>.app/] as the path, from a freshly opened parser as well
    as from the state that a content fetch leaves. *)
Theorem app_directory_of_first_bundle :
  forall (zl : Inflater) (fuel : nat) (zp : ZipParser)
         (before : list (list Z * list Z)) (dir file payload rest : list Z)
         (path : option (list Z)),
    let bundle := PAYLOAD_PREFIX ++ dir ++ DOT_APP ++ [47] in
    content (fp zp) =
      stored_entries before ++ stored_entry (bundle ++ file) payload ++ rest ->
    scans_from zp 0 ->
    Forall (fun e => len (fst e) < SIZEOF_FILENAME /\ len (snd e) < UINT32_MOD
                     /\ passed_over (fst e) = true) before ->
    len (bundle ++ file) < SIZEOF_FILENAME -> len payload < UINT32_MOD ->
    no_nul dir = true -> forallb (fun c => negb (c =? 47)) dir = true ->
    negb (hd 46 dir =? 46) = true ->
    exists zp',
      r_get_app_directory zl (S (S (length before + fuel))) zp path =
        Ret (0, Some (bundle ++ [0]), zp').
Proof.
  intros zl fuel zp before dir file payload rest path bundle
         Hc Hfrom Hall Hn Hp Hnul Hslash Hdot.
  exact (app_directory_loop_stored zl fuel dir file payload rest path
           Hn Hp Hnul Hslash Hdot before [] zp Hall Hc Hfrom).
Qed.

Lemma app_directory_of_first_bundle_witness :
  exists zp',
    r_get_app_directory StoredDeflate.inflater (S (S (1 + 0)))
      (r_zip_open archive_app_bundles) None =
      Ret (0, Some ((PAYLOAD_PREFIX ++ chars "Foo" ++ DOT_APP ++ [47]) ++ [0]), zp').
Proof.
  apply (app_directory_of_first_bundle StoredDeflate.inflater 0
           (r_zip_open archive_app_bundles)
           [(chars "Payload/.hidden/foo", [])] (chars "Foo") (chars "bin") [1]
           (stored_entry (chars "Payload/Bar.app/bin") [2] ++ central_directory)
           None).
  - vm_compute. reflexivity.
  - split; [reflexivity|]. left. repeat split; reflexivity.
  - constructor; [|constructor]. vm_compute. intuition discriminate.
  - vm_compute. reflexivity.
  - vm_compute. reflexivity.
  - reflexivity.
  - reflexivity.
  - reflexivity.
Defined.

(** ** The upload of a file *)

Lemma len_slice_clamped (pos n : Z) (l : list Z) :
  0 <= pos -> 0 <= n ->
  len (slice pos n l) = Z.min n (Z.max 0 (len l - pos)).
Proof.
  intros Hp Hn. unfold slice. rewrite len_firstn, len_skipn. lia.
Qed.

Lemma slice_clamp (pos n : Z) (l : list Z) :
  0 <= pos -> 0 <= n ->
  slice pos n l = slice pos (Z.min n (Z.max 0 (len l - pos))) l.
Proof.
  intros Hp Hn. unfold slice.
  assert (Ht : len (skipn (Z.to_nat pos) l) = Z.max 0 (len l - pos))
    by (rewrite len_skipn; lia).
  set (t := skipn (Z.to_nat pos) l) in *.
  destruct (Z.le_gt_cases n (Z.max 0 (len l - pos))) as [H|H].
  - rewrite Z.min_l by exact H. reflexivity.
  - rewrite Z.min_r by lia. unfold len in *.
    rewrite !firstn_all2 by lia. reflexivity.
Qed.

Lemma slice_all (l : list Z) : slice 0 (len l) l = l.
Proof.
  unfold slice, len. rewrite Nat2Z.id. change (Z.to_nat 0) with 0%nat.
  cbn [skipn]. apply firstn_all.
Qed.

(** A device that accepts every chunk takes a chunk in one write. *)
Lemma upload_chunk_accepting (fuel : nat) (dev buf : list Z) :
  0 < len buf <= UPLOAD_BUFFER_SIZE ->
  upload_chunk accepting_device (S fuel) dev buf (len buf) 0 =
    Ret (len buf, dev ++ buf).
Proof.
  intros H. unfold UPLOAD_BUFFER_SIZE in H. cbn [upload_chunk].
  destruct (Z.ltb_spec 0 (len buf)); [|lia].
  cbn [accepting_device afc_file_write].
  change (AFC_E_SUCCESS =? AFC_E_SUCCESS) with true. cbn [negb].
  rewrite Z.add_0_l, Z.mod_mod by (unfold UINT32_MOD; lia).
  rewrite Z.mod_small by (unfold UINT32_MOD; lia).
  destruct fuel; cbn [upload_chunk]; rewrite Z.ltb_irrefl; reflexivity.
Qed.

Lemma upload_loop_accepting (fuel : nat) :
  forall (f : FILE) (dev : list Z),
    0 <= fpos f <= len (content f) ->
    len (content f) - fpos f <= UPLOAD_BUFFER_SIZE * (Z.of_nat fuel - 1) ->
    upload_loop accepting_device fuel f dev =
      Ret (0, {| content := content f; fpos := len (content f) |},
           dev ++ slice (fpos f) (len (content f) - fpos f) (content f)).
Proof.
  unfold UPLOAD_BUFFER_SIZE.
  induction fuel as [|fuel IH]; intros f dev Hpos Hfuel; [lia|].
  cbn [upload_loop]. rewrite fread_spec by (unfold UPLOAD_BUFFER_SIZE; lia).
  unfold UPLOAD_BUFFER_SIZE.
  rewrite len_slice_clamped by lia.
  set (amount := Z.min 1048576 (Z.max 0 (len (content f) - fpos f))).
  destruct (Z.gtb_spec amount 0) as [Hgt|Hle].
  - assert (Hbuf : len (slice (fpos f) 1048576 (content f)) = amount)
      by (apply len_slice_clamped; lia).
    destruct fuel as [|fuel]; [lia|].
    rewrite <- Hbuf at 1.
    rewrite upload_chunk_accepting by (unfold UPLOAD_BUFFER_SIZE; lia).
    cbn [bind]. rewrite Hbuf, Z.eqb_refl. cbn [negb].
    rewrite IH by (cbn [content fpos]; lia).
    cbn [content fpos]. rewrite <- app_assoc. f_equal. f_equal. f_equal.
    rewrite (slice_clamp (fpos f) 1048576) by lia. fold amount.
    replace (len (content f) - (fpos f + amount))
      with (len (content f) - fpos f - amount) by lia.
    rewrite <- slice_split by lia. f_equal. lia.
  - assert (E : len (content f) - fpos f = 0) by lia.
    rewrite E, slice_empty, app_nil_r.
    replace amount with 0 by lia. rewrite Z.add_0_r.
    replace (len (content f)) with (fpos f) by lia. reflexivity.
Qed.

(** Upload round trip: when the remote file opens and the device accepts
    every chunk, [afc_upload_file] returns 0 and the device has received
    exactly the bytes of the local file, in their order, whatever its
    size. *)
Theorem upload_round_trip :
  forall (fuel : nat) (data dev dstfn : list Z),
    len data <= UPLOAD_BUFFER_SIZE * (Z.of_nat fuel - 1) ->
    afc_upload_file accepting_device (always_open accepting_device) fuel
      (Some data) dev dstfn = Ret (0, dev ++ data).
Proof.
  intros fuel data dev dstfn Hfuel. unfold afc_upload_file.
  cbn [always_open afc_file_open afc_file_close].
  change (negb (AFC_E_SUCCESS =? AFC_E_SUCCESS) || (1 =? 0)) with false. cbv iota.
  pose proof (len_nonneg data).
  rewrite upload_loop_accepting by (cbn [content fpos]; lia).
  cbn [bind content fpos]. rewrite Z.sub_0_r, slice_all. reflexivity.
Qed.

Lemma upload_round_trip_witness :
  afc_upload_file accepting_device (always_open accepting_device) 2
    (Some [104; 105]) [1] [47; 97] = Ret (0, [1] ++ [104; 105]).
Proof.
  apply (upload_round_trip 2 [104; 105] [1] [47; 97]). vm_compute. discriminate.
Defined.

(** A write error ends the upload with -1: when the device refuses every
    write, the upload of a file that is not empty never returns 0. *)
Theorem upload_reports_write_error :
  forall (afc : Device) (files : FileService afc),
    refuses_writes afc ->
    forall (fuel : nat) (data : list Z) (dev : device_state afc) (dstfn : list Z),
      data <> [] ->
      exists dev',
        afc_upload_file afc files (S (S fuel)) (Some data) dev dstfn = Ret (-1, dev').
Proof.
  intros afc files Href fuel data dev dstfn Hdata. unfold afc_upload_file.
  destruct (afc_file_open files dev dstfn) as [[dev1 err] af].
  destruct (negb (err =? AFC_E_SUCCESS) || (af =? 0)); [eexists; reflexivity|].
  cbn [upload_loop]. rewrite fread_spec by (cbn [fpos]; unfold UPLOAD_BUFFER_SIZE; lia).
  cbn [content fpos]. rewrite len_slice_clamped by (unfold UPLOAD_BUFFER_SIZE; lia).
  assert (Hlen : 0 < len data).
  { destruct data; [contradiction|]. unfold len. cbn [length]. lia. }
  set (amount := Z.min UPLOAD_BUFFER_SIZE (Z.max 0 (len data - 0))).
  assert (Ha : 0 < amount) by (unfold amount, UPLOAD_BUFFER_SIZE; lia).
  destruct (Z.gtb_spec amount 0); [|lia].
  cbn [upload_chunk]. destruct (Z.ltb_spec 0 amount); [|lia].
  specialize (Href dev1 (slice 0 UPLOAD_BUFFER_SIZE data)).
  destruct (afc_file_write afc dev1 (slice 0 UPLOAD_BUFFER_SIZE data))
    as [[dev2 aerr] written].
  cbn [fst snd] in Href.
  destruct (Z.eqb_spec aerr AFC_E_SUCCESS); [contradiction|].
  cbn [negb bind]. destruct (Z.eqb_spec 0 amount); [lia|].
  cbn [negb bind]. eexists. reflexivity.
Qed.

Lemma upload_reports_write_error_witness :
  exists dev',
    afc_upload_file refusing_device (always_open refusing_device) 2
      (Some [104; 105]) [] [47; 97] = Ret (-1, dev').
Proof.
  apply (upload_reports_write_error refusing_device (always_open refusing_device)).
  - intros st chunk. cbn. discriminate.
  - discriminate.
Defined.

(** The write loop with a device that takes [k] bytes of each chunk: every
    round sends the head of the chunk again. *)
Lemma upload_chunk_short (k : Z) (buf : list Z) :
  0 < k <= len buf -> len buf <= UPLOAD_BUFFER_SIZE ->
  forall (n fuel : nat) (dev : list Z) (total : Z),
    0 <= total -> (n <= fuel)%nat ->
    total + (Z.of_nat n - 1) * k < len buf <= total + Z.of_nat n * k ->
    upload_chunk (short_writing_device k) fuel dev buf (len buf) total =
      Ret (total + Z.of_nat n * k,
           dev ++ concat (repeat (firstn (Z.to_nat k) buf) n)).
Proof.
  intros Hk Hbuf. unfold UPLOAD_BUFFER_SIZE in Hbuf.
  induction n as [|n IH]; intros fuel dev total Ht Hfuel Hn.
  - cbn [repeat concat]. rewrite app_nil_r.
    change (Z.of_nat 0) with 0 in *. rewrite Z.mul_0_l, Z.add_0_r.
    destruct fuel; cbn [upload_chunk];
      (destruct (Z.ltb_spec total (len buf)); [lia | reflexivity]).
  - destruct fuel as [|fuel]; [lia|].
    rewrite Nat2Z.inj_succ in *.
    cbn [upload_chunk]. destruct (Z.ltb_spec total (len buf)); [|nia].
    cbn [short_writing_device afc_file_write].
    change (AFC_E_SUCCESS =? AFC_E_SUCCESS) with true. cbn [negb].
    rewrite Z.min_l by lia.
    rewrite Z.mod_small by (unfold UINT32_MOD; lia).
    rewrite IH by lia.
    cbn [repeat concat]. rewrite <- !app_assoc. f_equal. f_equal. lia.
Qed.

(** Short writes: [afc_file_write] is passed [buf] and [amount] in every
    round of the write loop, not what is left of the chunk.  With a device
    that takes [k] bytes per write, a file of one chunk reaches the device
    as the first [k] bytes of the file, [n] times over, where [n] is the
    number of writes needed to count up to the size of the file; the upload
    returns 0 when the size is a multiple of [k] and -1 otherwise. *)
Theorem upload_short_writes_resend_head :
  forall (k : Z) (n fuel : nat) (data dev dstfn : list Z),
    0 < k <= len data -> len data <= UPLOAD_BUFFER_SIZE ->
    (Z.of_nat n - 1) * k < len data <= Z.of_nat n * k ->
    afc_upload_file (short_writing_device k) (always_open (short_writing_device k))
      (S (n + fuel)) (Some data) dev dstfn =
      Ret (if len data =? Z.of_nat n * k then 0 else -1,
           dev ++ concat (repeat (firstn (Z.to_nat k) data) n)).
Proof.
  intros k n fuel data dev dstfn Hk Hdata Hn. unfold afc_upload_file.
  cbn [always_open afc_file_open afc_file_close].
  change (negb (AFC_E_SUCCESS =? AFC_E_SUCCESS) || (1 =? 0)) with false. cbv iota.
  assert (Hn1 : (1 <= n)%nat) by (destruct n; [cbn in Hn; lia | lia]).
  cbn [upload_loop].
  rewrite fread_spec by (cbn [fpos]; unfold UPLOAD_BUFFER_SIZE; lia).
  cbn [content fpos].
  assert (Hs : slice 0 UPLOAD_BUFFER_SIZE data = data).
  { rewrite slice_clamp by (unfold UPLOAD_BUFFER_SIZE; lia).
    rewrite Z.sub_0_r, Z.max_r, Z.min_r by lia. apply slice_all. }
  rewrite Hs.
  destruct (Z.gtb_spec (len data) 0); [|lia].
  rewrite (upload_chunk_short k data Hk Hdata n) by lia.
  cbn [bind]. rewrite Z.add_0_l.
  rewrite (Z.eqb_sym (Z.of_nat n * k)).
  destruct (Z.eqb_spec (len data) (Z.of_nat n * k)) as [E|E]; cbn [negb];
    [|reflexivity].
  destruct (n + fuel)%nat as [|m] eqn:Em; [lia|].
  cbn [upload_loop].
  rewrite fread_spec by (cbn [fpos]; unfold UPLOAD_BUFFER_SIZE; lia).
  cbn [content fpos].
  assert (Hend : slice (0 + Z.min UPLOAD_BUFFER_SIZE (Z.max 0 (len data - 0)))
                   UPLOAD_BUFFER_SIZE data = []).
  { unfold slice. rewrite skipn_all2; [apply firstn_nil|].
    unfold len, UPLOAD_BUFFER_SIZE in *. lia. }
  rewrite Hend. reflexivity.
Qed.

Lemma upload_short_writes_resend_head_witness :
  afc_upload_file (short_writing_device 2) (always_open (short_writing_device 2))
    (S (2 + 0)) (Some [1; 2; 3; 4]) [] [47; 97] =
    Ret (if len [1; 2; 3; 4] =? Z.of_nat 2 * 2 then 0 else -1,
         [] ++ concat (repeat (firstn (Z.to_nat 2) [1; 2; 3; 4]) 2))
  /\ concat (repeat (firstn (Z.to_nat 2) [1; 2; 3; 4]) 2) = [1; 2; 1; 2].
Proof.
  split; [|reflexivity].
  apply (upload_short_writes_resend_head 2 2 0 [1; 2; 3; 4] [] [47; 97]);
    vm_compute; intuition discriminate.
Defined.

(** ** Lookups one after the other *)

Lemma read_local_header_content (zp zp1 : ZipParser) (r : Z) :
  read_local_header zp = Ret (r, zp1) -> content (fp zp1) = content (fp zp).
Proof.
  unfold read_local_header.
  destruct (fread SIZEOF_LFH (fseek_set (fp zp) (header_start zp))) as [raw f1] eqn:E1.
  apply fread_advance in E1. destruct E1 as [_ Hc1]. rewrite fseek_set_content in Hc1.
  destruct (negb (len raw =? SIZEOF_LFH));
    [intros H; injection H as _ <-; exact Hc1|].
  destruct (negb (lfh_signature (decode_lfh raw) =? LOCAL_HEADER_SIGNATURE));
    [intros H; injection H as _ <-; exact Hc1|].
  destruct (fread (lfh_name_length (decode_lfh raw)) f1) as [name f2] eqn:E2.
  apply fread_advance in E2. destruct E2 as [_ Hc2].
  destruct (SIZEOF_FILENAME <=? lfh_name_length (decode_lfh raw)); [discriminate|].
  match goal with
  | |- (if ?c then _ else _) = _ -> _ => destruct c
  end; intros H; injection H as _ <-; cbn [fp];
    unfold fseek_cur; rewrite fseek_set_content, Hc2; exact Hc1.
Qed.

Lemma r_zip_get_next_entry_content (zl : Inflater) (fuel : nat)
  (zp zp1 : ZipParser) (r : Z) :
  r_zip_get_next_entry zl fuel zp = Ret (r, zp1) ->
  content (fp zp1) = content (fp zp).
Proof.
  unfold r_zip_get_next_entry.
  destruct (negb (consumed zp) && negb (header_start zp =? -1)).
  - destruct (r_close_entry zl fuel zp) as [zp0| |] eqn:Ec; cbn [bind];
      try discriminate.
    apply r_close_entry_resets in Ec. destruct Ec as [f [-> Hc]].
    destruct (r_zip_skip_until_next_entry fuel _) as [[found zp2]| |] eqn:Es;
      cbn [bind]; try discriminate.
    apply scan_changes_position_only in Es. destruct Es as [f2 [h [-> Hc2]]].
    cbn [fp with_fp r_reset_entry] in Hc2.
    destruct (found =? 0).
    + intros H. injection H as _ <-. cbn [fp with_fp with_header_start].
      rewrite Hc2. exact Hc.
    + intros H. apply read_local_header_content in H. rewrite H.
      cbn [fp with_fp with_header_start]. rewrite Hc2. exact Hc.
  - cbn [bind].
    destruct (r_zip_skip_until_next_entry fuel zp) as [[found zp2]| |] eqn:Es;
      cbn [bind]; try discriminate.
    apply scan_changes_position_only in Es. destruct Es as [f2 [h [-> Hc2]]].
    destruct (found =? 0).
    + intros H. injection H as _ <-. cbn [fp with_fp with_header_start]. exact Hc2.
    + intros H. apply read_local_header_content in H. rewrite H.
      cbn [fp with_fp with_header_start]. exact Hc2.
Qed.

Lemma buffer_inflate_content (zl : Inflater) (fuel : nat) :
  forall (f f1 : FILE) (strm : z_stream zl) (buffer : membuf) (total : Z) r,
    buffer_inflate zl fuel f strm buffer total = Ret (f1, r) ->
    content f1 = content f.
Proof.
  induction fuel as [|fuel IH]; intros f f1 strm buffer total r H; [discriminate|].
  cbn [buffer_inflate] in H.
  destruct (fread 4096 f) as [input f2] eqn:Er.
  apply fread_advance in Er. destruct Er as [_ Hc].
  destruct (buffer_inflate_chunk zl fuel (set_input strm input) buffer total)
    as [[[[[strm1 ret] buffer1] total1]|]| |]; cbn [bind] in H; try discriminate.
  - destruct (ret =? Z_STREAM_END).
    + injection H as <- _. exact Hc.
    + apply IH in H. rewrite H. exact Hc.
  - injection H as <- _. exact Hc.
Qed.

Lemma r_extract_to_buffer_content (zl : Inflater) (fuel : nat) (zp zp2 : ZipParser)
  res buffer size strm :
  r_extract_to_buffer zl fuel zp = Ret (res, buffer, size, zp2, strm) ->
  content (fp zp2) = content (fp zp).
Proof.
  unfold r_extract_to_buffer.
  destruct (compression zp =? COMPRESSION_STORE).
  - destruct (fread (comp_size zp) (fseek_set (fp zp) (data_start zp)))
      as [data f1] eqn:Er.
    apply fread_advance in Er. destruct Er as [_ Hc].
    rewrite fseek_set_content in Hc.
    intros H. injection H as _ _ _ <- _. exact Hc.
  - destruct (compression zp =? COMPRESSION_DEFLATE).
    + destruct (buffer_inflate zl fuel _ _ _ _) as [[f1 r]| |] eqn:Eb;
        cbn [bind]; try discriminate.
      apply buffer_inflate_content in Eb. rewrite fseek_set_content in Eb.
      destruct r as [[[s b] t]|]; intros H; injection H as _ _ _ <- _; exact Eb.
    + intros H. injection H as _ _ _ <- _. apply fseek_set_content.
Qed.

(** The fetcher leaves an entry state that is reset, on the same archive. *)
Lemma get_content_loop_leaves_reset (zl : Inflater) (fuel : nat) :
  forall (zp zp' : ZipParser) (file_name : list Z) ret buffer size,
    get_content_loop zl fuel zp file_name = Ret (ret, buffer, size, zp') ->
    exists z, zp' = r_reset_entry z /\ content (fp z) = content (fp zp).
Proof.
  induction fuel as [|fuel IH]; intros zp zp' file_name ret buffer size H;
    [discriminate|].
  cbn [get_content_loop] in H.
  destruct (r_zip_get_next_entry zl fuel zp) as [[more zp1]| |] eqn:En;
    cbn [bind] in H; try discriminate.
  apply r_zip_get_next_entry_content in En.
  assert (Hext : forall res b s z2 st,
            r_extract_to_buffer zl fuel zp1 = Ret (res, b, s, z2, st) ->
            content (fp z2) = content (fp zp)).
  { intros res b s z2 st E. apply r_extract_to_buffer_content in E.
    rewrite E. exact En. }
  destruct (more =? 0).
  { injection H as _ _ _ <-. exists zp1. split; [reflexivity | exact En]. }
  destruct (strncmp (filename zp1) file_name (Z.to_nat (strlen file_name)) =? 0).
  - destruct (negb (uncomp_size zp1 =? 0)).
    + destruct (uncomp_size zp1 >? MAX_CONTENT_SIZE).
      * injection H as _ _ _ <-. exists zp1. split; [reflexivity | exact En].
      * destruct (r_extract_to_buffer zl fuel zp1)
          as [[[[[res b] s] z2] st]| |] eqn:Ex; cbn [bind] in H; try discriminate.
        injection H as _ _ _ <-. exists z2. split; [reflexivity|].
        exact (Hext _ _ _ _ _ eq_refl).
    + destruct (r_extract_to_buffer zl fuel zp1)
        as [[[[[res b] s] z2] st]| |] eqn:Ex; cbn [bind] in H; try discriminate.
      destruct (s >? MAX_CONTENT_SIZE); injection H as _ _ _ <-;
        exists z2; (split; [reflexivity|]); exact (Hext _ _ _ _ _ eq_refl).
  - apply IH in H. destruct H as [z [-> Hc]]. exists z.
    split; [reflexivity|]. rewrite Hc. exact En.
Qed.

(** The scan looks at the stream only: two parsers on the same stream get
    the same answer, the same stream position and, when a header is found,
    the same [header_start]. *)
Lemma scan_depends_on_stream (fuel : nat) :
  forall a b : ZipParser,
    fp a = fp b ->
    match r_zip_skip_until_next_entry fuel a with
    | Ret (r, a') =>
        exists f h,
          a' = with_header_start (with_fp a f) (if r =? 0 then header_start a else h)
          /\ r_zip_skip_until_next_entry fuel b =
             Ret (r, with_header_start (with_fp b f)
                       (if r =? 0 then header_start b else h))
    | Undefined u => r_zip_skip_until_next_entry fuel b = Undefined u
    | OutOfFuel => r_zip_skip_until_next_entry fuel b = OutOfFuel
    end.
Proof.
  induction fuel as [|fuel IH]; intros a b Hfp; [reflexivity|].
  cbn [r_zip_skip_until_next_entry]. rewrite <- Hfp.
  destruct (fread BUFFER_SIZE (fp a)) as [buffer f1].
  destruct (len buffer =? 0).
  - exists f1, 0. change (0 =? 0) with true. cbv iota.
    split; [destruct a | destruct b]; reflexivity.
  - destruct (scan_chunk (S (length buffer)) buffer (len buffer) 0) as [i| | |i].
    + exists f1, (ftell (fp a) + i). change (1 =? 0) with false. cbv iota.
      split; reflexivity.
    + exists f1, 0. change (0 =? 0) with true. cbv iota.
      split; [destruct a | destruct b]; reflexivity.
    + specialize (IH (with_fp a (fseek_set f1 (ftell (fp a) + len buffer - 3)))
                     (with_fp b (fseek_set f1 (ftell (fp a) + len buffer - 3)))
                     eq_refl).
      destruct (r_zip_skip_until_next_entry fuel
                  (with_fp a (fseek_set f1 (ftell (fp a) + len buffer - 3))))
        as [[r a']| |]; [|exact IH|exact IH].
      destruct IH as [f [h [Ha Hb]]]. exists f, h. split; [exact Ha | exact Hb].
    + reflexivity.
Qed.

(** The header reader does not look at [data_start]. *)
Lemma read_local_header_ignores_data_start (a b : ZipParser) :
  fp a = fp b -> header_start a = header_start b -> filename a = filename b ->
  uncomp_size a = uncomp_size b -> consumed a = consumed b ->
  match read_local_header a with
  | Ret (r, a') =>
      exists b', read_local_header b = Ret (r, b') /\ ((r =? 0) = false -> a' = b')
  | Undefined u => read_local_header b = Undefined u
  | OutOfFuel => read_local_header b = OutOfFuel
  end.
Proof.
  intros Hfp Hh Hn Hu Hc. unfold read_local_header.
  rewrite <- Hfp, <- Hh, <- Hn, <- Hu, <- Hc.
  destruct (fread SIZEOF_LFH (fseek_set (fp a) (header_start a))) as [raw f1].
  destruct (negb (len raw =? SIZEOF_LFH)).
  { eexists. split; [reflexivity | discriminate]. }
  destruct (negb (lfh_signature (decode_lfh raw) =? LOCAL_HEADER_SIGNATURE)).
  { eexists. split; [reflexivity | discriminate]. }
  destruct (fread (lfh_name_length (decode_lfh raw)) f1) as [name f2].
  destruct (SIZEOF_FILENAME <=? lfh_name_length (decode_lfh raw)); [reflexivity|].
  match goal with
  | |- match (if ?c then _ else _) with _ => _ end => destruct c
  end; eexists; (split; [reflexivity | intros _; reflexivity]).
Qed.

(** Reading the next entry from a reset state and from a freshly opened
    parser on the same archive. *)
Lemma next_entry_after_reset (zl : Inflater) (fuel : nat) (z : ZipParser) :
  match r_zip_get_next_entry zl fuel (r_reset_entry z) with
  | Ret (r, a') =>
      exists b',
        r_zip_get_next_entry zl fuel (r_zip_open (content (fp z))) = Ret (r, b')
        /\ ((r =? 0) = false -> a' = b')
  | Undefined u =>
      r_zip_get_next_entry zl fuel (r_zip_open (content (fp z))) = Undefined u
  | OutOfFuel =>
      r_zip_get_next_entry zl fuel (r_zip_open (content (fp z))) = OutOfFuel
  end.
Proof.
  unfold r_zip_get_next_entry.
  change (negb (consumed (r_reset_entry z))
          && negb (header_start (r_reset_entry z) =? -1)) with true.
  change (negb (consumed (r_zip_open (content (fp z))))
          && negb (header_start (r_zip_open (content (fp z))) =? -1)) with false.
  cbv iota. rewrite r_close_entry_after_reset. cbn [bind].
  set (a := r_reset_entry (with_fp z {| content := content (fp z); fpos := 0 |})).
  set (b := r_zip_open (content (fp z))).
  pose proof (scan_depends_on_stream fuel a b eq_refl) as Hs.
  destruct (r_zip_skip_until_next_entry fuel a) as [[found a1]| |];
    [|rewrite Hs; reflexivity|rewrite Hs; reflexivity].
  destruct Hs as [f [h [-> Hb]]]. rewrite Hb. cbn [bind].
  destruct (found =? 0) eqn:Ef.
  - eexists. split; [reflexivity | discriminate].
  - apply read_local_header_ignores_data_start; reflexivity.
Qed.

(** Lookups one after the other: the app directory found after a content
    fetch on the same parser is the one found on a freshly opened archive.
    The fetch leaves a reset entry state, which the next call closes by
    seeking to the start of the archive. *)
Theorem app_directory_lookup_after_content_fetch :
  forall (zl : Inflater) (fuel1 fuel : nat) (zp zp' : ZipParser)
         (file_name : list Z) (ret size : Z) (buffer : option membuf)
         (path : option (list Z)),
    r_get_content zl fuel1 zp file_name = Ret (ret, buffer, size, zp') ->
    lookup_result (r_get_app_directory zl fuel zp' path) =
    lookup_result (r_get_app_directory zl fuel (r_zip_open (content (fp zp))) path).
Proof.
  intros zl fuel1 fuel zp zp' file_name ret size buffer path H.
  unfold r_get_content in H. apply get_content_loop_leaves_reset in H.
  destruct H as [z [-> Hc]]. cbn [fp r_reset_entry] in Hc. rewrite <- Hc.
  destruct fuel as [|fuel]; [reflexivity|].
  cbn [r_get_app_directory].
  pose proof (next_entry_after_reset zl fuel z) as Hn.
  destruct (r_zip_get_next_entry zl fuel (r_reset_entry z)) as [[more a1]| |];
    [|rewrite Hn; reflexivity|rewrite Hn; reflexivity].
  destruct Hn as [b1 [Hb Heq]]. rewrite Hb. cbn [bind].
  destruct (more =? 0); [reflexivity|].
  rewrite (Heq eq_refl). reflexivity.
Qed.

Lemma app_directory_lookup_after_content_fetch_witness :
  exists ret buffer size zp',
    r_get_content StoredDeflate.inflater 5 (r_zip_open archive_app_bundles)
      (chars "Payload/Bar.app/bin") = Ret (ret, buffer, size, zp')
    /\ lookup_result (r_get_app_directory StoredDeflate.inflater 4 zp' None) =
       lookup_result
         (r_get_app_directory StoredDeflate.inflater 4
            (r_zip_open (content (fp (r_zip_open archive_app_bundles)))) None)
    /\ lookup_result (r_get_app_directory StoredDeflate.inflater 4 zp' None) =
       Ret (0, Some (chars "Payload/Foo.app/" ++ [0])).
Proof.
  do 4 eexists. split; [vm_compute; reflexivity|]. split.
  - eapply (app_directory_lookup_after_content_fetch StoredDeflate.inflater 5 4
             (r_zip_open archive_app_bundles) _ (chars "Payload/Bar.app/bin")
             _ _ _ None).
    vm_compute. reflexivity.
  - vm_compute. reflexivity.
Defined.

(** ** The command line *)

(** What one option changes. *)
Lemma option_case_keeps (g g1 : globals) (c : Z) (optarg : string) :
  option_case g c optarg = Returns g1 ->
  cmd g1 = cmd g /\ cmdarg g1 = cmdarg g
  /\ (option_arguments_nonempty g -> option_arguments_nonempty g1)
  /\ (app_only g = 0 \/ docs_only g = 0 -> app_only g1 = 0 \/ docs_only g1 = 0).
Proof.
  unfold option_case, option_arguments_nonempty.
  assert (Happ : forall (array : option (list string)),
            (forall items, array = Some items -> ~ In EmptyString items) ->
            optarg <> EmptyString ->
            forall items, append_item array optarg = Some items ->
                          ~ In EmptyString items).
  { intros array Ha Ho items E. unfold append_item in E. injection E as <-.
    intros Hin. apply in_app_or in Hin. destruct Hin as [Hin|[Hin|[]]].
    - destruct array as [l|]; [exact (Ha l eq_refl Hin) | exact Hin].
    - exact (Ho Hin). }
  repeat match goal with
         | |- (if String.eqb ?a ?b then _ else _) = _ -> _ =>
             destruct (String.eqb_spec a b); [discriminate|]
         | |- (if ?b then _ else _) = _ -> _ => destruct b
         end;
    try discriminate; intros H; injection H as <-;
    cbn [cmd cmdarg udid extsinf extmeta return_attrs bundle_ids app_only docs_only
         set_udid set_use_network set_return_attrs set_bundle_ids set_extsinf
         set_extmeta set_use_notifier set_debug_level set_opt_list_user
         set_opt_list_system set_output_format set_skip_uninstall set_app_only
         set_docs_only set_copy_path set_remove_after_copy];
    (split; [reflexivity|]); (split; [reflexivity|]);
    (split; [|tauto]);
    intros (Hu & Hs & Hm & Ha & Hb);
    repeat split; try assumption; try congruence;
    try (apply Happ; assumption).
Qed.

Lemma option_loop_keeps (answers : list (Z * string)) :
  forall g g1 : globals,
    option_loop answers g = Returns g1 ->
    cmd g1 = cmd g /\ cmdarg g1 = cmdarg g
    /\ (option_arguments_nonempty g -> option_arguments_nonempty g1)
    /\ (app_only g = 0 \/ docs_only g = 0 -> app_only g1 = 0 \/ docs_only g1 = 0).
Proof.
  induction answers as [|[c optarg] rest IH]; intros g g1 H; cbn [option_loop] in H.
  - injection H as <-. split; [reflexivity|]. split; [reflexivity|]. split; auto.
  - destruct (c =? -1);
      [injection H as <-; split; [reflexivity|]; split; [reflexivity|];
       split; auto|].
    destruct (option_case g c optarg) as [g0|] eqn:E; [|discriminate].
    apply option_case_keeps in E. apply IH in H.
    destruct E as (E1 & E2 & E3 & E4). destruct H as (H1 & H2 & H3 & H4).
    split; [congruence|]. split; [congruence|].
    split; intros X; [apply H3, E3, X | apply H4, E4, X].
Qed.

(** What [parse_opts] adds to the option loop: the command and its
    argument. *)
Lemma parse_opts_after_loop (answers : list (Z * string)) (args : list string)
  (g g' : globals) :
  parse_opts answers args g = Returns g' ->
  exists g1 cmdstr rest,
    option_loop answers g = Returns g1 /\ args = cmdstr :: rest
    /\ cmd g' = command_of cmdstr (cmd g1) /\ cmd g' <> CMD_NONE
    /\ udid g' = udid g1 /\ extsinf g' = extsinf g1 /\ extmeta g' = extmeta g1
    /\ return_attrs g' = return_attrs g1 /\ bundle_ids g' = bundle_ids g1
    /\ app_only g' = app_only g1 /\ docs_only g' = docs_only g1
    /\ (cmd g' = CMD_LIST_APPS \/ cmd g' = CMD_LIST_ARCHIVES
        \/ exists arg, nth_error args 1 = Some arg /\ cmdarg g' = Some arg).
Proof.
  unfold parse_opts.
  destruct (option_loop answers g) as [g1|]; [|discriminate].
  destruct args as [|cmdstr rest]; [discriminate|].
  cbn [cmd set_cmd].
  destruct (command_of cmdstr (cmd g1)) eqn:Ec; try discriminate;
    try (intros H; injection H as <-; exists g1, cmdstr, rest;
         cbn [cmd set_cmd udid extsinf extmeta return_attrs bundle_ids app_only
              docs_only];
         repeat (split; [first [reflexivity | symmetry; exact Ec | discriminate]|]);
         first [left; reflexivity | right; left; reflexivity]);
    (destruct rest as [|arg rest]; [discriminate|]);
    intros H; injection H as <-; exists g1, cmdstr, (arg :: rest);
    cbn [cmd cmdarg set_cmd set_cmdarg udid extsinf extmeta return_attrs bundle_ids
         app_only docs_only nth_error];
    repeat (split; [first [reflexivity | symmetry; exact Ec | discriminate]|]);
    right; right; exists arg; split; reflexivity.
Qed.

(** [parse_opts] returns only with a command: whenever it returns, [cmd] is
    one of the eight commands, and for every command but the two that list,
    [cmdarg] is the argument that follows the command name; it is never
    left NULL for them. *)
Theorem parse_opts_returns_command_with_argument :
  forall (answers : list (Z * string)) (args : list string) (g g' : globals),
    parse_opts answers args g = Returns g' ->
    cmd g' <> CMD_NONE
    /\ (cmd g' = CMD_LIST_APPS \/ cmd g' = CMD_LIST_ARCHIVES
        \/ exists arg, nth_error args 1 = Some arg /\ cmdarg g' = Some arg).
Proof.
  intros answers args g g' H. apply parse_opts_after_loop in H.
  destruct H as (g1 & cmdstr & rest & _ & _ & _ & Hc & _ & _ & _ & _ & _ & _ & _ & Ha).
  split; assumption.
Qed.

Lemma parse_opts_returns_command_with_argument_witness :
  exists g',
    parse_opts [(110, EmptyString); (117, "00008030"%string)]
      ["install"%string; "app.ipa"%string] initial_globals = Returns g'
    /\ cmd g' <> CMD_NONE
    /\ (cmd g' = CMD_LIST_APPS \/ cmd g' = CMD_LIST_ARCHIVES
        \/ exists arg,
             nth_error ["install"%string; "app.ipa"%string] 1 = Some arg
             /\ cmdarg g' = Some arg).
Proof.
  eexists. split; [vm_compute; reflexivity|].
  eapply (parse_opts_returns_command_with_argument
            [(110, EmptyString); (117, "00008030"%string)]
            ["install"%string; "app.ipa"%string] initial_globals).
  vm_compute. reflexivity.
Defined.

(** No empty option argument is accepted: when [parse_opts] returns, the
    UDID, the SINF and metadata paths, the attributes and the bundle
    identifiers it has stored are all non-empty strings. *)
Theorem parse_opts_keeps_option_arguments_nonempty :
  forall (answers : list (Z * string)) (args : list string) (g g' : globals),
    option_arguments_nonempty g ->
    parse_opts answers args g = Returns g' ->
    option_arguments_nonempty g'.
Proof.
  intros answers args g g' Hg H. apply parse_opts_after_loop in H.
  destruct H as (g1 & cmdstr & rest & Hl & _ & _ & _ & Hu & Hs & Hm & Ha & Hb & _).
  apply option_loop_keeps in Hl. destruct Hl as (_ & _ & Hne & _).
  specialize (Hne Hg). unfold option_arguments_nonempty in *.
  rewrite Hu, Hs, Hm, Ha, Hb. exact Hne.
Qed.

Lemma initial_globals_nonempty : option_arguments_nonempty initial_globals.
Proof. unfold option_arguments_nonempty. cbn. repeat split; discriminate. Qed.

Lemma parse_opts_keeps_option_arguments_nonempty_witness :
  exists g',
    parse_opts [(98, "com.example.app"%string); (117, "00008030"%string)]
      ["list"%string] initial_globals = Returns g'
    /\ option_arguments_nonempty g'.
Proof.
  eexists. split; [vm_compute; reflexivity|].
  eapply (parse_opts_keeps_option_arguments_nonempty
            [(98, "com.example.app"%string); (117, "00008030"%string)]
            ["list"%string] initial_globals).
  - exact initial_globals_nonempty.
  - vm_compute. reflexivity.
Defined.

(** The two archive modes exclude each other: [app_only] and [docs_only]
    are never both set when [parse_opts] returns, in whatever order and
    however often --app-only and --docs-only are given. *)
Theorem parse_opts_archive_modes_exclusive :
  forall (answers : list (Z * string)) (args : list string) (g g' : globals),
    app_only g = 0 \/ docs_only g = 0 ->
    parse_opts answers args g = Returns g' ->
    app_only g' = 0 \/ docs_only g' = 0.
Proof.
  intros answers args g g' Hg H. apply parse_opts_after_loop in H.
  destruct H as (g1 & cmdstr & rest & Hl & _ & _ & _ & _ & _ & _ & _ & _ & Ha & Hd & _).
  apply option_loop_keeps in Hl. destruct Hl as (_ & _ & _ & Hex).
  rewrite Ha, Hd. exact (Hex Hg).
Qed.

Lemma parse_opts_archive_modes_exclusive_witness :
  exists g',
    parse_opts [(5, EmptyString); (6, EmptyString); (5, EmptyString)]
      ["archive"%string; "com.example.app"%string] initial_globals = Returns g'
    /\ (app_only g' = 0 \/ docs_only g' = 0)
    /\ app_only g' = 1.
Proof.
  eexists. split; [vm_compute; reflexivity|]. split; [|reflexivity].
  eapply (parse_opts_archive_modes_exclusive
            [(5, EmptyString); (6, EmptyString); (5, EmptyString)]
            ["archive"%string; "com.example.app"%string] initial_globals).
  - left. reflexivity.
  - vm_compute. reflexivity.
Defined.
